(** * Synthetic-stock dApp: a shallow embedding of the Solidity contracts

    The contracts of the repository (OracleAdapter, CollateralVault,
    AAPLToken, SyntheticStock, DEXRouter, SmartAccount, Paymaster) are
    embedded as state-passing functions over [Z]-valued machine integers.

    Conventions:
    - [msg.sender] and [block.timestamp] are the explicit arguments
      [sender] and [now] of every entry point;
    - a call that reverts is a value [Err e] and carries no state, which
      is the all-or-nothing rule of the EVM: the caller keeps the state
      it had ([commit]);
    - [uint256] and [int256] arithmetic is checked as in Solidity 0.8 and
      reverts with [Panic] on overflow;
    - a [mapping] is a finite map read with default zero, a role of
      AccessControl is the set of its holders;
    - [nonReentrant] is not represented: the lock is free at every
      top-level entry, and the only callbacks possible happen inside
      external calls that are modelled as arbitrary state transformers;
    - events are kept only where a value is visible nowhere else (the fee
      in [Minted] and [Redeemed]); gas is not modelled. *)

From Stdlib Require Import ZArith Lia Bool List String.
From stdpp Require Import base decidable option numbers gmap.
Import ListNotations.

Local Open Scope Z_scope.

(** ** Machine integers and reverts *)

(** An account address; [0] is Solidity's [address(0)]. *)
Abbreviation address := Z (only parsing).

Definition MAX_UINT256 : Z := 2 ^ 256 - 1.
Definition MAX_INT256 : Z := 2 ^ 255 - 1.
Definition MIN_INT256 : Z := - 2 ^ 255.

Definition is_uint256 (x : Z) : Prop := 0 <= x <= MAX_UINT256.
Definition is_int256 (x : Z) : Prop := MIN_INT256 <= x <= MAX_INT256.

(** The ways a call can fail.  [Revert] carries the message of the
    [require] that fired, [Panic] the compiler-inserted checks of
    Solidity 0.8 (0x11 arithmetic overflow, 0x12 division by zero); the
    others are the custom errors of the OpenZeppelin 5 base contracts. *)
Inductive error : Type :=
| Revert (reason : string)
| Panic (code : Z)
| AccessControlUnauthorizedAccount (account : address) (role : string)
| EnforcedPause
| ExpectedPause
| ERC20InsufficientBalance (holder : address) (balance needed : Z)
| ERC20InsufficientAllowance (spender : address) (allowance needed : Z).

Inductive result (A : Type) : Type :=
| Ok (a : A)
| Err (e : error).
Arguments Ok {A} a.
Arguments Err {A} e.

Global Instance result_ret : MRet result := fun A a => Ok a.
Global Instance result_bind : MBind result := fun A B k c =>
  match c with
  | Ok a => k a
  | Err e => Err e
  end.

Global Instance result_fmap : FMap result := fun A B f c =>
  match c with
  | Ok a => Ok (f a)
  | Err e => Err e
  end.

Definition is_ok {A : Type} (r : result A) : bool :=
  match r with Ok _ => true | Err _ => false end.

Definition require (cond : bool) (reason : string) : result unit :=
  if cond then Ok tt else Err (Revert reason).

(** Checked [uint256] arithmetic (operands are taken in range). *)
Definition add256 (a b : Z) : result Z :=
  if a + b <=? MAX_UINT256 then Ok (a + b) else Err (Panic 17).
Definition sub256 (a b : Z) : result Z :=
  if b <=? a then Ok (a - b) else Err (Panic 17).
Definition mul256 (a b : Z) : result Z :=
  if a * b <=? MAX_UINT256 then Ok (a * b) else Err (Panic 17).
Definition div256 (a b : Z) : result Z :=
  if b =? 0 then Err (Panic 18) else Ok (a / b).

(** Checked [int256] arithmetic; division truncates towards zero. *)
Definition fits_int256 (x : Z) : bool :=
  (MIN_INT256 <=? x) && (x <=? MAX_INT256).
Definition isub256 (a b : Z) : result Z :=
  if fits_int256 (a - b) then Ok (a - b) else Err (Panic 17).
Definition imul256 (a b : Z) : result Z :=
  if fits_int256 (a * b) then Ok (a * b) else Err (Panic 17).
Definition idiv256 (a b : Z) : result Z :=
  if b =? 0 then Err (Panic 18)
  else if fits_int256 (Z.quot a b) then Ok (Z.quot a b) else Err (Panic 17).

(** A Solidity [mapping(address => uint256)]: absent keys read as zero. *)
Definition mget (m : gmap Z Z) (k : Z) : Z := default 0 (m !! k).

(** A transaction either commits the state its entry point returns or, on
    a revert, leaves the state it started from. *)
Definition commit {S : Type} (s : S) (r : result S) : S :=
  match r with
  | Ok s' => s'
  | Err _ => s
  end.

(** OpenZeppelin's [onlyRole(role)] modifier over a set of role holders. *)
Definition onlyRole (role : string) (holders : gset Z) (sender : address)
  : result unit :=
  if bool_decide (sender ∈ holders) then Ok tt
  else Err (AccessControlUnauthorizedAccount sender role).

Definition whenNotPaused (paused : bool) : result unit :=
  if paused then Err EnforcedPause else Ok tt.
Definition whenPaused (paused : bool) : result unit :=
  if paused then Ok tt else Err ExpectedPause.

(** ** OracleAdapter (contracts/OracleAdapter.sol) *)

Module OracleAdapter.

Definition MAX_PRICE_AGE : Z := 3600.
Definition MIN_UPDATE_INTERVAL : Z := 60.
Definition MAX_PRICE_CHANGE : Z := 50 * 10 ^ 8.
Definition MIN_PRICE : Z := 10 ^ 8.
Definition MAX_PRICE : Z := 10000 * 10 ^ 8.

Record state : Type := mkState {
  _latestPrice : Z;          (* int256, scaled by 1e8 *)
  _lastUpdated : Z;          (* uint256, block timestamp *)
  _updateCount : Z;          (* uint256 *)
  operators : gset Z;        (* holders of OPERATOR_ROLE *)
  admins : gset Z            (* holders of DEFAULT_ADMIN_ROLE *)
}.

Definition set_operators (st : state) (holders : gset Z) : state :=
  {| _latestPrice := _latestPrice st;
     _lastUpdated := _lastUpdated st;
     _updateCount := _updateCount st;
     operators := holders;
     admins := admins st |}.

(** [initialize(admin)] at block time [now]. *)
Definition initialize (admin : address) (now : Z) : result state :=
  require (negb (admin =? 0)) "OracleAdapter: admin cannot be zero address";;
  Ok {| _latestPrice := 150 * 10 ^ 8;
        _lastUpdated := now;
        _updateCount := 0;
        operators := ∅;
        admins := {[ admin ]} |}.

Definition addOperator (st : state) (sender operator : address)
  : result state :=
  onlyRole "DEFAULT_ADMIN_ROLE" (admins st) sender;;
  require (negb (operator =? 0))
          "OracleAdapter: operator cannot be zero address";;
  Ok (set_operators st ({[ operator ]} ∪ operators st)).

Definition removeOperator (st : state) (sender operator : address)
  : result state :=
  onlyRole "DEFAULT_ADMIN_ROLE" (admins st) sender;;
  Ok (set_operators st (operators st ∖ {[ operator ]})).

(** The [if (_updateCount > 0)] block of [pushPrice]. *)
Definition checkPriceChange (st : state) (newPrice : Z) : result unit :=
  if 0 <? _updateCount st then
    priceChange ← (if _latestPrice st <? newPrice
                   then isub256 newPrice (_latestPrice st)
                   else isub256 (_latestPrice st) newPrice);
    scaled ← imul256 (_latestPrice st) MAX_PRICE_CHANGE;
    maxChange ← idiv256 scaled (100 * 10 ^ 8);
    require (priceChange <=? maxChange)
            "OracleAdapter: price change too large"
  else Ok tt.

Definition pushPrice (st : state) (sender : address) (now : Z)
           (newPrice : Z) : result state :=
  onlyRole "OPERATOR_ROLE" (operators st) sender;;
  require (0 <? newPrice) "OracleAdapter: price must be positive";;
  require (MIN_PRICE <=? newPrice) "OracleAdapter: price below minimum";;
  require (newPrice <=? MAX_PRICE) "OracleAdapter: price above maximum";;
  earliest ← add256 (_lastUpdated st) MIN_UPDATE_INTERVAL;
  require (earliest <=? now) "OracleAdapter: update too frequent";;
  checkPriceChange st newPrice;;
  count ← add256 (_updateCount st) 1;
  Ok {| _latestPrice := newPrice;
        _lastUpdated := now;
        _updateCount := count;
        operators := operators st;
        admins := admins st |}.

Definition getPrice (st : state) (now : Z) : result (Z * Z) :=
  require (0 <? _lastUpdated st) "OracleAdapter: no price data available";;
  limit ← add256 (_lastUpdated st) MAX_PRICE_AGE;
  require (now <=? limit) "OracleAdapter: price data too old";;
  Ok (_latestPrice st, _lastUpdated st).

Definition getPriceUnsafe (st : state) (now : Z) : result (Z * Z * bool) :=
  if _lastUpdated st =? 0 then Ok (_latestPrice st, _lastUpdated st, true)
  else
    limit ← add256 (_lastUpdated st) MAX_PRICE_AGE;
    Ok (_latestPrice st, _lastUpdated st, limit <? now).

(** [_lastUpdated > 0 && block.timestamp <= _lastUpdated + MAX_PRICE_AGE] *)
Definition isPriceFresh (st : state) (now : Z) : result bool :=
  if 0 <? _lastUpdated st then
    limit ← add256 (_lastUpdated st) MAX_PRICE_AGE;
    Ok (now <=? limit)
  else Ok false.

(** What holds of the stored price point at block time [now] in every
    state the contract can be in: the price is inside its bounds, the
    last update is not in the future, and every accepted update took
    at least [MIN_UPDATE_INTERVAL] of clock. *)
Definition inv (now : Z) (st : state) : Prop :=
  MIN_PRICE <= _latestPrice st <= MAX_PRICE /\
  0 <= _lastUpdated st <= now /\
  0 <= _updateCount st /\
  _updateCount st * MIN_UPDATE_INTERVAL <= _lastUpdated st.

(** States reached from [initialize] by operator management and price
    pushes at non-decreasing block times. *)
Inductive reachable : Z -> state -> Prop :=
| reach_init admin now st :
    0 <= now -> initialize admin now = Ok st -> reachable now st
| reach_tick now now' st :
    reachable now st -> now <= now' -> reachable now' st
| reach_addOperator now st sender operator st' :
    reachable now st ->
    addOperator st sender operator = Ok st' ->
    reachable now st'
| reach_removeOperator now st sender operator st' :
    reachable now st ->
    removeOperator st sender operator = Ok st' ->
    reachable now st'
| reach_pushPrice now st sender newPrice st' :
    reachable now st ->
    pushPrice st sender now newPrice = Ok st' ->
    reachable now st'.

(** The relative change [|new - prev| / prev] compared with
    [MAX_PRICE_CHANGE] (a percentage scaled by 1e8) exactly, with no
    rounding. *)
Definition change_exceeds (prev newPrice : Z) : Prop :=
  prev * MAX_PRICE_CHANGE < Z.abs (newPrice - prev) * (100 * 10 ^ 8).

(** The rejection conditions of [pushPrice] as the specification words
    them.  The interval is counted "since the prior accepted update",
    and the change check is "skipped on the very first update": both
    presuppose an update before this one, that is [0 < _updateCount]. *)
Definition rejected (st : state) (now newPrice : Z) : Prop :=
  newPrice <= 0 \/
  newPrice < MIN_PRICE \/
  MAX_PRICE < newPrice \/
  (0 < _updateCount st /\ now < _lastUpdated st + MIN_UPDATE_INTERVAL) \/
  (0 < _updateCount st /\ change_exceeds (_latestPrice st) newPrice).

(** The conditions under which the code refuses a push.  The interval
    is counted from the stored [_lastUpdated] whatever wrote it, so
    before the first update it runs from the time of [initialize]. *)
Definition refused (st : state) (now newPrice : Z) : Prop :=
  newPrice <= 0 \/
  newPrice < MIN_PRICE \/
  MAX_PRICE < newPrice \/
  now < _lastUpdated st + MIN_UPDATE_INTERVAL \/
  (0 < _updateCount st /\ change_exceeds (_latestPrice st) newPrice).

End OracleAdapter.


(** ** ERC-20 tokens

    The collateral token, the synthetic token and the tokens the router
    swaps are external OpenZeppelin ERC-20 contracts.  One ledger holds the
    balances and allowances of all of them, keyed by token address; a
    transfer moves exactly the stated amount or reverts.  Of the token's
    own checks the balance and the allowance ones are modelled. *)

Module ERC20.

Record ledger : Type := mkLedger {
  balances : gmap (Z * Z) Z;          (* (token, holder) *)
  allowances : gmap (Z * Z * Z) Z;    (* (token, owner, spender) *)
  supplies : gmap Z Z                 (* token *)
}.

Definition balanceOf (l : ledger) (token holder : address) : Z :=
  default 0 (balances l !! (token, holder)).

Definition allowance (l : ledger) (token owner spender : address) : Z :=
  default 0 (allowances l !! (token, owner, spender)).

Definition totalSupply (l : ledger) (token : address) : Z :=
  default 0 (supplies l !! token).

Definition set_balance (l : ledger) (token holder : address) (v : Z)
  : ledger :=
  {| balances := <[(token, holder) := v]> (balances l);
     allowances := allowances l;
     supplies := supplies l |}.

Definition set_supply (l : ledger) (token : address) (v : Z) : ledger :=
  {| balances := balances l;
     allowances := allowances l;
     supplies := <[token := v]> (supplies l) |}.

(** [approve], called by [owner]. *)
Definition approve (l : ledger) (token owner spender : address) (v : Z)
  : ledger :=
  {| balances := balances l;
     allowances := <[(token, owner, spender) := v]> (allowances l);
     supplies := supplies l |}.

(** [transfer], called by [from]: debit first, then credit. *)
Definition transfer (l : ledger) (token from to : address) (value : Z)
  : result ledger :=
  let fromBalance := balanceOf l token from in
  if fromBalance <? value
  then Err (ERC20InsufficientBalance from fromBalance value)
  else
    let l1 := set_balance l token from (fromBalance - value) in
    Ok (set_balance l1 token to (balanceOf l1 token to + value)).

(** An unlimited allowance is not consumed. *)
Definition spendAllowance (l : ledger) (token owner spender : address)
           (value : Z) : result ledger :=
  let current := allowance l token owner spender in
  if current =? MAX_UINT256 then Ok l
  else if current <? value
       then Err (ERC20InsufficientAllowance spender current value)
       else Ok (approve l token owner spender (current - value)).

(** [transferFrom], called by [spender]. *)
Definition transferFrom (l : ledger) (token spender from to : address)
           (value : Z) : result ledger :=
  l1 ← spendAllowance l token from spender value;
  transfer l1 token from to value.

Definition mint (l : ledger) (token to : address) (value : Z)
  : result ledger :=
  supply ← add256 (totalSupply l token) value;
  let l1 := set_supply l token supply in
  Ok (set_balance l1 token to (balanceOf l1 token to + value)).

Definition burn (l : ledger) (token from : address) (value : Z)
  : result ledger :=
  let fromBalance := balanceOf l token from in
  if fromBalance <? value
  then Err (ERC20InsufficientBalance from fromBalance value)
  else
    let l1 := set_balance l token from (fromBalance - value) in
    Ok (set_supply l1 token (totalSupply l1 token - value)).

End ERC20.

(** ** AAPLToken (the access-controlled wrapper around the synthetic token) *)

Module AAPLToken.

Record state : Type := mkState {
  minters : gset Z;      (* MINTER_ROLE *)
  burners : gset Z;      (* BURNER_ROLE *)
  paused : bool
}.

Section Token.
Variable self : address.

Definition mint (st : state) (l : ERC20.ledger) (sender to : address)
           (amount : Z) : result ERC20.ledger :=
  onlyRole "MINTER_ROLE" (minters st) sender;;
  whenNotPaused (paused st);;
  require (negb (to =? 0)) "AAPLToken: mint to zero address";;
  require (0 <? amount) "AAPLToken: mint amount must be positive";;
  ERC20.mint l self to amount.

Definition burn (st : state) (l : ERC20.ledger) (sender from : address)
           (amount : Z) : result ERC20.ledger :=
  onlyRole "BURNER_ROLE" (burners st) sender;;
  whenNotPaused (paused st);;
  require (negb (from =? 0)) "AAPLToken: burn from zero address";;
  require (0 <? amount) "AAPLToken: burn amount must be positive";;
  require (amount <=? ERC20.balanceOf l self from)
          "AAPLToken: insufficient balance";;
  ERC20.burn l self from amount.
End Token.

End AAPLToken.

(** ** CollateralVault (unnamed/part_009, first contract) *)

Module CollateralVault.

Record state : Type := mkState {
  _userCollateral : gmap Z Z;
  _totalCollateral : Z;
  paused : bool;
  syntheticStockRole : gset Z;   (* SYNTHETIC_STOCK_ROLE *)
  pauserRole : gset Z;           (* PAUSER_ROLE *)
  adminRole : gset Z             (* DEFAULT_ADMIN_ROLE *)
}.

Definition set_collateral (st : state) (users : gmap Z Z) (total : Z)
  : state :=
  {| _userCollateral := users;
     _totalCollateral := total;
     paused := paused st;
     syntheticStockRole := syntheticStockRole st;
     pauserRole := pauserRole st;
     adminRole := adminRole st |}.

Definition set_paused (st : state) (p : bool) : state :=
  {| _userCollateral := _userCollateral st;
     _totalCollateral := _totalCollateral st;
     paused := p;
     syntheticStockRole := syntheticStockRole st;
     pauserRole := pauserRole st;
     adminRole := adminRole st |}.

(** [constructor(_usdcToken, admin)] *)
Definition constructor (admin : address) : state :=
  {| _userCollateral := ∅;
     _totalCollateral := 0;
     paused := false;
     syntheticStockRole := ∅;
     pauserRole := {[ admin ]};
     adminRole := {[ admin ]} |}.

Definition getUserCollateral (st : state) (user : address) : Z :=
  mget (_userCollateral st) user.

Definition getTotalCollateral (st : state) : Z := _totalCollateral st.

(** The sum of the recorded user balances, and the bookkeeping it is
    compared with: the tracked total equals that sum and no recorded
    balance is negative. *)
Definition sumCollateral (m : gmap Z Z) : Z :=
  map_fold (fun _ v acc => v + acc) 0 m.

Definition accounted (st : state) : Prop :=
  _totalCollateral st = sumCollateral (_userCollateral st) /\
  map_Forall (fun _ v => 0 <= v) (_userCollateral st).

Section Vault.
Variables (usdcToken self : address).

Definition depositCollateral (l : ERC20.ledger) (st : state)
           (sender user : address) (amount : Z)
  : result (ERC20.ledger * state) :=
  onlyRole "SYNTHETIC_STOCK_ROLE" (syntheticStockRole st) sender;;
  whenNotPaused (paused st);;
  require (negb (user =? 0))
          "CollateralVault: user cannot be zero address";;
  require (0 <? amount) "CollateralVault: amount must be positive";;
  l' ← ERC20.transferFrom l usdcToken self sender self amount;
  balance ← add256 (getUserCollateral st user) amount;
  total ← add256 (_totalCollateral st) amount;
  Ok (l', set_collateral st (<[user := balance]> (_userCollateral st))
                         total).

Definition withdrawCollateral (l : ERC20.ledger) (st : state)
           (sender user : address) (amount : Z) (recipient : address)
  : result (ERC20.ledger * state) :=
  onlyRole "SYNTHETIC_STOCK_ROLE" (syntheticStockRole st) sender;;
  whenNotPaused (paused st);;
  require (negb (user =? 0))
          "CollateralVault: user cannot be zero address";;
  require (negb (recipient =? 0))
          "CollateralVault: recipient cannot be zero address";;
  require (0 <? amount) "CollateralVault: amount must be positive";;
  require (amount <=? getUserCollateral st user)
          "CollateralVault: insufficient collateral";;
  balance ← sub256 (getUserCollateral st user) amount;
  total ← sub256 (_totalCollateral st) amount;
  l' ← ERC20.transfer l usdcToken self recipient amount;
  Ok (l', set_collateral st (<[user := balance]> (_userCollateral st))
                         total).

Definition getVaultBalance (l : ERC20.ledger) : Z :=
  ERC20.balanceOf l usdcToken self.

Definition isVaultSolvent (l : ERC20.ledger) (st : state) : bool :=
  _totalCollateral st <=? ERC20.balanceOf l usdcToken self.

Definition emergencyWithdraw (l : ERC20.ledger) (st : state)
           (sender : address) : result (ERC20.ledger * state) :=
  whenPaused (paused st);;
  let userBalance := getUserCollateral st sender in
  require (0 <? userBalance)
          "CollateralVault: no collateral to withdraw";;
  total ← sub256 (_totalCollateral st) userBalance;
  l' ← ERC20.transfer l usdcToken self sender userBalance;
  Ok (l', set_collateral st (<[sender := 0]> (_userCollateral st)) total).

Definition pause (st : state) (sender : address) : result state :=
  onlyRole "PAUSER_ROLE" (pauserRole st) sender;;
  whenNotPaused (paused st);;
  Ok (set_paused st true).

Definition unpause (st : state) (sender : address) : result state :=
  onlyRole "PAUSER_ROLE" (pauserRole st) sender;;
  whenPaused (paused st);;
  Ok (set_paused st false).

(** AccessControl's [grantRole(SYNTHETIC_STOCK_ROLE, account)]. *)
Definition grantSyntheticStockRole (st : state) (sender account : address)
  : result state :=
  onlyRole "DEFAULT_ADMIN_ROLE" (adminRole st) sender;;
  Ok {| _userCollateral := _userCollateral st;
        _totalCollateral := _totalCollateral st;
        paused := paused st;
        syntheticStockRole := {[ account ]} ∪ syntheticStockRole st;
        pauserRole := pauserRole st;
        adminRole := adminRole st |}.

(** [emergencyTokenRecovery(token, amount, recipient)].  The vault
    state above does not carry EMERGENCY_ROLE; its holders are the
    argument [emergencyRole]. *)
Definition emergencyTokenRecovery (emergencyRole : gset Z)
           (l : ERC20.ledger) (sender token : address) (amount : Z)
           (recipient : address) : result ERC20.ledger :=
  onlyRole "EMERGENCY_ROLE" emergencyRole sender;;
  require (negb (token =? usdcToken))
          "CollateralVault: cannot recover USDC collateral";;
  require (negb (token =? 0))
          "CollateralVault: token cannot be zero address";;
  require (negb (recipient =? 0))
          "CollateralVault: recipient cannot be zero address";;
  ERC20.transfer l token self recipient amount.
End Vault.

End CollateralVault.

(** ** SyntheticStock (unnamed/part_010) *)

Module SyntheticStock.

Definition COLLATERAL_RATIO : Z := 150.
Definition LIQUIDATION_THRESHOLD : Z := 120.
Definition USDC_DECIMALS : Z := 6.
Definition AAPL_DECIMALS : Z := 18.
Definition PRICE_DECIMALS : Z := 8.
Definition MAX_FEE : Z := 1000.

Record state : Type := mkState {
  mintFee : Z;                  (* basis points *)
  redeemFee : Z;
  userAaplBalance : gmap Z Z;
  aaRole : gset Z;              (* AA_ROLE *)
  adminRole : gset Z;           (* DEFAULT_ADMIN_ROLE *)
  paused : bool
}.

Definition set_userAaplBalance (st : state) (m : gmap Z Z) : state :=
  {| mintFee := mintFee st;
     redeemFee := redeemFee st;
     userAaplBalance := m;
     aaRole := aaRole st;
     adminRole := adminRole st;
     paused := paused st |}.

(** [initialize(_aaplToken, _collateralVault, _oracle, _usdcToken,
    admin)].  The contract is used behind a proxy (its constructor
    disables the initializers of the implementation), so the
    declarations [mintFee = 25] and [redeemFee = 25] never run on the
    storage that [initialize] sets up, and [initialize] does not write
    the fees: both start at zero and stay there until [updateFees]. *)
Definition initialize
           (_aaplToken _collateralVault _oracle _usdcToken admin : address)
  : result state :=
  require (negb (_aaplToken =? 0))
          "SyntheticStock: AAPL token cannot be zero";;
  require (negb (_collateralVault =? 0))
          "SyntheticStock: vault cannot be zero";;
  require (negb (_oracle =? 0)) "SyntheticStock: oracle cannot be zero";;
  require (negb (_usdcToken =? 0)) "SyntheticStock: USDC cannot be zero";;
  require (negb (admin =? 0)) "SyntheticStock: admin cannot be zero";;
  Ok {| mintFee := 0;
        redeemFee := 0;
        userAaplBalance := ∅;
        aaRole := ∅;
        adminRole := {[ admin ]};
        paused := false |}.

Definition addAAWallet (st : state) (sender aaWallet : address)
  : result state :=
  onlyRole "DEFAULT_ADMIN_ROLE" (adminRole st) sender;;
  require (negb (aaWallet =? 0)) "SyntheticStock: invalid AA wallet";;
  Ok {| mintFee := mintFee st;
        redeemFee := redeemFee st;
        userAaplBalance := userAaplBalance st;
        aaRole := {[ aaWallet ]} ∪ aaRole st;
        adminRole := adminRole st;
        paused := paused st |}.

Definition updateFees (st : state) (sender : address)
           (newMintFee newRedeemFee : Z) : result state :=
  onlyRole "DEFAULT_ADMIN_ROLE" (adminRole st) sender;;
  require (newMintFee <=? MAX_FEE) "SyntheticStock: mint fee too high";;
  require (newRedeemFee <=? MAX_FEE) "SyntheticStock: redeem fee too high";;
  Ok {| mintFee := newMintFee;
        redeemFee := newRedeemFee;
        userAaplBalance := userAaplBalance st;
        aaRole := aaRole st;
        adminRole := adminRole st;
        paused := paused st |}.

(** [(aaplAmount * aaplPrice * COLLATERAL_RATIO) /
     (100 * 10**(AAPL_DECIMALS + PRICE_DECIMALS - USDC_DECIMALS))],
    the expression shared by [mint] and [redeem]. *)
Definition collateralFor (aaplAmount aaplPrice : Z) : result Z :=
  value ← mul256 aaplAmount aaplPrice;
  scaled ← mul256 value COLLATERAL_RATIO;
  div256 scaled
         (100 * 10 ^ (AAPL_DECIMALS + PRICE_DECIMALS - USDC_DECIMALS)).

(** The constant the formula divides by. *)
Definition SCALE : Z := 100 * 10 ^ 20.

(** [(amount * feeBps) / 10000] *)
Definition feeOf (amount feeBps : Z) : result Z :=
  product ← mul256 amount feeBps;
  div256 product 10000.

Inductive event : Type :=
| Minted (user : address) (collateralUsed aaplMinted aaplPrice fee : Z)
| Redeemed (user : address)
           (aaplBurned collateralReturned aaplPrice fee : Z).

(** The contracts one deployment wires together, with the ledger of the
    tokens they hold. *)
Record system : Type := mkSystem {
  ledger : ERC20.ledger;
  aaplToken : AAPLToken.state;
  collateralVault : CollateralVault.state;
  oracle : OracleAdapter.state;
  stock : state
}.

(** The sum of the recorded positions [userAaplBalance]. *)
Definition totalPositions (st : state) : Z :=
  CollateralVault.sumCollateral (userAaplBalance st).

Section Engine.
(** Addresses of the deployment; [self] is the SyntheticStock proxy. *)
Variables (usdcToken aaplAddr vaultAddr self : address).

Definition mint (s : system) (sender : address) (now : Z)
           (user : address) (aaplAmount : Z)
  : result (Z * event * system) :=
  onlyRole "AA_ROLE" (aaRole (stock s)) sender;;
  whenNotPaused (paused (stock s));;
  require (negb (user =? 0)) "SyntheticStock: invalid user";;
  require (0 <? aaplAmount) "SyntheticStock: amount must be positive";;
  '(price, _) ← OracleAdapter.getPrice (oracle s) now;
  require (0 <? price) "SyntheticStock: invalid price";;
  let aaplPrice := price in
  collateralUsed ← collateralFor aaplAmount aaplPrice;
  require (0 <? collateralUsed)
          "SyntheticStock: insufficient mint amount";;
  let userCollateral :=
    CollateralVault.getUserCollateral (collateralVault s) user in
  require (collateralUsed <=? userCollateral)
          "SyntheticStock: insufficient collateral in vault";;
  fee ← feeOf aaplAmount (mintFee (stock s));
  netAaplAmount ← sub256 aaplAmount fee;
  '(l1, vault1) ← CollateralVault.withdrawCollateral
                     usdcToken vaultAddr (ledger s) (collateralVault s)
                     self user collateralUsed self;
  l2 ← AAPLToken.mint aaplAddr (aaplToken s) l1 self user netAaplAmount;
  position ← add256 (mget (userAaplBalance (stock s)) user) netAaplAmount;
  Ok (collateralUsed,
      Minted user collateralUsed netAaplAmount aaplPrice fee,
      {| ledger := l2;
         aaplToken := aaplToken s;
         collateralVault := vault1;
         oracle := oracle s;
         stock := set_userAaplBalance (stock s)
                    (<[user := position]> (userAaplBalance (stock s))) |}).

Definition redeem (s : system) (sender : address) (now : Z)
           (user : address) (aaplAmount : Z)
  : result (Z * event * system) :=
  onlyRole "AA_ROLE" (aaRole (stock s)) sender;;
  whenNotPaused (paused (stock s));;
  require (negb (user =? 0)) "SyntheticStock: invalid user";;
  require (0 <? aaplAmount) "SyntheticStock: amount must be positive";;
  require (aaplAmount <=? ERC20.balanceOf (ledger s) aaplAddr user)
          "SyntheticStock: insufficient AAPL-x balance";;
  require (aaplAmount <=? mget (userAaplBalance (stock s)) user)
          "SyntheticStock: insufficient user position";;
  '(price, _) ← OracleAdapter.getPrice (oracle s) now;
  require (0 <? price) "SyntheticStock: invalid price";;
  let aaplPrice := price in
  collateralReturned ← collateralFor aaplAmount aaplPrice;
  require (0 <? collateralReturned)
          "SyntheticStock: no collateral to redeem";;
  fee ← feeOf collateralReturned (redeemFee (stock s));
  netReturn ← sub256 collateralReturned fee;
  l1 ← AAPLToken.burn aaplAddr (aaplToken s) (ledger s) self user
         aaplAmount;
  position ← sub256 (mget (userAaplBalance (stock s)) user) aaplAmount;
  let l2 := ERC20.approve l1 usdcToken self vaultAddr netReturn in
  '(l3, vault1) ← CollateralVault.depositCollateral
                     usdcToken vaultAddr l2 (collateralVault s)
                     self user netReturn;
  Ok (netReturn,
      Redeemed user aaplAmount netReturn aaplPrice fee,
      {| ledger := l3;
         aaplToken := aaplToken s;
         collateralVault := vault1;
         oracle := oracle s;
         stock := set_userAaplBalance (stock s)
                    (<[user := position]> (userAaplBalance (stock s))) |}).

(** [getSystemCollateralizationRatio()]; [type(uint256).max] stands
    for "nothing to collateralise". *)
Definition getSystemCollateralizationRatio (s : system) (now : Z)
  : result Z :=
  let totalSupply := ERC20.totalSupply (ledger s) aaplAddr in
  if totalSupply =? 0 then Ok MAX_UINT256
  else
    '(price, _, _) ← OracleAdapter.getPriceUnsafe (oracle s) now;
    if price <=? 0 then Ok 0
    else
      let aaplPrice := price in
      let totalCollateral :=
        CollateralVault.getTotalCollateral (collateralVault s) in
      value ← mul256 totalSupply aaplPrice;
      totalAaplValueInUsd ←
        div256 value (10 ^ (AAPL_DECIMALS + PRICE_DECIMALS - USDC_DECIMALS));
      if totalAaplValueInUsd =? 0 then Ok MAX_UINT256
      else
        scaled ← mul256 totalCollateral 100;
        div256 scaled totalAaplValueInUsd.

(** [getUserCollateralizationRatio(user)] *)
Definition getUserCollateralizationRatio (s : system) (now : Z)
           (user : address) : result Z :=
  let userAapl := mget (userAaplBalance (stock s)) user in
  if userAapl =? 0 then Ok MAX_UINT256
  else
    '(price, _, _) ← OracleAdapter.getPriceUnsafe (oracle s) now;
    if price <=? 0 then Ok 0
    else
      let aaplPrice := price in
      let userCollateral :=
        CollateralVault.getUserCollateral (collateralVault s) user in
      value ← mul256 userAapl aaplPrice;
      userAaplValueInUsd ←
        div256 value (10 ^ (AAPL_DECIMALS + PRICE_DECIMALS - USDC_DECIMALS));
      if userAaplValueInUsd =? 0 then Ok MAX_UINT256
      else
        scaled ← mul256 userCollateral 100;
        div256 scaled userAaplValueInUsd.

Definition isSystemSolvent (s : system) (now : Z) : result bool :=
  ratio ← getSystemCollateralizationRatio s now;
  Ok (COLLATERAL_RATIO <=? ratio).

Definition canLiquidate (s : system) (now : Z) (user : address)
  : result bool :=
  ratio ← getUserCollateralizationRatio s now user;
  Ok ((0 <? ratio) && (ratio <? LIQUIDATION_THRESHOLD)).

(** [withdrawFees(recipient, amount)]: the fees are whatever USDC the
    contract holds. *)
Definition withdrawFees (st : state) (l : ERC20.ledger)
           (sender recipient : address) (amount : Z)
  : result ERC20.ledger :=
  onlyRole "DEFAULT_ADMIN_ROLE" (adminRole st) sender;;
  require (negb (recipient =? 0)) "SyntheticStock: invalid recipient";;
  let availableFees := ERC20.balanceOf l usdcToken self in
  require (amount <=? availableFees) "SyntheticStock: insufficient fees";;
  ERC20.transfer l usdcToken self recipient amount.

(** *** Calls that reach the vault, as one transaction alphabet *)

Inductive call : Type :=
| DepositCollateral (user : address) (amount : Z)
| WithdrawCollateral (user : address) (amount : Z) (recipient : address)
| EmergencyWithdraw
| Mint (user : address) (aaplAmount : Z)
| Redeem (user : address) (aaplAmount : Z)
| VaultPause
| VaultUnpause
| VaultGrantRole (account : address)
| AddAAWallet (aaWallet : address)
| UpdateFees (newMintFee newRedeemFee : Z)
| PushPrice (newPrice : Z)
| UsdcApprove (spender : address) (amount : Z)
| UsdcTransfer (to : address) (amount : Z).

Definition with_vault (s : system) (r : ERC20.ledger * CollateralVault.state)
  : system :=
  {| ledger := r.1;
     aaplToken := aaplToken s;
     collateralVault := r.2;
     oracle := oracle s;
     stock := stock s |}.

Definition with_ledger (s : system) (l : ERC20.ledger) : system :=
  {| ledger := l;
     aaplToken := aaplToken s;
     collateralVault := collateralVault s;
     oracle := oracle s;
     stock := stock s |}.

Definition with_stock (s : system) (st : state) : system :=
  {| ledger := ledger s;
     aaplToken := aaplToken s;
     collateralVault := collateralVault s;
     oracle := oracle s;
     stock := st |}.

Definition with_oracle (s : system) (o : OracleAdapter.state) : system :=
  {| ledger := ledger s;
     aaplToken := aaplToken s;
     collateralVault := collateralVault s;
     oracle := o;
     stock := stock s |}.

(** The [uint256] arguments of a call are in range. *)
Definition args_in_range (c : call) : Prop :=
  match c with
  | DepositCollateral _ amount
  | WithdrawCollateral _ amount _
  | Mint _ amount
  | Redeem _ amount
  | UsdcApprove _ amount
  | UsdcTransfer _ amount => is_uint256 amount
  | UpdateFees newMintFee newRedeemFee =>
      is_uint256 newMintFee /\ is_uint256 newRedeemFee
  | PushPrice newPrice => is_int256 newPrice
  | EmergencyWithdraw | VaultPause | VaultUnpause
  | VaultGrantRole _ | AddAAWallet _ => True
  end.

(** One external call by [sender] at block time [now]. *)
Definition exec (s : system) (sender : address) (now : Z) (c : call)
  : result system :=
  match c with
  | DepositCollateral user amount =>
      with_vault s <$>
        CollateralVault.depositCollateral usdcToken vaultAddr
          (ledger s) (collateralVault s) sender user amount
  | WithdrawCollateral user amount recipient =>
      with_vault s <$>
        CollateralVault.withdrawCollateral usdcToken vaultAddr
          (ledger s) (collateralVault s) sender user amount recipient
  | EmergencyWithdraw =>
      with_vault s <$>
        CollateralVault.emergencyWithdraw usdcToken vaultAddr
          (ledger s) (collateralVault s) sender
  | Mint user aaplAmount =>
      snd <$> mint s sender now user aaplAmount
  | Redeem user aaplAmount =>
      snd <$> redeem s sender now user aaplAmount
  | VaultPause =>
      (fun v => with_vault s (ledger s, v)) <$>
        CollateralVault.pause (collateralVault s) sender
  | VaultUnpause =>
      (fun v => with_vault s (ledger s, v)) <$>
        CollateralVault.unpause (collateralVault s) sender
  | VaultGrantRole account =>
      (fun v => with_vault s (ledger s, v)) <$>
        CollateralVault.grantSyntheticStockRole (collateralVault s)
          sender account
  | AddAAWallet aaWallet =>
      with_stock s <$> addAAWallet (stock s) sender aaWallet
  | UpdateFees newMintFee newRedeemFee =>
      with_stock s <$> updateFees (stock s) sender newMintFee newRedeemFee
  | PushPrice newPrice =>
      with_oracle s <$>
        OracleAdapter.pushPrice (oracle s) sender now newPrice
  | UsdcApprove spender amount =>
      Ok (with_ledger s (ERC20.approve (ledger s) usdcToken sender
                                       spender amount))
  | UsdcTransfer to amount =>
      with_ledger s <$> ERC20.transfer (ledger s) usdcToken sender to amount
  end.

(** A transaction: a reverted call leaves the system as it was. *)
Definition transact (s : system) (tx : address * Z * call) : system :=
  let '(sender, now, c) := tx in commit s (exec s sender now c).

(** The state after a sequence of transactions. *)
Definition run (s : system) (txs : list (address * Z * call)) : system :=
  fold_left transact txs s.

Definition isVaultSolvent (s : system) : bool :=
  CollateralVault.isVaultSolvent usdcToken vaultAddr
    (ledger s) (collateralVault s).

(** Tracked total against the collateral actually in custody. *)
Definition covered (l : ERC20.ledger) (v : CollateralVault.state) : Prop :=
  CollateralVault._totalCollateral v
  <= ERC20.balanceOf l usdcToken vaultAddr.

(** A transaction sent from outside the vault with well-typed
    arguments.  The vault has no code that calls its own entry
    points or moves its tokens except in the functions above. *)
Definition external (tx : address * Z * call) : Prop :=
  tx.1.1 <> vaultAddr /\ args_in_range tx.2.
End Engine.

End SyntheticStock.

(** ** A concrete deployment used to run the models *)

Module Deployment.

Definition USDC : address := 1001.
Definition AAPL : address := 1002.
Definition VAULT : address := 1003.
Definition STOCK : address := 1004.
Definition ADMIN : address := 1.
Definition WALLET : address := 2.     (* the account-abstraction wallet *)
Definition OPERATOR : address := 3.
Definition ALICE : address := 10.

(** Price 150.00 pushed at time 1000. *)
Definition oracle0 : OracleAdapter.state :=
  {| OracleAdapter._latestPrice := 15000000000;
     OracleAdapter._lastUpdated := 1000;
     OracleAdapter._updateCount := 1;
     OracleAdapter.operators := {[ OPERATOR ]};
     OracleAdapter.admins := {[ ADMIN ]} |}.

(** The oracle as initialised at time 0, with its first operator. *)
Definition oracleFresh : OracleAdapter.state :=
  {| OracleAdapter._latestPrice := 15000000000;
     OracleAdapter._lastUpdated := 0;
     OracleAdapter._updateCount := 0;
     OracleAdapter.operators := {[ OPERATOR ]};
     OracleAdapter.admins := {[ ADMIN ]} |}.

(** The same oracle after one accepted update at time 60. *)
Definition oracleUpdated : OracleAdapter.state :=
  {| OracleAdapter._latestPrice := 15000000000;
     OracleAdapter._lastUpdated := 60;
     OracleAdapter._updateCount := 1;
     OracleAdapter.operators := {[ OPERATOR ]};
     OracleAdapter.admins := {[ ADMIN ]} |}.

(** Alice has deposited 300.000000 USDC. *)
Definition vault0 : CollateralVault.state :=
  {| CollateralVault._userCollateral := {[ ALICE := 300000000 ]};
     CollateralVault._totalCollateral := 300000000;
     CollateralVault.paused := false;
     CollateralVault.syntheticStockRole := {[ STOCK ]};
     CollateralVault.pauserRole := {[ ADMIN ]};
     CollateralVault.adminRole := {[ ADMIN ]} |}.

Definition ledger0 : ERC20.ledger :=
  {| ERC20.balances := {[ (USDC, VAULT) := 300000000 ]};
     ERC20.allowances := ∅;
     ERC20.supplies := {[ USDC := 1000000000000 ]} |}.

Definition token0 : AAPLToken.state :=
  {| AAPLToken.minters := {[ STOCK ]};
     AAPLToken.burners := {[ STOCK ]};
     AAPLToken.paused := false |}.

(** The SyntheticStock contract once the admin has registered the
    wallet and set both fees to 25 basis points. *)
Definition stock0 : SyntheticStock.state :=
  {| SyntheticStock.mintFee := 25;
     SyntheticStock.redeemFee := 25;
     SyntheticStock.userAaplBalance := ∅;
     SyntheticStock.aaRole := {[ WALLET ]};
     SyntheticStock.adminRole := {[ ADMIN ]};
     SyntheticStock.paused := false |}.

Definition system0 : SyntheticStock.system :=
  {| SyntheticStock.ledger := ledger0;
     SyntheticStock.aaplToken := token0;
     SyntheticStock.collateralVault := vault0;
     SyntheticStock.oracle := oracle0;
     SyntheticStock.stock := stock0 |}.

Definition mint0 := SyntheticStock.mint USDC AAPL VAULT STOCK.
Definition redeem0 := SyntheticStock.redeem USDC AAPL VAULT STOCK.

(** One whole share of the synthetic asset, and what is left of it
    after a 25 basis point fee. *)
Definition ONE_SHARE : Z := 10 ^ 18.
Definition NET_MINTED : Z := 997500000000000000.

(** Alice mints one share, the admin pauses the vault, Alice pulls her
    remaining collateral out, the vault is reopened and she redeems. *)
Definition demo_txs : list (address * Z * SyntheticStock.call) :=
  [ (WALLET, 1100, SyntheticStock.Mint ALICE (10 ^ 18));
    (ADMIN, 1200, SyntheticStock.VaultPause);
    (ALICE, 1300, SyntheticStock.EmergencyWithdraw);
    (ADMIN, 1400, SyntheticStock.VaultUnpause);
    (WALLET, 1500, SyntheticStock.Redeem ALICE (5 * 10 ^ 17)) ].

End Deployment.

(** ** SmartAccount (unnamed/part_009, second contract) *)

Module SmartAccount.

Definition GUARDIAN_THRESHOLD : Z := 2.
Definition SESSION_KEY_DURATION : Z := 7 * 86400.
Definition RECOVERY_PERIOD : Z := 3 * 86400.

(** [struct Recovery]; [confirmed] is the set of addresses the mapping
    sends to [true]. *)
Record Recovery : Type := mkRecovery {
  newOwner : address;
  confirmations : Z;
  confirmed : gset Z;
  deadline : Z
}.

(** [delete activeRecovery]: Solidity resets every member of the struct
    except mappings, whose entries stay in storage. *)
Definition delete_recovery (r : Recovery) : Recovery :=
  {| newOwner := 0;
     confirmations := 0;
     confirmed := confirmed r;
     deadline := 0 |}.

Record state : Type := mkState {
  owner : address;
  guardians : list Z;
  guardianRole : gset Z;        (* GUARDIAN_ROLE *)
  sessionKeyRole : gset Z;      (* SESSION_KEY_ROLE *)
  adminRole : gset Z;           (* DEFAULT_ADMIN_ROLE *)
  sessionKeyExpiry : gmap Z Z;
  activeRecovery : Recovery;
  paused : bool
}.

Definition set_recovery (st : state) (r : Recovery) : state :=
  {| owner := owner st;
     guardians := guardians st;
     guardianRole := guardianRole st;
     sessionKeyRole := sessionKeyRole st;
     adminRole := adminRole st;
     sessionKeyExpiry := sessionKeyExpiry st;
     activeRecovery := r;
     paused := paused st |}.

Definition set_guardianRole (st : state) (holders : gset Z) : state :=
  {| owner := owner st;
     guardians := guardians st;
     guardianRole := holders;
     sessionKeyRole := sessionKeyRole st;
     adminRole := adminRole st;
     sessionKeyExpiry := sessionKeyExpiry st;
     activeRecovery := activeRecovery st;
     paused := paused st |}.

Definition set_session (st : state) (holders : gset Z) (expiry : gmap Z Z)
  : state :=
  {| owner := owner st;
     guardians := guardians st;
     guardianRole := guardianRole st;
     sessionKeyRole := holders;
     adminRole := adminRole st;
     sessionKeyExpiry := expiry;
     activeRecovery := activeRecovery st;
     paused := paused st |}.

Definition set_paused (st : state) (p : bool) : state :=
  {| owner := owner st;
     guardians := guardians st;
     guardianRole := guardianRole st;
     sessionKeyRole := sessionKeyRole st;
     adminRole := adminRole st;
     sessionKeyExpiry := sessionKeyExpiry st;
     activeRecovery := activeRecovery st;
     paused := p |}.

(** [constructor(_owner, _guardians, ...)] *)
Definition constructor (_owner : address) (_guardians : list Z)
  : result state :=
  require (negb (_owner =? 0)) "SmartAccount: invalid owner";;
  require (Z.of_nat (length _guardians) =? 3)
          "SmartAccount: need exactly 3 guardians";;
  require (forallb (fun g => negb (g =? 0)) _guardians)
          "SmartAccount: invalid guardian";;
  Ok {| owner := _owner;
        guardians := _guardians;
        guardianRole := list_to_set _guardians;
        sessionKeyRole := ∅;
        adminRole := {[ _owner ]};
        sessionKeyExpiry := ∅;
        activeRecovery := {| newOwner := 0; confirmations := 0;
                             confirmed := ∅; deadline := 0 |};
        paused := false |}.

Definition onlyOwnerOrSession (st : state) (sender : address) (now : Z)
  : result unit :=
  require ((sender =? owner st)
           || (bool_decide (sender ∈ sessionKeyRole st)
               && (now <? mget (sessionKeyExpiry st) sender)))
          "SmartAccount: unauthorized".

Definition grantSessionKey (st : state) (sender : address) (now : Z)
           (sessionKey : address) : result state :=
  require (sender =? owner st) "SmartAccount: only owner";;
  require (negb (sessionKey =? 0)) "SmartAccount: invalid session key";;
  expiry ← add256 now SESSION_KEY_DURATION;
  Ok (set_session st ({[ sessionKey ]} ∪ sessionKeyRole st)
                  (<[sessionKey := expiry]> (sessionKeyExpiry st))).

Definition revokeSessionKey (st : state) (sender sessionKey : address)
  : result state :=
  require (sender =? owner st) "SmartAccount: only owner";;
  Ok (set_session st (sessionKeyRole st ∖ {[ sessionKey ]})
                  (<[sessionKey := 0]> (sessionKeyExpiry st))).

Definition initiateRecovery (st : state) (sender : address) (now : Z)
           (newOwner_ : address) : result state :=
  onlyRole "GUARDIAN_ROLE" (guardianRole st) sender;;
  require (negb (newOwner_ =? 0)) "SmartAccount: invalid new owner";;
  require (deadline (activeRecovery st) =? 0)
          "SmartAccount: recovery already active";;
  deadline_ ← add256 now RECOVERY_PERIOD;
  Ok (set_recovery st
        {| newOwner := newOwner_;
           confirmations := 1;
           confirmed := {[ sender ]} ∪ confirmed (activeRecovery st);
           deadline := deadline_ |}).

Definition confirmRecovery (st : state) (sender : address) (now : Z)
  : result state :=
  onlyRole "GUARDIAN_ROLE" (guardianRole st) sender;;
  require (0 <? deadline (activeRecovery st))
          "SmartAccount: no active recovery";;
  require (now <? deadline (activeRecovery st))
          "SmartAccount: recovery expired";;
  require (negb (bool_decide (sender ∈ confirmed (activeRecovery st))))
          "SmartAccount: already confirmed";;
  count ← add256 (confirmations (activeRecovery st)) 1;
  let r := {| newOwner := newOwner (activeRecovery st);
              confirmations := count;
              confirmed := {[ sender ]} ∪ confirmed (activeRecovery st);
              deadline := deadline (activeRecovery st) |} in
  if GUARDIAN_THRESHOLD <=? count then
    let oldOwner := owner st in
    Ok {| owner := newOwner r;
          guardians := guardians st;
          guardianRole := guardianRole st;
          sessionKeyRole := sessionKeyRole st;
          adminRole := {[ newOwner r ]} ∪ (adminRole st ∖ {[ oldOwner ]});
          sessionKeyExpiry := sessionKeyExpiry st;
          activeRecovery := delete_recovery r;
          paused := paused st |}
  else Ok (set_recovery st r).

Definition cancelRecovery (st : state) (sender : address) : result state :=
  require (sender =? owner st) "SmartAccount: only owner";;
  require (0 <? deadline (activeRecovery st))
          "SmartAccount: no active recovery";;
  Ok (set_recovery st (delete_recovery (activeRecovery st))).

Definition pause (st : state) (sender : address) : result state :=
  require ((sender =? owner st) || bool_decide (sender ∈ guardianRole st))
          "SmartAccount: unauthorized";;
  whenNotPaused (paused st);;
  Ok (set_paused st true).

Definition unpause (st : state) (sender : address) : result state :=
  require (sender =? owner st) "SmartAccount: only owner";;
  whenPaused (paused st);;
  Ok (set_paused st false).

(** AccessControl's public [grantRole] / [revokeRole] for GUARDIAN_ROLE. *)
Definition grantGuardianRole (st : state) (sender account : address)
  : result state :=
  onlyRole "DEFAULT_ADMIN_ROLE" (adminRole st) sender;;
  Ok (set_guardianRole st ({[ account ]} ∪ guardianRole st)).

Definition revokeGuardianRole (st : state) (sender account : address)
  : result state :=
  onlyRole "DEFAULT_ADMIN_ROLE" (adminRole st) sender;;
  Ok (set_guardianRole st (guardianRole st ∖ {[ account ]})).

(** [calculateMaxMintAmount(user)], read through the SyntheticStock
    contract's vault and oracle. *)
Definition calculateMaxMintAmount (s : SyntheticStock.system) (now : Z)
           (user : address) : result Z :=
  let userCollateral :=
    CollateralVault.getUserCollateral (SyntheticStock.collateralVault s)
                                      user in
  if userCollateral =? 0 then Ok 0
  else
    '(price, _, _) ← OracleAdapter.getPriceUnsafe (SyntheticStock.oracle s)
                                                  now;
    if price <=? 0 then Ok 0
    else
      let aaplPrice := price in
      scaled ← mul256 userCollateral 100;
      numerator ← mul256 scaled (10 ^ (18 + 8 - 6));
      denominator ← mul256 aaplPrice 150;
      div256 numerator denominator.

(** The calls that can touch ownership, roles or the recovery record. *)
Inductive call : Type :=
| InitiateRecovery (newOwner_ : address)
| ConfirmRecovery
| CancelRecovery
| GrantSessionKey (sessionKey : address)
| RevokeSessionKey (sessionKey : address)
| GrantGuardianRole (account : address)
| RevokeGuardianRole (account : address)
| Pause
| Unpause.

Definition exec (st : state) (sender : address) (now : Z) (c : call)
  : result state :=
  match c with
  | InitiateRecovery newOwner_ => initiateRecovery st sender now newOwner_
  | ConfirmRecovery => confirmRecovery st sender now
  | CancelRecovery => cancelRecovery st sender
  | GrantSessionKey k => grantSessionKey st sender now k
  | RevokeSessionKey k => revokeSessionKey st sender k
  | GrantGuardianRole a => grantGuardianRole st sender a
  | RevokeGuardianRole a => revokeGuardianRole st sender a
  | Pause => pause st sender
  | Unpause => unpause st sender
  end.

Definition transact (st : state) (tx : address * Z * call) : state :=
  let '(sender, now, c) := tx in commit st (exec st sender now c).

Definition run (st : state) (txs : list (address * Z * call)) : state :=
  fold_left transact txs st.

(** States of an account built by the constructor and driven by any
    sequence of calls. *)
Definition reachable (st : state) : Prop :=
  exists _owner _guardians st0 txs,
    constructor _owner _guardians = Ok st0 /\ st = run st0 txs.

(** *** executeBatch

    What lies outside the account is a state [W].  A low-level
    [target.call{value: v}(data)] either succeeds, giving return data
    and a new outside state, or fails, giving the revert data and
    leaving the outside state as it was. *)
Section Batch.
Context {W : Type}.
Variable lowLevelCall :
  address -> Z -> list Byte.byte -> W -> option W * list Byte.byte.

(** The body of the [for] loop, from index [i] on. *)
Fixpoint batchLoop (targets values : list Z)
         (callData : list (list Byte.byte)) (w : W)
  : list bool * list (list Byte.byte) * W :=
  match targets, values, callData with
  | target :: targets', value :: values', data :: callData' =>
      let '(outcome, ret) := lowLevelCall target value data w in
      let '(flag, w1) := match outcome with
                         | Some w' => (true, w')
                         | None => (false, w)
                         end in
      let '(flags, rets, w2) := batchLoop targets' values' callData' w1 in
      (flag :: flags, ret :: rets, w2)
  | _, _, _ => ([], [], w)
  end.

Definition executeBatch (st : state) (sender : address) (now : Z)
           (targets values : list Z) (callData : list (list Byte.byte))
           (w : W)
  : result (list bool * list (list Byte.byte) * W) :=
  onlyOwnerOrSession st sender now;;
  whenNotPaused (paused st);;
  require ((length targets =? length values)%nat
           && (length values =? length callData)%nat)
          "SmartAccount: length mismatch";;
  Ok (batchLoop targets values callData w).
End Batch.

End SmartAccount.

(** ** Paymaster (contracts/Paymaster.sol) *)

Module Paymaster.

Definition RATE_LIMIT_PERIOD : Z := 3600.
Definition MAX_GAS_PER_HOUR : Z := 10 ^ 16.       (* 0.01 ether *)

Record state : Type := mkState {
  usdcToGasRate : Z;
  okbToGasRate : Z;
  userGasUsed : gmap Z Z;
  lastResetTime : gmap Z Z;
  gasReserve : Z;
  minimumGasReserve : Z;
  adminRole : gset Z;
  paused : bool
}.

(** [constructor(...)]: the rates and the minimum reserve start at their
    declared defaults, the reserve at zero. *)
Definition constructor (admin : address) : state :=
  {| usdcToGasRate := 1000;
     okbToGasRate := 500;
     userGasUsed := ∅;
     lastResetTime := ∅;
     gasReserve := 0;
     minimumGasReserve := 10 ^ 17;
     adminRole := {[ admin ]};
     paused := false |}.

Definition set_usage (st : state) (used last : gmap Z Z) : state :=
  {| usdcToGasRate := usdcToGasRate st;
     okbToGasRate := okbToGasRate st;
     userGasUsed := used;
     lastResetTime := last;
     gasReserve := gasReserve st;
     minimumGasReserve := minimumGasReserve st;
     adminRole := adminRole st;
     paused := paused st |}.

Definition set_gasReserve (st : state) (reserve : Z) : state :=
  {| usdcToGasRate := usdcToGasRate st;
     okbToGasRate := okbToGasRate st;
     userGasUsed := userGasUsed st;
     lastResetTime := lastResetTime st;
     gasReserve := reserve;
     minimumGasReserve := minimumGasReserve st;
     adminRole := adminRole st;
     paused := paused st |}.

Definition _isRateLimited (st : state) (now : Z) (user : address)
           (gasCost : Z) : result bool :=
  let currentPeriod := now / RATE_LIMIT_PERIOD in
  let userLastPeriod := mget (lastResetTime st) user / RATE_LIMIT_PERIOD in
  if userLastPeriod <? currentPeriod then Ok false
  else
    total ← add256 (mget (userGasUsed st) user) gasCost;
    Ok (MAX_GAS_PER_HOUR <? total).

Definition _updateGasUsage (st : state) (now : Z) (user : address)
           (gasCost : Z) : result state :=
  let currentPeriod := now / RATE_LIMIT_PERIOD in
  let userLastPeriod := mget (lastResetTime st) user / RATE_LIMIT_PERIOD in
  if userLastPeriod <? currentPeriod then
    Ok (set_usage st (<[user := gasCost]> (userGasUsed st))
                  (<[user := now]> (lastResetTime st)))
  else
    total ← add256 (mget (userGasUsed st) user) gasCost;
    Ok (set_usage st (<[user := total]> (userGasUsed st))
                  (lastResetTime st)).

(** [address(bytes20(userOp[4:24]))]: a calldata slice out of bounds
    reverts without data; the twenty bytes are read big-endian. *)
Definition bytesToZ (bs : list Byte.byte) : Z :=
  fold_left (fun acc b => acc * 256 + Z.of_N (Byte.to_N b)) bs 0.

Definition senderOf (userOp : list Byte.byte) : result address :=
  if (24 <=? length userOp)%nat
  then Ok (bytesToZ (firstn 20 (skipn 4 userOp)))
  else Err (Revert "").

(** The [context] is kept as the triple that [abi.encode] packs; [None]
    is the empty byte string. *)
Definition validatePaymasterUserOp (st : state) (now : Z)
           (userOp : list Byte.byte) (userOpHash : Z) (maxCost : Z)
  : result (option (address * Z * Z) * Z) :=
  sender ← senderOf userOp;
  limited ← _isRateLimited st now sender maxCost;
  if (limited : bool) then Ok (None, 1)
  else
    needed ← add256 maxCost (minimumGasReserve st);
    if gasReserve st <? needed then Ok (None, 1)
    else Ok (Some (sender, maxCost, userOpHash), 0).

Section Tokens.
Variables (usdcToken okbToken self : address).

Definition canPayForGas (st : state) (l : ERC20.ledger) (now : Z)
           (user : address) (gasCost : Z) : result bool :=
  limited ← _isRateLimited st now user gasCost;
  if (limited : bool) then Ok false
  else
    usdcScaled ← mul256 gasCost (usdcToGasRate st);
    usdcAmount ← div256 usdcScaled (10 ^ 18);
    okbScaled ← mul256 gasCost (okbToGasRate st);
    okbAmount ← div256 okbScaled (10 ^ 18);
    Ok ((usdcAmount <=? ERC20.balanceOf l usdcToken user)
        || (okbAmount <=? ERC20.balanceOf l okbToken user)).

Definition _chargeInUSDC (st : state) (l : ERC20.ledger) (user : address)
           (gasAmount : Z) : result (bool * ERC20.ledger) :=
  scaled ← mul256 gasAmount (usdcToGasRate st);
  usdcAmount ← div256 scaled (10 ^ 18);
  if usdcAmount <=? ERC20.balanceOf l usdcToken user then
    l' ← ERC20.transferFrom l usdcToken self user self usdcAmount;
    Ok (true, l')
  else Ok (false, l).

Definition _chargeInOKB (st : state) (l : ERC20.ledger) (user : address)
           (gasAmount : Z) : result ERC20.ledger :=
  scaled ← mul256 gasAmount (okbToGasRate st);
  okbAmount ← div256 scaled (10 ^ 18);
  require (okbAmount <=? ERC20.balanceOf l okbToken user)
          "Paymaster: insufficient balance for gas payment";;
  ERC20.transferFrom l okbToken self user self okbAmount.

(** [postOp] with the context already decoded to its [sender]. *)
Definition postOp (st : state) (l : ERC20.ledger) (now : Z)
           (sender : address) (actualGasCost : Z)
  : result (state * ERC20.ledger) :=
  whenNotPaused (paused st);;
  st1 ← _updateGasUsage st now sender actualGasCost;
  '(charged, l1) ← _chargeInUSDC st1 l sender actualGasCost;
  l2 ← (if (charged : bool) then Ok l1
        else _chargeInOKB st1 l1 sender actualGasCost);
  reserve ← sub256 (gasReserve st1) actualGasCost;
  Ok (set_gasReserve st1 reserve, l2).
End Tokens.

Definition depositGas (st : state) (sender : address) (value : Z)
  : result state :=
  onlyRole "DEFAULT_ADMIN_ROLE" (adminRole st) sender;;
  reserve ← add256 (gasReserve st) value;
  Ok (set_gasReserve st reserve).

End Paymaster.

(** ** DEXRouter (unnamed/part_007, second contract) *)

Module DEXRouter.

Definition MAX_ROUTER_FEE : Z := 100.

Record state : Type := mkState {
  routerFee : Z;                 (* basis points *)
  okxDEXAggregator : address;
  allowedTokens : gset Z;
  aaRole : gset Z;               (* AA_ROLE *)
  paused : bool
}.

(** What a swap can touch: the token ledger and the vault. *)
Record world : Type := mkWorld {
  ledger : ERC20.ledger;
  vault : CollateralVault.state
}.

Section Router.
Variables (usdcToken vaultAddr self : address).

(** [okxDEXAggregator.call(swapData)]: the aggregator is an untrusted
    external contract; a successful call may leave any world behind,
    a failed one leaves none. *)
Variable aggregatorCall : address -> list Byte.byte -> world -> option world.

Definition callAggregator (st : state) (swapData : list Byte.byte)
           (w : world) : result world :=
  match aggregatorCall (okxDEXAggregator st) swapData w with
  | Some w' => Ok w'
  | None => Err (Revert "DEXRouter: swap failed")
  end.

Definition routerFeeOf (st : state) (amountIn : Z) : result Z :=
  product ← mul256 amountIn (routerFee st);
  div256 product 10000.

Definition swap (st : state) (w : world) (sender : address)
           (tokenIn tokenOut : address) (amountIn minAmountOut : Z)
           (swapData : list Byte.byte) (recipient : address)
  : result (Z * world) :=
  onlyRole "AA_ROLE" (aaRole st) sender;;
  whenNotPaused (paused st);;
  require (bool_decide (tokenIn ∈ allowedTokens st))
          "DEXRouter: input token not allowed";;
  require (bool_decide (tokenOut ∈ allowedTokens st))
          "DEXRouter: output token not allowed";;
  require (0 <? amountIn) "DEXRouter: amount must be positive";;
  require (negb (recipient =? 0)) "DEXRouter: invalid recipient";;
  l1 ← ERC20.transferFrom (ledger w) tokenIn self sender self amountIn;
  fee ← routerFeeOf st amountIn;
  netAmountIn ← sub256 amountIn fee;
  let l2 := ERC20.approve l1 tokenIn self (okxDEXAggregator st)
                          netAmountIn in
  let outputBalanceBefore := ERC20.balanceOf l2 tokenOut self in
  w3 ← callAggregator st swapData {| ledger := l2; vault := vault w |};
  let outputBalanceAfter := ERC20.balanceOf (ledger w3) tokenOut self in
  amountOut ← sub256 outputBalanceAfter outputBalanceBefore;
  require (minAmountOut <=? amountOut)
          "DEXRouter: insufficient output amount";;
  l4 ← ERC20.transfer (ledger w3) tokenOut self recipient amountOut;
  Ok (amountOut, {| ledger := l4; vault := vault w3 |}).

Definition swapToUSDCAndDeposit (st : state) (w : world)
           (sender : address) (tokenIn : address)
           (amountIn minUsdcOut : Z) (swapData : list Byte.byte)
           (user : address) : result (Z * world) :=
  onlyRole "AA_ROLE" (aaRole st) sender;;
  whenNotPaused (paused st);;
  require (bool_decide (tokenIn ∈ allowedTokens st))
          "DEXRouter: input token not allowed";;
  require (0 <? amountIn) "DEXRouter: amount must be positive";;
  require (negb (user =? 0)) "DEXRouter: invalid user";;
  require (negb (tokenIn =? usdcToken))
          "DEXRouter: use depositUSDC for USDC";;
  l1 ← ERC20.transferFrom (ledger w) tokenIn self sender self amountIn;
  fee ← routerFeeOf st amountIn;
  netAmountIn ← sub256 amountIn fee;
  let l2 := ERC20.approve l1 tokenIn self (okxDEXAggregator st)
                          netAmountIn in
  let usdcBalanceBefore := ERC20.balanceOf l2 usdcToken self in
  w3 ← callAggregator st swapData {| ledger := l2; vault := vault w |};
  let usdcBalanceAfter := ERC20.balanceOf (ledger w3) usdcToken self in
  usdcReceived ← sub256 usdcBalanceAfter usdcBalanceBefore;
  require (minUsdcOut <=? usdcReceived)
          "DEXRouter: insufficient USDC received";;
  let l4 := ERC20.approve (ledger w3) usdcToken self vaultAddr
                          usdcReceived in
  '(l5, vault5) ← CollateralVault.depositCollateral usdcToken vaultAddr
                     l4 (vault w3) self user usdcReceived;
  Ok (usdcReceived, {| ledger := l5; vault := vault5 |}).

Definition swapUSDCToToken (st : state) (w : world) (sender : address)
           (tokenOut : address) (usdcAmount minTokenOut : Z)
           (swapData : list Byte.byte) (recipient : address)
  : result (Z * world) :=
  onlyRole "AA_ROLE" (aaRole st) sender;;
  whenNotPaused (paused st);;
  require (bool_decide (tokenOut ∈ allowedTokens st))
          "DEXRouter: output token not allowed";;
  require (0 <? usdcAmount) "DEXRouter: amount must be positive";;
  require (negb (recipient =? 0)) "DEXRouter: invalid recipient";;
  if tokenOut =? usdcToken then
    l1 ← ERC20.transferFrom (ledger w) usdcToken self sender recipient
           usdcAmount;
    Ok (usdcAmount, {| ledger := l1; vault := vault w |})
  else
    l1 ← ERC20.transferFrom (ledger w) usdcToken self sender self
           usdcAmount;
    let l2 := ERC20.approve l1 usdcToken self (okxDEXAggregator st)
                            usdcAmount in
    let outputBalanceBefore := ERC20.balanceOf l2 tokenOut self in
    w3 ← callAggregator st swapData {| ledger := l2; vault := vault w |};
    let outputBalanceAfter := ERC20.balanceOf (ledger w3) tokenOut self in
    tokenAmountOut ← sub256 outputBalanceAfter outputBalanceBefore;
    require (minTokenOut <=? tokenAmountOut)
            "DEXRouter: insufficient output amount";;
    l4 ← ERC20.transfer (ledger w3) tokenOut self recipient tokenAmountOut;
    Ok (tokenAmountOut, {| ledger := l4; vault := vault w3 |}).


(** [depositUSDC(user, usdcAmount)] *)
Definition depositUSDC (st : state) (w : world) (sender user : address)
           (usdcAmount : Z) : result world :=
  onlyRole "AA_ROLE" (aaRole st) sender;;
  whenNotPaused (paused st);;
  require (negb (user =? 0)) "DEXRouter: invalid user";;
  require (0 <? usdcAmount) "DEXRouter: amount must be positive";;
  l1 ← ERC20.transferFrom (ledger w) usdcToken self sender self
         usdcAmount;
  fee ← routerFeeOf st usdcAmount;
  netAmount ← sub256 usdcAmount fee;
  let l2 := ERC20.approve l1 usdcToken self vaultAddr netAmount in
  '(l3, vault3) ← CollateralVault.depositCollateral usdcToken vaultAddr
                     l2 (vault w) self user netAmount;
  Ok {| ledger := l3; vault := vault3 |}.

(** The point at which an entry point measures its output: the input
    tokens are pulled in, the aggregator is approved for [approved]
    of them and has returned.  The result is the ledger just before
    the aggregator call and the world it left. *)
Definition afterAggregator (st : state) (w : world) (sender : address)
           (tokenIn : address) (amountIn approved : Z)
           (swapData : list Byte.byte) : result (ERC20.ledger * world) :=
  l1 ← ERC20.transferFrom (ledger w) tokenIn self sender self amountIn;
  let l2 := ERC20.approve l1 tokenIn self (okxDEXAggregator st) approved in
  w3 ← callAggregator st swapData {| ledger := l2; vault := vault w |};
  Ok (l2, w3).
End Router.

(** How a call [r] made in world [w] ends when its output falls short:
    with the slippage message [reason] if the measured balance did not
    fall, with an arithmetic panic if it fell (the subtraction
    underflows); either way the world stays [w]. *)
Definition abortsShort (w : world) (r : result (Z * world))
           (before after : Z) (reason : string) : Prop :=
  (before <= after -> r = Err (Revert reason)) /\
  (after < before -> r = Err (Panic 17)) /\
  commit w (snd <$> r) = w.

End DEXRouter.

(** ** SmartAccount: the two orchestrated flows (contracts/SmartAccount.sol)

    [swapAndMint] and [redeemAndSwap] call the router and the
    SyntheticStock contract with the account as [msg.sender].  The router
    and the SyntheticStock contract are deployed over the same USDC token
    and the same vault, so the world the router acts on is the ledger and
    the vault of the system. *)

Module SmartAccountFlows.

Section Flows.
(** [self] is the account, [stockAddr] the SyntheticStock proxy and
    [routerAddr] the router. *)
Variables (usdcToken aaplAddr vaultAddr stockAddr routerAddr self : address).
Variable aggregatorCall :
  address -> list Byte.byte -> DEXRouter.world -> option DEXRouter.world.

Definition worldOf (s : SyntheticStock.system) (l : ERC20.ledger)
  : DEXRouter.world :=
  {| DEXRouter.ledger := l;
     DEXRouter.vault := SyntheticStock.collateralVault s |}.

Definition withWorld (s : SyntheticStock.system) (w : DEXRouter.world)
  : SyntheticStock.system :=
  {| SyntheticStock.ledger := DEXRouter.ledger w;
     SyntheticStock.aaplToken := SyntheticStock.aaplToken s;
     SyntheticStock.collateralVault := DEXRouter.vault w;
     SyntheticStock.oracle := SyntheticStock.oracle s;
     SyntheticStock.stock := SyntheticStock.stock s |}.

(** Returns [(usdcReceived, aaplMinted)] and the system left behind. *)
Definition swapAndMint (acct : SmartAccount.state)
           (router : DEXRouter.state) (s : SyntheticStock.system)
           (sender : address) (now : Z) (tokenIn : address)
           (amountIn minUsdcOut minAaplOut : Z)
           (swapData : list Byte.byte)
  : result (Z * Z * SyntheticStock.system) :=
  SmartAccount.onlyOwnerOrSession acct sender now;;
  whenNotPaused (SmartAccount.paused acct);;
  let owner := SmartAccount.owner acct in
  l1 ← ERC20.transferFrom (SyntheticStock.ledger s) tokenIn self owner
         self amountIn;
  let l2 := ERC20.approve l1 tokenIn self routerAddr amountIn in
  '(usdcReceived, w) ←
    DEXRouter.swapToUSDCAndDeposit usdcToken vaultAddr routerAddr
      aggregatorCall router (worldOf s l2) self tokenIn amountIn
      minUsdcOut swapData owner;
  let s1 := withWorld s w in
  maxAaplAmount ← SmartAccount.calculateMaxMintAmount s1 now owner;
  let aaplToMint :=
    if minAaplOut <=? maxAaplAmount then minAaplOut else maxAaplAmount in
  require (0 <? aaplToMint)
          "SmartAccount: insufficient collateral for minting";;
  '(_, _, s2) ← SyntheticStock.mint usdcToken aaplAddr vaultAddr stockAddr
                  s1 self now owner aaplToMint;
  Ok (usdcReceived, aaplToMint, s2).

(** Returns [(usdcRedeemed, tokenReceived)] and the system left
    behind. *)
Definition redeemAndSwap (acct : SmartAccount.state)
           (router : DEXRouter.state) (s : SyntheticStock.system)
           (sender : address) (now : Z) (aaplAmount : Z)
           (tokenOut : address) (minTokenOut : Z)
           (swapData : list Byte.byte)
  : result (Z * Z * SyntheticStock.system) :=
  SmartAccount.onlyOwnerOrSession acct sender now;;
  whenNotPaused (SmartAccount.paused acct);;
  let owner := SmartAccount.owner acct in
  '(usdcRedeemed, _, s1) ←
    SyntheticStock.redeem usdcToken aaplAddr vaultAddr stockAddr
      s self now owner aaplAmount;
  if negb (tokenOut =? usdcToken) then
    let l2 := ERC20.approve (SyntheticStock.ledger s1) usdcToken self
                            routerAddr usdcRedeemed in
    '(tokenReceived, w) ←
      DEXRouter.swapUSDCToToken usdcToken routerAddr aggregatorCall
        router (worldOf s1 l2) self tokenOut usdcRedeemed minTokenOut
        swapData owner;
    Ok (usdcRedeemed, tokenReceived, withWorld s1 w)
  else
    l2 ← ERC20.transfer (SyntheticStock.ledger s1) usdcToken self owner
           usdcRedeemed;
    Ok (usdcRedeemed, usdcRedeemed,
        SyntheticStock.with_ledger s1 l2).
End Flows.

End SmartAccountFlows.

Module RouterScenario.

Definition USDC : address := 1001.
Definition WETH : address := 1005.
Definition VAULT : address := 1003.
Definition ROUTER : address := 1008.
Definition AGGREGATOR : address := 1009.
Definition WALLET : address := 2.
Definition ALICE : address := 10.

Definition router0 : DEXRouter.state :=
  {| DEXRouter.routerFee := 10;
     DEXRouter.okxDEXAggregator := AGGREGATOR;
     DEXRouter.allowedTokens := {[ USDC; WETH ]};
     DEXRouter.aaRole := {[ WALLET ]};
     DEXRouter.paused := false |}.

(** The wallet holds WETH and USDC and has approved the router. *)
Definition world0 : DEXRouter.world :=
  {| DEXRouter.ledger :=
       {| ERC20.balances := {[ (WETH, WALLET) := 1000000;
                               (USDC, WALLET) := 500 ]};
          ERC20.allowances := {[ (WETH, WALLET, ROUTER) := 1000000;
                                 (USDC, WALLET, ROUTER) := 500 ]};
          ERC20.supplies := ∅ |};
     DEXRouter.vault :=
       {| CollateralVault._userCollateral := ∅;
          CollateralVault._totalCollateral := 0;
          CollateralVault.paused := false;
          CollateralVault.syntheticStockRole := {[ ROUTER ]};
          CollateralVault.pauserRole := ∅;
          CollateralVault.adminRole := ∅ |} |}.

(** An aggregator that answers every call by crediting the router with
    [amount] of [token]. *)
Definition paying (token : address) (amount : Z) (aggregator : address)
           (swapData : list Byte.byte) (w : DEXRouter.world)
  : option DEXRouter.world :=
  Some {| DEXRouter.ledger :=
            ERC20.set_balance (DEXRouter.ledger w) token ROUTER
              (ERC20.balanceOf (DEXRouter.ledger w) token ROUTER + amount);
          DEXRouter.vault := DEXRouter.vault w |}.

(** An aggregator that answers every call by spending [amount] of the
    router's [token] and delivering nothing. *)
Definition taking (token : address) (amount : Z) (aggregator : address)
           (swapData : list Byte.byte) (w : DEXRouter.world)
  : option DEXRouter.world :=
  Some {| DEXRouter.ledger :=
            ERC20.set_balance (DEXRouter.ledger w) token ROUTER
              (ERC20.balanceOf (DEXRouter.ledger w) token ROUTER - amount);
          DEXRouter.vault := DEXRouter.vault w |}.

End RouterScenario.

(** ** Concrete accounts and histories used to run the models *)

Module Scenarios.
Import SmartAccount.

(** An account of owner 100 with guardians 11, 12 and 13. *)
Definition account0 : state :=
  {| owner := 100;
     guardians := [11; 12; 13];
     guardianRole := list_to_set [11; 12; 13];
     sessionKeyRole := ∅;
     adminRole := {[ 100 ]};
     sessionKeyExpiry := ∅;
     activeRecovery := {| newOwner := 0; confirmations := 0;
                          confirmed := ∅; deadline := 0 |};
     paused := false |}.

(** Guardian 11 opens a proposal, the owner cancels it, guardian 12
    opens a second one. *)
Definition stale_history : list (address * Z * call) :=
  [ (11, 0, InitiateRecovery 200);
    (100, 5, CancelRecovery);
    (12, 10, InitiateRecovery 300) ].

(** A toy outside world: a counter that a call to target 1 increases by
    the value sent, while calls to any other target revert. *)
Definition counterCall (target : address) (value : Z)
           (data : list Byte.byte) (w : Z) : option Z * list Byte.byte :=
  if target =? 1 then (Some (w + value), data) else (None, []).

End Scenarios.

Module PaymasterScenario.

Definition USDC : address := 1001.
Definition OKB : address := 1006.
Definition PAYMASTER : address := 1007.
Definition ADMIN : address := 1.
Definition ALICE : address := 10.

(** A user operation whose bytes 4..23 spell Alice's address. *)
Definition aliceOp : list Byte.byte :=
  repeat Byte.x00 23 ++ [Byte.x0a].

(** Alice holds one USDC and lets the paymaster pull it. *)
Definition ledger0 : ERC20.ledger :=
  {| ERC20.balances := {[ (USDC, ALICE) := 1000000 ]};
     ERC20.allowances := {[ (USDC, ALICE, PAYMASTER) := 1000000 ]};
     ERC20.supplies := ∅ |}.

(** The admin funds 0.06 ether of reserve; at time 3600 Alice is charged
    for a whole hour's allowance. *)
Definition funded : Paymaster.state :=
  commit (Paymaster.constructor ADMIN)
         (Paymaster.depositGas (Paymaster.constructor ADMIN) ADMIN
                               (6 * 10 ^ 16)).

Definition exhausted : Paymaster.state * ERC20.ledger :=
  commit (funded, ledger0)
         (Paymaster.postOp USDC OKB PAYMASTER funded ledger0 3600 ALICE
                           Paymaster.MAX_GAS_PER_HOUR).

End PaymasterScenario.

(** A deployment for the orchestrated flows: Alice owns the account
    [WALLET], which holds 500 USDC of its own; she holds WETH and lets
    the account pull it. *)
Module FlowScenario.
Import Deployment.

Definition WETH : address := RouterScenario.WETH.
Definition ROUTER : address := RouterScenario.ROUTER.

Definition account : SmartAccount.state :=
  {| SmartAccount.owner := ALICE;
     SmartAccount.guardians := [11; 12; 13];
     SmartAccount.guardianRole := list_to_set [11; 12; 13];
     SmartAccount.sessionKeyRole := ∅;
     SmartAccount.adminRole := {[ ALICE ]};
     SmartAccount.sessionKeyExpiry := ∅;
     SmartAccount.activeRecovery :=
       {| SmartAccount.newOwner := 0; SmartAccount.confirmations := 0;
          SmartAccount.confirmed := ∅; SmartAccount.deadline := 0 |};
     SmartAccount.paused := false |}.

Definition system1 : SyntheticStock.system :=
  {| SyntheticStock.ledger :=
       {| ERC20.balances := {[ (WETH, ALICE) := 1000000;
                               (USDC, WALLET) := 500000000 ]};
          ERC20.allowances := {[ (WETH, ALICE, WALLET) := 1000000 ]};
          ERC20.supplies := ∅ |};
     SyntheticStock.aaplToken := token0;
     SyntheticStock.collateralVault :=
       {| CollateralVault._userCollateral := ∅;
          CollateralVault._totalCollateral := 0;
          CollateralVault.paused := false;
          CollateralVault.syntheticStockRole := {[ STOCK; ROUTER ]};
          CollateralVault.pauserRole := {[ ADMIN ]};
          CollateralVault.adminRole := {[ ADMIN ]} |};
     SyntheticStock.oracle := oracle0;
     SyntheticStock.stock := stock0 |}.

Definition swapAndMint1 :=
  SmartAccountFlows.swapAndMint USDC AAPL VAULT STOCK ROUTER WALLET
    (RouterScenario.paying USDC 300000000) account RouterScenario.router0.

Definition redeemAndSwap1 :=
  SmartAccountFlows.redeemAndSwap USDC AAPL VAULT STOCK ROUTER WALLET
    (RouterScenario.paying USDC 0) account RouterScenario.router0.

(** Alice swaps 1000 units of WETH for 300 USDC of collateral and asks
    for two shares. *)
Definition system2 : SyntheticStock.system :=
  commit system1
         (snd <$> swapAndMint1 system1 ALICE 1100 WETH 1000 100
                               (2 * 10 ^ 18) []).

End FlowScenario.
(** * Verification *)

(** ** Generic facts about reverts and checked arithmetic *)

Lemma add256_ok a b : a + b <= MAX_UINT256 -> add256 a b = Ok (a + b).
Proof. intros H. unfold add256. case_match; [done | lia]. Qed.

Lemma sub256_ok a b : b <= a -> sub256 a b = Ok (a - b).
Proof. intros H. unfold sub256. case_match; [done | lia]. Qed.

Lemma mul256_ok a b : a * b <= MAX_UINT256 -> mul256 a b = Ok (a * b).
Proof. intros H. unfold mul256. case_match; [done | lia]. Qed.

Lemma fits_int256_true x : is_int256 x -> fits_int256 x = true.
Proof.
  unfold is_int256, fits_int256. intros [H1 H2].
  apply andb_true_iff. split; lia.
Qed.

Lemma onlyRole_ok role holders sender :
  sender ∈ holders -> onlyRole role holders sender = Ok tt.
Proof. intros H. unfold onlyRole. by rewrite bool_decide_eq_true_2. Qed.

Lemma require_inv cond reason u : require cond reason = Ok u -> cond = true.
Proof. by destruct cond. Qed.

Lemma add256_inv a b c : add256 a b = Ok c -> c = a + b /\ a + b <= MAX_UINT256.
Proof. unfold add256. case_match; intros; simplify_eq. split; [done | lia]. Qed.

Lemma sub256_inv a b c : sub256 a b = Ok c -> c = a - b /\ b <= a.
Proof. unfold sub256. case_match; intros; simplify_eq. split; [done | lia]. Qed.

Lemma mget_insert_eq (m : gmap Z Z) k v : mget (<[k := v]> m) k = v.
Proof. unfold mget. by rewrite lookup_insert_eq. Qed.

Lemma fmap_ok_inv {A B : Type} (f : A -> B) (c : result A) (b : B) :
  f <$> c = Ok b -> exists a, c = Ok a /\ b = f a.
Proof. destruct c; cbn; intros; simplify_eq; eauto. Qed.

(** Peel the leading step off a monadic computation known to succeed. *)
Ltac bind_inv H :=
  match type of H with
  | (?c ≫= _) = Ok _ =>
      let E := fresh "E" in
      destruct c eqn:E; cbn [mbind result_bind] in H; [| discriminate H]
  end.

Ltac binds_inv H :=
  repeat (bind_inv H; cbv zeta in H; repeat case_match; subst).

(** ** OracleAdapter *)

Module OracleAdapterProofs.
Import OracleAdapter.

Lemma bounds_values :
  MIN_PRICE = 100000000 /\ MAX_PRICE = 1000000000000 /\
  MAX_PRICE_CHANGE = 5000000000 /\ MIN_UPDATE_INTERVAL = 60.
Proof. repeat split. Qed.

(** The truncated bound [prev * 50e8 / 100e8] the code compares with
    rejects exactly the moves whose relative size is above one half. *)
Lemma maxChange_exact prev newPrice :
  0 <= prev ->
  (Z.abs (newPrice - prev) <=? Z.quot (prev * MAX_PRICE_CHANGE) (100 * 10 ^ 8))
  = negb (prev * MAX_PRICE_CHANGE <? Z.abs (newPrice - prev) * (100 * 10 ^ 8)).
Proof.
  intros Hprev. unfold MAX_PRICE_CHANGE.
  rewrite Z.quot_div_nonneg by lia.
  change (100 * 10 ^ 8) with 10000000000.
  change (50 * 10 ^ 8) with 5000000000.
  pose proof (Z.div_mod (prev * 5000000000) 10000000000 ltac:(lia)) as Hdm.
  pose proof (Z.mod_pos_bound (prev * 5000000000) 10000000000 ltac:(lia)) as Hm.
  destruct (Z.leb_spec (Z.abs (newPrice - prev))
                       (prev * 5000000000 / 10000000000));
    destruct (Z.ltb_spec (prev * 5000000000)
                         (Z.abs (newPrice - prev) * 10000000000));
    simpl; try reflexivity; lia.
Qed.

Lemma checkPriceChange_spec st newPrice :
  MIN_PRICE <= _latestPrice st <= MAX_PRICE ->
  MIN_PRICE <= newPrice <= MAX_PRICE ->
  checkPriceChange st newPrice
  = if (0 <? _updateCount st)
       && (_latestPrice st * MAX_PRICE_CHANGE
           <? Z.abs (newPrice - _latestPrice st) * (100 * 10 ^ 8))
    then Err (Revert "OracleAdapter: price change too large")
    else Ok tt.
Proof.
  intros Hprev Hnew. unfold checkPriceChange.
  destruct (0 <? _updateCount st); [| reflexivity].
  pose proof bounds_values as (Hmin & Hmax & Hchg & _).
  rewrite Hmin, Hmax in *.
  assert (Hsub : (if _latestPrice st <? newPrice
                  then isub256 newPrice (_latestPrice st)
                  else isub256 (_latestPrice st) newPrice)
                 = Ok (Z.abs (newPrice - _latestPrice st))).
  { unfold isub256.
    destruct (Z.ltb_spec (_latestPrice st) newPrice).
    - rewrite fits_int256_true by (unfold is_int256, MIN_INT256, MAX_INT256; lia).
      f_equal. lia.
    - rewrite fits_int256_true by (unfold is_int256, MIN_INT256, MAX_INT256; lia).
      f_equal. lia. }
  rewrite Hsub. cbn [mbind result_bind].
  unfold imul256.
  rewrite fits_int256_true
    by (unfold is_int256, MIN_INT256, MAX_INT256; rewrite Hchg; lia).
  cbn [mbind result_bind]. unfold idiv256.
  change (100 * 10 ^ 8 =? 0) with false. cbv iota.
  rewrite fits_int256_true.
  2:{ rewrite Z.quot_div_nonneg by (rewrite ?Hchg; lia).
      rewrite Hchg. change (100 * 10 ^ 8) with 10000000000.
      pose proof (Z.div_le_upper_bound (_latestPrice st * 5000000000)
                    10000000000 (_latestPrice st) ltac:(lia) ltac:(lia)).
      pose proof (Z.div_pos (_latestPrice st * 5000000000) 10000000000
                    ltac:(lia) ltac:(lia)).
      unfold is_int256, MIN_INT256, MAX_INT256. lia. }
  cbn [mbind result_bind].
  rewrite maxChange_exact by lia.
  unfold require. simpl andb.
  destruct (_latestPrice st * MAX_PRICE_CHANGE <? _); reflexivity.
Qed.

(** Outcome of [pushPrice] for an operator, as a single case analysis. *)
Lemma pushPrice_operator st sender now newPrice :
  inv now st ->
  now + MIN_UPDATE_INTERVAL <= MAX_UINT256 ->
  sender ∈ operators st ->
  (refused st now newPrice /\
   exists e, pushPrice st sender now newPrice = Err e) \/
  (~ refused st now newPrice /\
   pushPrice st sender now newPrice
   = Ok {| _latestPrice := newPrice;
           _lastUpdated := now;
           _updateCount := _updateCount st + 1;
           operators := operators st;
           admins := admins st |}).
Proof.
  intros (Hprice & Hupd & Hcnt & Hpace) Hclock Hop.
  pose proof bounds_values as (Hmin & Hmax & Hchg & Hint).
  unfold pushPrice. rewrite onlyRole_ok by done. cbn [mbind result_bind].
  destruct (Z.ltb_spec 0 newPrice) as [Hpos | Hpos]; cbn [require mbind result_bind].
  2:{ left. split; [left; lia | eauto]. }
  destruct (Z.leb_spec MIN_PRICE newPrice) as [Hlo | Hlo]; cbn [require mbind result_bind].
  2:{ left. split; [right; left; lia | eauto]. }
  destruct (Z.leb_spec newPrice MAX_PRICE) as [Hhi | Hhi]; cbn [require mbind result_bind].
  2:{ left. split; [do 2 right; left; lia | eauto]. }
  rewrite (add256_ok (_lastUpdated st)) by lia. cbn [mbind result_bind].
  destruct (Z.leb_spec (_lastUpdated st + MIN_UPDATE_INTERVAL) now) as [Hint' | Hint'];
    cbn [require mbind result_bind].
  2:{ left. split; [do 3 right; left; lia | eauto]. }
  rewrite checkPriceChange_spec by lia.
  destruct (Z.ltb_spec 0 (_updateCount st)) as [Hc | Hc];
    destruct (Z.ltb_spec (_latestPrice st * MAX_PRICE_CHANGE)
                (Z.abs (newPrice - _latestPrice st) * (100 * 10 ^ 8))) as [Hx | Hx];
    cbn [andb mbind result_bind].
  - left. split; [do 4 right; split; [lia | exact Hx] | eauto].
  - right. rewrite add256_ok by (unfold MAX_UINT256 in *; lia).
    split; [| reflexivity].
    unfold refused, change_exceeds. lia.
  - right. rewrite add256_ok by (unfold MAX_UINT256 in *; lia).
    split; [| reflexivity].
    unfold refused, change_exceeds. lia.
  - right. rewrite add256_ok by (unfold MAX_UINT256 in *; lia).
    split; [| reflexivity].
    unfold refused, change_exceeds. lia.
Qed.

Lemma pushPrice_inv st sender now newPrice st' :
  pushPrice st sender now newPrice = Ok st' ->
  inv now st -> inv now st'.
Proof.
  unfold pushPrice, inv. intros H (Hprice & Hupd & Hcnt & Hpace).
  binds_inv H. injection H as <-. cbn.
  repeat match goal with
         | E : require _ _ = Ok _ |- _ => apply require_inv in E
         | E : add256 _ _ = Ok _ |- _ => apply add256_inv in E as [-> _]
         end.
  pose proof bounds_values as (Hmin & Hmax & _ & Hint).
  rewrite Hint in *. repeat split; lia.
Qed.

(** Every state the oracle can reach satisfies [inv]. *)
Lemma reachable_inv now st : reachable now st -> inv now st.
Proof.
  induction 1 as [admin now st Hnow Hinit
                 | now now' st _ IH Hle
                 | now st sender operator st' _ IH Hadd
                 | now st sender operator st' _ IH Hrem
                 | now st sender newPrice st' _ IH Hpush].
  - unfold initialize in Hinit. binds_inv Hinit. injection Hinit as <-.
    unfold inv. cbn.
    pose proof bounds_values as (-> & -> & _ & ->). lia.
  - unfold inv in *. lia.
  - unfold addOperator in Hadd. binds_inv Hadd. injection Hadd as <-.
    exact IH.
  - unfold removeOperator in Hrem. binds_inv Hrem. injection Hrem as <-.
    exact IH.
  - eapply pushPrice_inv; eauto.
Qed.

(** The two oracle states of the deployment are reachable. *)
Lemma oracleFresh_reachable : reachable 0 Deployment.oracleFresh.
Proof.
  eapply (reach_addOperator 0 _ Deployment.ADMIN Deployment.OPERATOR).
  - eapply (reach_init Deployment.ADMIN 0); [lia | reflexivity].
  - reflexivity.
Qed.

Lemma oracleUpdated_reachable : reachable 60 Deployment.oracleUpdated.
Proof.
  eapply (reach_pushPrice 60 Deployment.oracleFresh Deployment.OPERATOR
                          15000000000).
  - eapply reach_tick; [exact oracleFresh_reachable | lia].
  - reflexivity.
Qed.

(** C6, amended.  For an operator, [pushPrice(newPrice)] reverts
    exactly when the price is not positive, lies outside
    [MIN_PRICE, MAX_PRICE], comes less than [MIN_UPDATE_INTERVAL]
    after the stored update time -- which before the first update is
    the time of [initialize] -- or, from the second update on, moves
    by more than [MAX_PRICE_CHANGE] relative to the stored price.
    These are the conditions of the specification together with one
    more: a first push less than [MIN_UPDATE_INTERVAL] after
    initialisation.  Otherwise the push stores the new price with the
    current time and increments the update counter. *)
Theorem pushPrice_fails_exactly_when st sender now newPrice :
  inv now st ->
  now + MIN_UPDATE_INTERVAL <= MAX_UINT256 ->
  sender ∈ operators st ->
  ((exists e, pushPrice st sender now newPrice = Err e)
   <-> refused st now newPrice) /\
  (refused st now newPrice
   <-> rejected st now newPrice \/
       (_updateCount st = 0 /\
        now < _lastUpdated st + MIN_UPDATE_INTERVAL)) /\
  (~ refused st now newPrice ->
   pushPrice st sender now newPrice
   = Ok {| _latestPrice := newPrice;
           _lastUpdated := now;
           _updateCount := _updateCount st + 1;
           operators := operators st;
           admins := admins st |}).
Proof.
  intros Hinv Hclock Hop.
  assert (Hwords : refused st now newPrice
                   <-> rejected st now newPrice \/
                       (_updateCount st = 0 /\
                        now < _lastUpdated st + MIN_UPDATE_INTERVAL)).
  { destruct Hinv as (_ & _ & Hcnt & _). unfold refused, rejected.
    generalize (change_exceeds (_latestPrice st) newPrice). intros P.
    destruct (Z.eq_dec (_updateCount st) 0); intuition lia. }
  destruct (pushPrice_operator st sender now newPrice Hinv Hclock Hop)
    as [[Hrej Herr] | [Hacc Hok]].
  - split; [split; auto |]. split; [exact Hwords |].
    intros Hn; contradiction.
  - split; [| split; [exact Hwords | intros _; exact Hok]].
    split; [| intros Hrej; contradiction].
    intros [e He]. rewrite Hok in He. discriminate He.
Qed.

(** The freshly initialised oracle with one operator, one minute later:
    a first push at exactly [MIN_PRICE] is accepted. *)
Lemma pushPrice_fails_exactly_when_witness :
  pushPrice Deployment.oracleFresh Deployment.OPERATOR 60 MIN_PRICE
  = Ok {| _latestPrice := MIN_PRICE;
          _lastUpdated := 60;
          _updateCount := 1;
          operators := operators Deployment.oracleFresh;
          admins := admins Deployment.oracleFresh |}.
Proof.
  destruct (pushPrice_fails_exactly_when Deployment.oracleFresh
              Deployment.OPERATOR 60 MIN_PRICE) as (_ & _ & Hok).
  - unfold inv. cbn. repeat split; vm_compute; congruence.
  - vm_compute. congruence.
  - cbn. set_solver.
  - apply Hok. unfold refused, change_exceeds. cbn.
    intros [H | [H | [H | [H | [H _]]]]]; vm_compute in H; congruence.
Defined.

(** C6 as stated fails on the first push: 59 seconds after
    [initialize] no update has been accepted yet, the price is the
    initial one and none of the listed conditions holds, and still the
    operator's push reverts as too frequent. *)
Lemma first_push_waits_for_initialize :
  let st := Deployment.oracleFresh in
  reachable 59 st /\
  Deployment.OPERATOR ∈ operators st /\
  _updateCount st = 0 /\
  ~ rejected st 59 (150 * 10 ^ 8) /\
  pushPrice st Deployment.OPERATOR 59 (150 * 10 ^ 8)
  = Err (Revert "OracleAdapter: update too frequent").
Proof.
  split; [| split; [| split; [| split]]].
  - eapply reach_tick; [exact oracleFresh_reachable | lia].
  - cbn. set_solver.
  - reflexivity.
  - unfold rejected, change_exceeds. cbn.
    intros [H | [H | [H | [[H _] | [H _]]]]]; vm_compute in H; congruence.
  - reflexivity.
Qed.

(** The boundary cases of the rate limiting, run on the model: before
    the first update any price inside the bounds is accepted; after it
    the change check applies as well. *)
Example pushPrice_boundaries :
  let st := Deployment.oracleFresh in
  let st1 := Deployment.oracleUpdated in
  is_ok (pushPrice st 3 60 MIN_PRICE) = true /\
  pushPrice st 3 60 (MIN_PRICE - 1)
  = Err (Revert "OracleAdapter: price below minimum") /\
  is_ok (pushPrice st 3 60 MAX_PRICE) = true /\
  pushPrice st 3 60 (MAX_PRICE + 1)
  = Err (Revert "OracleAdapter: price above maximum") /\
  pushPrice st 3 60 0
  = Err (Revert "OracleAdapter: price must be positive") /\
  pushPrice st 3 59 (150 * 10 ^ 8)
  = Err (Revert "OracleAdapter: update too frequent") /\
  pushPrice st1 3 119 (150 * 10 ^ 8)
  = Err (Revert "OracleAdapter: update too frequent") /\
  is_ok (pushPrice st1 3 120 (225 * 10 ^ 8)) = true /\
  pushPrice st1 3 120 (225 * 10 ^ 8 + 1)
  = Err (Revert "OracleAdapter: price change too large") /\
  is_ok (pushPrice st1 3 120 (75 * 10 ^ 8)) = true /\
  pushPrice st1 3 120 (75 * 10 ^ 8 - 1)
  = Err (Revert "OracleAdapter: price change too large") /\
  pushPrice st1 4 120 (150 * 10 ^ 8)
  = Err (AccessControlUnauthorizedAccount 4 "OPERATOR_ROLE").
Proof. repeat split. Qed.

(** *** Reading the price *)

(** X1: a price accepted at time [t] is what [getPrice] returns, with
    its timestamp, up to and including [t + MAX_PRICE_AGE]; from the
    next second on [getPrice] reverts as stale. *)
Theorem getPrice_after_pushPrice st sender t newPrice st' now :
  pushPrice st sender t newPrice = Ok st' ->
  0 < t ->
  t + MAX_PRICE_AGE <= MAX_UINT256 ->
  (now <= t + MAX_PRICE_AGE -> getPrice st' now = Ok (newPrice, t)) /\
  (t + MAX_PRICE_AGE < now ->
   getPrice st' now = Err (Revert "OracleAdapter: price data too old")).
Proof.
  intros Hpush Hpos Hfit.
  assert (Hst : _latestPrice st' = newPrice /\ _lastUpdated st' = t).
  { unfold pushPrice in Hpush. binds_inv Hpush. injection Hpush as <-.
    split; reflexivity. }
  destruct Hst as [Hp Hu]. unfold getPrice. rewrite Hp, Hu.
  replace (0 <? t) with true by (symmetry; apply Z.ltb_lt; done).
  cbn [require mbind result_bind].
  rewrite add256_ok by done. cbn [mbind result_bind].
  split; intros Hnow.
  - replace (now <=? t + MAX_PRICE_AGE) with true
      by (symmetry; apply Z.leb_le; done).
    reflexivity.
  - replace (now <=? t + MAX_PRICE_AGE) with false
      by (symmetry; apply Z.leb_gt; done).
    reflexivity.
Qed.

Lemma getPrice_after_pushPrice_witness :
  getPrice Deployment.oracleUpdated 3660 = Ok (15000000000, 60) /\
  getPrice Deployment.oracleUpdated 3661
  = Err (Revert "OracleAdapter: price data too old").
Proof.
  split.
  - apply (getPrice_after_pushPrice Deployment.oracleFresh
             Deployment.OPERATOR 60 15000000000 Deployment.oracleUpdated
             3660).
    + reflexivity.
    + lia.
    + vm_compute. congruence.
    + vm_compute. congruence.
  - apply (getPrice_after_pushPrice Deployment.oracleFresh
             Deployment.OPERATOR 60 15000000000 Deployment.oracleUpdated
             3661).
    + reflexivity.
    + lia.
    + vm_compute. congruence.
    + vm_compute. reflexivity.
Defined.

(** X2: whatever [getPrice] returns in a reachable state lies inside
    [MIN_PRICE, MAX_PRICE] (so it is positive) and carries a timestamp
    that is not in the future. *)
Theorem getPrice_within_bounds clock st now price updated :
  reachable clock st ->
  getPrice st now = Ok (price, updated) ->
  MIN_PRICE <= price <= MAX_PRICE /\ 0 < price /\ 0 < updated <= clock.
Proof.
  intros Hreach Hget.
  apply reachable_inv in Hreach as (Hprice & Hupd & _).
  unfold getPrice in Hget. binds_inv Hget. injection Hget as <- <-.
  match goal with E : require (0 <? _) _ = Ok _ |- _ =>
    apply require_inv, Z.ltb_lt in E end.
  pose proof bounds_values as (Hmin & _). rewrite Hmin in *.
  repeat split; lia.
Qed.

Lemma getPrice_within_bounds_witness :
  MIN_PRICE <= 15000000000 <= MAX_PRICE /\ 0 < 15000000000 /\ 0 < 60 <= 60.
Proof.
  apply (getPrice_within_bounds 60 Deployment.oracleUpdated 100).
  - exact oracleUpdated_reachable.
  - reflexivity.
Defined.

(** X3: [getPriceUnsafe] never reverts where [getPrice] can be asked:
    it returns the stored price and timestamp, and its staleness flag
    is raised exactly when [getPrice] reverts; [isPriceFresh] is the
    negation of that flag. *)
Theorem getPriceUnsafe_agrees st now :
  0 <= _lastUpdated st ->
  _lastUpdated st + MAX_PRICE_AGE <= MAX_UINT256 ->
  getPriceUnsafe st now
  = Ok (_latestPrice st, _lastUpdated st, negb (is_ok (getPrice st now))) /\
  isPriceFresh st now = Ok (is_ok (getPrice st now)) /\
  (is_ok (getPrice st now) = true ->
   getPrice st now = Ok (_latestPrice st, _lastUpdated st)).
Proof.
  intros Hnn Hfit. unfold getPriceUnsafe, isPriceFresh, getPrice.
  destruct (Z.eqb_spec (_lastUpdated st) 0) as [H0 | H0].
  - rewrite H0. cbn. repeat split. discriminate.
  - replace (0 <? _lastUpdated st) with true
      by (symmetry; apply Z.ltb_lt; lia).
    cbn [require mbind result_bind].
    rewrite add256_ok by done. cbn [mbind result_bind].
    destruct (Z.leb_spec now (_lastUpdated st + MAX_PRICE_AGE)) as [Hle | Hgt];
      cbn [require mbind result_bind is_ok negb].
    + replace (_lastUpdated st + MAX_PRICE_AGE <? now) with false
        by (symmetry; apply Z.ltb_ge; done).
      repeat split.
    + replace (_lastUpdated st + MAX_PRICE_AGE <? now) with true
        by (symmetry; apply Z.ltb_lt; done).
      repeat split. discriminate.
Qed.

Lemma getPriceUnsafe_agrees_witness :
  getPriceUnsafe Deployment.oracleUpdated 3661
  = Ok (15000000000, 60, true) /\
  getPriceUnsafe Deployment.oracleFresh 10 = Ok (15000000000, 0, true) /\
  isPriceFresh Deployment.oracleUpdated 3660 = Ok true.
Proof.
  split; [| split].
  - apply (getPriceUnsafe_agrees Deployment.oracleUpdated 3661).
    + vm_compute. congruence.
    + vm_compute. congruence.
  - apply (getPriceUnsafe_agrees Deployment.oracleFresh 10).
    + vm_compute. congruence.
    + vm_compute. congruence.
  - apply (getPriceUnsafe_agrees Deployment.oracleUpdated 3660).
    + vm_compute. congruence.
    + vm_compute. congruence.
Defined.

End OracleAdapterProofs.

(** ** ERC-20 ledger: reads after writes *)

Module ERC20Proofs.

Lemma balanceOf_set_balance l token holder v token' holder' :
  ERC20.balanceOf (ERC20.set_balance l token holder v) token' holder'
  = if decide ((token, holder) = (token', holder')) then v
    else ERC20.balanceOf l token' holder'.
Proof.
  unfold ERC20.balanceOf, ERC20.set_balance. cbn.
  rewrite lookup_insert. by case_decide.
Qed.

Lemma balanceOf_set_supply l token v token' holder' :
  ERC20.balanceOf (ERC20.set_supply l token v) token' holder'
  = ERC20.balanceOf l token' holder'.
Proof. reflexivity. Qed.

Lemma balanceOf_approve l token owner spender v token' holder' :
  ERC20.balanceOf (ERC20.approve l token owner spender v) token' holder'
  = ERC20.balanceOf l token' holder'.
Proof. reflexivity. Qed.

(** What a successful [transfer] does to any balance. *)
Lemma transfer_balanceOf l token from to value l' token' holder :
  ERC20.transfer l token from to value = Ok l' ->
  value <= ERC20.balanceOf l token from /\
  ERC20.balanceOf l' token' holder
  = ERC20.balanceOf l token' holder
    - (if decide ((token, from) = (token', holder)) then value else 0)
    + (if decide ((token, to) = (token', holder)) then value else 0).
Proof.
  unfold ERC20.transfer. intros H.
  destruct (Z.ltb_spec (ERC20.balanceOf l token from) value); [done |].
  injection H as <-. split; [done |].
  rewrite !balanceOf_set_balance.
  repeat case_decide; simplify_eq; lia.
Qed.

Lemma transfer_ok l token from to value :
  value <= ERC20.balanceOf l token from ->
  exists l', ERC20.transfer l token from to value = Ok l'.
Proof.
  intros H. unfold ERC20.transfer.
  destruct (Z.ltb_spec (ERC20.balanceOf l token from) value); [lia | eauto].
Qed.

Lemma spendAllowance_balanceOf l token owner spender value l' token' holder :
  ERC20.spendAllowance l token owner spender value = Ok l' ->
  ERC20.balanceOf l' token' holder = ERC20.balanceOf l token' holder.
Proof.
  unfold ERC20.spendAllowance. intros H.
  repeat case_match; simplify_eq; reflexivity.
Qed.

Lemma transferFrom_balanceOf l token spender from to value l' token' holder :
  ERC20.transferFrom l token spender from to value = Ok l' ->
  ERC20.balanceOf l' token' holder
  = (ERC20.balanceOf l token' holder
     - (if decide ((token, from) = (token', holder)) then value else 0))
    + (if decide ((token, to) = (token', holder)) then value else 0).
Proof.
  unfold ERC20.transferFrom. intros H.
  destruct (ERC20.spendAllowance l token from spender value) as [l1 |] eqn:Hs;
    [| done].
  cbn [mbind result_bind] in H.
  apply (transfer_balanceOf _ _ _ _ _ _ token' holder) in H as [_ ->].
  by rewrite (spendAllowance_balanceOf _ _ _ _ _ _ _ _ Hs).
Qed.

End ERC20Proofs.

(** ** CollateralVault: bookkeeping *)

Module CollateralVaultProofs.
Import CollateralVault ERC20Proofs.

Lemma sumCollateral_empty : sumCollateral ∅ = 0.
Proof. unfold sumCollateral. apply map_fold_empty. Qed.

Lemma sumCollateral_insert_fresh (m : gmap Z Z) k v :
  m !! k = None -> sumCollateral (<[k := v]> m) = v + sumCollateral m.
Proof.
  intros H. unfold sumCollateral.
  rewrite map_fold_insert_L; [reflexivity | intros; lia | exact H].
Qed.

Lemma sumCollateral_delete (m : gmap Z Z) k :
  sumCollateral m = mget m k + sumCollateral (delete k m).
Proof.
  unfold mget. destruct (m !! k) as [v |] eqn:Hk; cbn.
  - rewrite <- (insert_delete_id m k v Hk) at 1.
    apply sumCollateral_insert_fresh, lookup_delete_eq.
  - by rewrite delete_id.
Qed.

(** Overwriting one balance moves the sum by the difference. *)
Lemma sumCollateral_insert (m : gmap Z Z) k v :
  sumCollateral (<[k := v]> m) = sumCollateral m - mget m k + v.
Proof.
  rewrite <- insert_delete_eq.
  rewrite sumCollateral_insert_fresh by apply lookup_delete_eq.
  rewrite (sumCollateral_delete m k). lia.
Qed.

Lemma sumCollateral_nonneg (m : gmap Z Z) :
  map_Forall (fun _ v => 0 <= v) m -> 0 <= sumCollateral m.
Proof.
  unfold sumCollateral.
  induction m as [| k v m Hk Hfold IH] using map_first_key_ind.
  - intros _. by rewrite map_fold_empty.
  - intros Hall. apply map_Forall_insert in Hall as [Hv Hm]; [| done].
    rewrite map_fold_insert_first_key by done. specialize (IH Hm). lia.
Qed.

Lemma mget_nonneg (m : gmap Z Z) k :
  map_Forall (fun _ v => 0 <= v) m -> 0 <= mget m k.
Proof.
  intros Hall. unfold mget. destruct (m !! k) as [v |] eqn:Hk; cbn; [| lia].
  exact (Hall k v Hk).
Qed.

(** No single balance exceeds the sum. *)
Lemma mget_le_sumCollateral (m : gmap Z Z) k :
  map_Forall (fun _ v => 0 <= v) m -> mget m k <= sumCollateral m.
Proof.
  intros Hall. rewrite (sumCollateral_delete m k).
  assert (0 <= sumCollateral (delete k m)); [| lia].
  apply sumCollateral_nonneg.
  intros j v Hj. apply lookup_delete_Some in Hj as [_ Hj].
  exact (Hall j v Hj).
Qed.

Lemma accounted_set_collateral st k v :
  accounted st -> 0 <= v ->
  accounted (set_collateral st (<[k := v]> (_userCollateral st))
               (_totalCollateral st - mget (_userCollateral st) k + v)).
Proof.
  intros [Htotal Hall] Hv. split; cbn.
  - rewrite sumCollateral_insert, Htotal. reflexivity.
  - by apply map_Forall_insert_2.
Qed.

Lemma constructor_accounted admin : accounted (constructor admin).
Proof.
  split; cbn; [by rewrite sumCollateral_empty | apply map_Forall_empty].
Qed.

Section Vault.
Variables (usdcToken self : address).

Lemma depositCollateral_accounted l v sender user amount l' v' :
  depositCollateral usdcToken self l v sender user amount = Ok (l', v') ->
  accounted v -> accounted v'.
Proof.
  unfold depositCollateral. intros H Hacc. binds_inv H.
  injection H as <- <-.
  repeat match goal with
         | E : require _ _ = Ok _ |- _ => apply require_inv in E
         | E : add256 _ _ = Ok _ |- _ => apply add256_inv in E as [-> _]
         end.
  pose proof (mget_nonneg (_userCollateral v) user (proj2 Hacc)).
  unfold getUserCollateral.
  replace (_totalCollateral v + amount)
    with (_totalCollateral v - mget (_userCollateral v) user
          + (mget (_userCollateral v) user + amount)) by lia.
  apply accounted_set_collateral; [done | lia].
Qed.

Lemma withdrawCollateral_accounted l v sender user amount recipient l' v' :
  withdrawCollateral usdcToken self l v sender user amount recipient
  = Ok (l', v') ->
  accounted v -> accounted v'.
Proof.
  unfold withdrawCollateral. intros H Hacc. binds_inv H.
  injection H as <- <-.
  repeat match goal with
         | E : require _ _ = Ok _ |- _ => apply require_inv in E
         | E : sub256 _ _ = Ok _ |- _ => apply sub256_inv in E as [-> ?]
         end.
  unfold getUserCollateral in *.
  replace (_totalCollateral v - amount)
    with (_totalCollateral v - mget (_userCollateral v) user
          + (mget (_userCollateral v) user - amount)) by lia.
  apply accounted_set_collateral; [done | lia].
Qed.

Lemma emergencyWithdraw_accounted l v sender l' v' :
  emergencyWithdraw usdcToken self l v sender = Ok (l', v') ->
  accounted v -> accounted v'.
Proof.
  unfold emergencyWithdraw. intros H Hacc. binds_inv H.
  injection H as <- <-.
  repeat match goal with
         | E : sub256 _ _ = Ok _ |- _ => apply sub256_inv in E as [-> ?]
         end.
  unfold getUserCollateral in *.
  replace (_totalCollateral v - mget (_userCollateral v) sender)
    with (_totalCollateral v - mget (_userCollateral v) sender + 0) by lia.
  apply accounted_set_collateral; [done | lia].
Qed.

(** X6: a withdrawal undoes a deposit.  After a successful
    [depositCollateral(user, amount)] the same caller's
    [withdrawCollateral(user, amount, caller)] succeeds and puts
    every recorded balance, the total and every USDC balance back to
    what they were. *)
Theorem withdraw_undoes_deposit l v sender user amount l1 v1 :
  depositCollateral usdcToken self l v sender user amount = Ok (l1, v1) ->
  accounted v ->
  sender <> 0 -> sender <> self ->
  0 <= ERC20.balanceOf l usdcToken self ->
  exists l2 v2,
    withdrawCollateral usdcToken self l1 v1 sender user amount sender
    = Ok (l2, v2) /\
    (forall u, getUserCollateral v2 u = getUserCollateral v u) /\
    getTotalCollateral v2 = getTotalCollateral v /\
    (forall holder,
        ERC20.balanceOf l2 usdcToken holder
        = ERC20.balanceOf l usdcToken holder).
Proof.
  intros Hdep Hacc Hsender Hnotself Hcustody.
  pose proof (mget_nonneg (_userCollateral v) user (proj2 Hacc)) as Hbal.
  assert (Htot : 0 <= _totalCollateral v).
  { destruct Hacc as [-> Hall]. by apply sumCollateral_nonneg. }
  unfold depositCollateral in Hdep.
  destruct (onlyRole _ _ _) eqn:Hrole; [| discriminate Hdep].
  cbn [mbind result_bind] in Hdep.
  destruct (whenNotPaused _) eqn:Hpaused; [| discriminate Hdep].
  cbn [mbind result_bind] in Hdep.
  destruct (require (negb (user =? 0)) _) eqn:Huser; [| discriminate Hdep].
  cbn [mbind result_bind] in Hdep.
  destruct (require (0 <? amount) _) eqn:Hamount; [| discriminate Hdep].
  cbn [mbind result_bind] in Hdep.
  destruct (ERC20.transferFrom _ _ _ _ _ _) as [l1' |] eqn:Hpull;
    [| discriminate Hdep].
  cbn [mbind result_bind] in Hdep.
  destruct (add256 (getUserCollateral v user) amount) as [b |] eqn:Hb;
    [| discriminate Hdep].
  cbn [mbind result_bind] in Hdep.
  destruct (add256 (_totalCollateral v) amount) as [t |] eqn:Ht;
    [| discriminate Hdep].
  cbn [mbind result_bind] in Hdep. injection Hdep as <- <-.
  apply add256_inv in Hb as [-> _]. apply add256_inv in Ht as [-> _].
  pose proof Hamount as Hpos. apply require_inv, Z.ltb_lt in Hpos.
  pose proof (fun h => transferFrom_balanceOf _ _ _ _ _ _ _ usdcToken h Hpull)
    as Hl1.
  unfold withdrawCollateral. cbn [syntheticStockRole paused set_collateral].
  rewrite Hrole. cbn [mbind result_bind].
  rewrite Hpaused. cbn [mbind result_bind].
  rewrite Huser. cbn [mbind result_bind].
  replace (sender =? 0) with false by (symmetry; apply Z.eqb_neq; done).
  cbn [negb require mbind result_bind].
  rewrite Hamount. cbn [mbind result_bind].
  unfold getUserCollateral in *. cbn [_userCollateral _totalCollateral
                                       set_collateral].
  rewrite mget_insert_eq.
  replace (amount <=? mget (_userCollateral v) user + amount) with true
    by (symmetry; apply Z.leb_le; lia).
  cbn [require mbind result_bind].
  rewrite !sub256_ok by lia. cbn [mbind result_bind].
  destruct (transfer_ok l1' usdcToken self sender amount) as [l2 Hl2].
  { rewrite Hl1. rewrite decide_False by congruence.
    rewrite decide_True by done. lia. }
  rewrite Hl2. cbn [mbind result_bind].
  eexists _, _. split; [reflexivity |].
  split; [| split].
  - intros u. cbn. rewrite insert_insert_eq.
    destruct (decide (user = u)) as [-> | Hne].
    + rewrite mget_insert_eq. lia.
    + unfold mget. by rewrite lookup_insert_ne.
  - cbn. unfold getTotalCollateral. lia.
  - intros holder.
    destruct (transfer_balanceOf _ _ _ _ _ _ usdcToken holder Hl2)
      as [_ Heq].
    rewrite Heq, Hl1.
    destruct (decide ((usdcToken, sender) = (usdcToken, holder)));
      destruct (decide ((usdcToken, self) = (usdcToken, holder)));
      simplify_eq; lia.
Qed.

(** X7: [emergencyTokenRecovery] cannot touch the collateral: a call
    naming the USDC token reverts, and a call that succeeds leaves
    every USDC balance, the vault's own included, as it was. *)
Theorem emergencyTokenRecovery_spares_usdc
        emergencyRole l sender token amount recipient :
  sender ∈ emergencyRole ->
  (token = usdcToken ->
   emergencyTokenRecovery usdcToken self emergencyRole l sender token
     amount recipient
   = Err (Revert "CollateralVault: cannot recover USDC collateral")) /\
  (forall l',
      emergencyTokenRecovery usdcToken self emergencyRole l sender token
        amount recipient = Ok l' ->
      token <> usdcToken /\
      forall holder,
        ERC20.balanceOf l' usdcToken holder
        = ERC20.balanceOf l usdcToken holder).
Proof.
  intros Hrole. unfold emergencyTokenRecovery.
  rewrite onlyRole_ok by done. cbn [mbind result_bind]. split.
  - intros ->. by rewrite Z.eqb_refl.
  - intros l' H.
    destruct (Z.eqb_spec token usdcToken) as [-> | Hne];
      [discriminate H |].
    cbn [negb require mbind result_bind] in H. binds_inv H.
    split; [done |]. intros holder.
    destruct (transfer_balanceOf _ _ _ _ _ _ usdcToken holder H)
      as [_ Heq].
    rewrite Heq, !decide_False by congruence. lia.
Qed.
End Vault.

(** The stock contract deposits 50 USDC for Alice and takes it back. *)
Lemma withdraw_undoes_deposit_witness :
  let l := ERC20.approve
             (ERC20.set_balance Deployment.ledger0 Deployment.USDC
                Deployment.STOCK 50000000)
             Deployment.USDC Deployment.STOCK Deployment.VAULT 50000000 in
  exists l1 v1 l2 v2,
    depositCollateral Deployment.USDC Deployment.VAULT l Deployment.vault0
      Deployment.STOCK Deployment.ALICE 50000000 = Ok (l1, v1) /\
    withdrawCollateral Deployment.USDC Deployment.VAULT l1 v1
      Deployment.STOCK Deployment.ALICE 50000000 Deployment.STOCK
    = Ok (l2, v2) /\
    (forall u, getUserCollateral v2 u = getUserCollateral Deployment.vault0 u) /\
    getTotalCollateral v2 = getTotalCollateral Deployment.vault0 /\
    (forall holder,
        ERC20.balanceOf l2 Deployment.USDC holder
        = ERC20.balanceOf l Deployment.USDC holder).
Proof.
  intros l.
  destruct (depositCollateral Deployment.USDC Deployment.VAULT l
              Deployment.vault0 Deployment.STOCK Deployment.ALICE 50000000)
    as [[l1 v1] |] eqn:Hdep; [| vm_compute in Hdep; discriminate Hdep].
  exists l1, v1.
  destruct (withdraw_undoes_deposit Deployment.USDC Deployment.VAULT l
              Deployment.vault0 Deployment.STOCK Deployment.ALICE 50000000
              l1 v1 Hdep) as (l2 & v2 & H).
  - split; cbn.
    + unfold Deployment.ALICE.
      change ({[10 := 300000000]} : gmap Z Z)
        with (<[10 := 300000000]> (∅ : gmap Z Z)).
      rewrite sumCollateral_insert_fresh by apply lookup_empty.
      rewrite sumCollateral_empty. reflexivity.
    + intros k x Hk.
      apply lookup_insert_Some in Hk as [[_ <-] | [_ Hk]]; [lia |].
      by rewrite lookup_empty in Hk.
  - discriminate.
  - discriminate.
  - vm_compute. congruence.
  - exists l2, v2. split; [reflexivity | exact H].
Defined.

Lemma emergencyTokenRecovery_spares_usdc_witness :
  emergencyTokenRecovery Deployment.USDC Deployment.VAULT
    {[ Deployment.ADMIN ]} Deployment.ledger0 Deployment.ADMIN
    Deployment.USDC 1 Deployment.ADMIN
  = Err (Revert "CollateralVault: cannot recover USDC collateral").
Proof.
  apply (emergencyTokenRecovery_spares_usdc Deployment.USDC Deployment.VAULT
           {[ Deployment.ADMIN ]} Deployment.ledger0 Deployment.ADMIN
           Deployment.USDC 1 Deployment.ADMIN).
  - set_solver.
  - reflexivity.
Defined.

End CollateralVaultProofs.

(** ** SyntheticStock: the collateral formula *)

Module SyntheticStockProofs.
Import SyntheticStock ERC20Proofs.
Import Deployment (ONE_SHARE, NET_MINTED, demo_txs).

Lemma denominator_value :
  100 * 10 ^ (AAPL_DECIMALS + PRICE_DECIMALS - USDC_DECIMALS) = SCALE.
Proof. reflexivity. Qed.

Lemma SCALE_value : SCALE = 10000000000000000000000.
Proof. reflexivity. Qed.

Lemma MAX_UINT256_value :
  MAX_UINT256 =
  115792089237316195423570985008687907853269984665640564039457584007913129639935.
Proof. reflexivity. Qed.

(** Without overflow the formula is one floor division. *)
Lemma collateralFor_ok a p :
  0 <= a -> 0 <= p -> a * p * COLLATERAL_RATIO <= MAX_UINT256 ->
  collateralFor a p = Ok (a * p * COLLATERAL_RATIO / SCALE).
Proof.
  intros Ha Hp Hfit. unfold collateralFor.
  assert (a * p <= MAX_UINT256) by (unfold COLLATERAL_RATIO in *; nia).
  rewrite mul256_ok by done. cbn [mbind result_bind].
  rewrite mul256_ok by done. cbn [mbind result_bind].
  rewrite denominator_value. reflexivity.
Qed.

Lemma collateralFor_floor_zero a p :
  0 <= a -> 0 <= p -> a * p * 150 < 100 * 10 ^ 20 ->
  collateralFor a p = Ok 0.
Proof.
  intros Ha Hp Hsmall.
  rewrite collateralFor_ok; try done.
  - f_equal. apply Z.div_small. unfold COLLATERAL_RATIO, SCALE. nia.
  - unfold COLLATERAL_RATIO. rewrite MAX_UINT256_value.
    change (100 * 10 ^ 20) with 10000000000000000000000 in Hsmall. lia.
Qed.

(** *** Scaling of the required collateral *)

(** C3 as stated fails: at price 1.00 the requirement for 1e12 units is
    1, while for twice the amount, or at twice the price, it is 3. *)
Lemma collateral_not_linear :
  collateralFor (10 ^ 12) (10 ^ 8) = Ok 1 /\
  collateralFor (2 * 10 ^ 12) (10 ^ 8) = Ok 3 /\
  collateralFor (10 ^ 12) (2 * 10 ^ 8) = Ok 3 /\
  3 <> 2 * 1.
Proof. repeat split. lia. Qed.

(** C3, amended: short of [uint256] overflow, doubling the amount and
    doubling the price give the same requirement, which is twice the
    original one or twice plus one (the division floors), and exactly
    twice when [a * p * RATIO] is a multiple of the scaling constant. *)
Theorem collateral_doubling a p :
  0 <= a -> 0 <= p ->
  2 * a * p * COLLATERAL_RATIO <= MAX_UINT256 ->
  exists c c2,
    collateralFor a p = Ok c /\
    collateralFor (2 * a) p = Ok c2 /\
    collateralFor a (2 * p) = Ok c2 /\
    2 * c <= c2 <= 2 * c + 1 /\
    ((a * p * COLLATERAL_RATIO) mod SCALE = 0 -> c2 = 2 * c).
Proof.
  intros Ha Hp Hfit.
  assert (Hnn : 0 <= a * p * COLLATERAL_RATIO)
    by (unfold COLLATERAL_RATIO; nia).
  exists (a * p * COLLATERAL_RATIO / SCALE),
         (2 * (a * p * COLLATERAL_RATIO) / SCALE).
  split; [apply collateralFor_ok; lia |].
  split.
  { rewrite collateralFor_ok by lia. do 2 f_equal. lia. }
  split.
  { rewrite collateralFor_ok by lia. do 2 f_equal. lia. }
  set (x := a * p * COLLATERAL_RATIO) in *.
  pose proof SCALE_value as HS.
  pose proof (Z.div_mod x SCALE ltac:(lia)) as Hx.
  pose proof (Z.mod_pos_bound x SCALE ltac:(lia)) as Hxm.
  pose proof (Z.div_mod (2 * x) SCALE ltac:(lia)) as H2x.
  pose proof (Z.mod_pos_bound (2 * x) SCALE ltac:(lia)) as H2xm.
  split; [nia |]. intros Hz. nia.
Qed.

Lemma collateral_doubling_witness :
  exists c c2,
    collateralFor (10 ^ 12) (10 ^ 8) = Ok c /\
    collateralFor (2 * 10 ^ 12) (10 ^ 8) = Ok c2 /\
    collateralFor (10 ^ 12) (2 * 10 ^ 8) = Ok c2 /\
    2 * c <= c2 <= 2 * c + 1 /\
    ((10 ^ 12 * 10 ^ 8 * COLLATERAL_RATIO) mod SCALE = 0 -> c2 = 2 * c).
Proof.
  apply (collateral_doubling (10 ^ 12) (10 ^ 8)).
  - lia.
  - lia.
  - vm_compute. congruence.
Defined.

(** *** The minimum mintable amount *)

Section MintFloor.
Variables (usdcToken aaplAddr vaultAddr self : address).

(** C10: a positive [aaplAmount] with
    [aaplAmount * price * 150 < 100 * 10^20] can never be minted,
    whatever the vault holds for the user: once the call has passed
    the role, pause, user and oracle checks it reverts with
    "insufficient mint amount", and no such call succeeds at all. *)
Theorem mint_below_floor s sender now user aaplAmount price updated :
  0 < aaplAmount ->
  OracleAdapter.getPrice (oracle s) now = Ok (price, updated) ->
  aaplAmount * price * 150 < 100 * 10 ^ 20 ->
  is_ok (mint usdcToken aaplAddr vaultAddr self s sender now user
              aaplAmount) = false /\
  (sender ∈ aaRole (stock s) ->
   paused (stock s) = false ->
   user <> 0 ->
   0 < price ->
   mint usdcToken aaplAddr vaultAddr self s sender now user aaplAmount
   = Err (Revert "SyntheticStock: insufficient mint amount")).
Proof.
  intros Hpos Hprice Hsmall.
  split.
  - unfold mint.
    destruct (onlyRole _ _ _); [| reflexivity]. cbn [mbind result_bind].
    destruct (whenNotPaused _); [| reflexivity]. cbn [mbind result_bind].
    destruct (require (negb _) _); [| reflexivity]. cbn [mbind result_bind].
    destruct (require (0 <? aaplAmount) _); [| reflexivity].
    cbn [mbind result_bind].
    rewrite Hprice. cbn [mbind result_bind].
    destruct (Z.ltb_spec 0 price) as [Hp | Hp]; [| reflexivity].
    cbn [require mbind result_bind].
    rewrite collateralFor_floor_zero by lia. reflexivity.
  - intros Hrole Hpaused Huser Hp. unfold mint.
    rewrite onlyRole_ok by done. cbn [mbind result_bind].
    rewrite Hpaused. cbn [whenNotPaused mbind result_bind].
    replace (user =? 0) with false by (symmetry; apply Z.eqb_neq; done).
    cbn [negb require mbind result_bind].
    replace (0 <? aaplAmount) with true by (symmetry; apply Z.ltb_lt; done).
    cbn [require mbind result_bind].
    rewrite Hprice. cbn [mbind result_bind].
    replace (0 <? price) with true by (symmetry; apply Z.ltb_lt; done).
    cbn [require mbind result_bind].
    rewrite collateralFor_floor_zero by lia. reflexivity.
Qed.
End MintFloor.

(** Alice holds 300 USDC of collateral, the price is 150.00, and one
    base unit of the synthetic asset is still not mintable. *)
Lemma mint_below_floor_witness :
  Deployment.mint0 Deployment.system0 Deployment.WALLET 1100
    Deployment.ALICE 1
  = Err (Revert "SyntheticStock: insufficient mint amount").
Proof.
  apply (mint_below_floor Deployment.USDC Deployment.AAPL Deployment.VAULT
           Deployment.STOCK Deployment.system0 Deployment.WALLET 1100
           Deployment.ALICE 1 15000000000 1000).
  - lia.
  - reflexivity.
  - vm_compute. reflexivity.
  - cbn. set_solver.
  - reflexivity.
  - discriminate.
  - lia.
Defined.

(** *** The worked mint scenario *)

Section WorkedMint.
Variables (usdcToken aaplAddr vaultAddr self : address).

(** C2, amended: at price 1.5e10 with ratio 150 and a mint fee of 25
    basis points, [mint(user, 1e18)] consumes 225,000,000 units of
    collateral, charges a fee of 2.5e15 synthetic units (not 2.5e14),
    mints 0.9975e18 units to the user and returns 225,000,000. *)
Theorem mint_worked_scenario s sender now user updated :
  sender ∈ aaRole (stock s) ->
  paused (stock s) = false ->
  user <> 0 ->
  self <> 0 ->
  usdcToken <> aaplAddr ->
  OracleAdapter.getPrice (oracle s) now = Ok (15000000000, updated) ->
  mintFee (stock s) = 25 ->
  self ∈ CollateralVault.syntheticStockRole (collateralVault s) ->
  CollateralVault.paused (collateralVault s) = false ->
  225000000 <= CollateralVault.getUserCollateral (collateralVault s) user ->
  225000000 <= CollateralVault.getTotalCollateral (collateralVault s) ->
  225000000 <= ERC20.balanceOf (ledger s) usdcToken vaultAddr ->
  self ∈ AAPLToken.minters (aaplToken s) ->
  AAPLToken.paused (aaplToken s) = false ->
  ERC20.totalSupply (ledger s) aaplAddr + NET_MINTED <= MAX_UINT256 ->
  mget (userAaplBalance (stock s)) user + NET_MINTED <= MAX_UINT256 ->
  exists s',
    mint usdcToken aaplAddr vaultAddr self s sender now user ONE_SHARE
    = Ok (225000000,
          Minted user 225000000 NET_MINTED 15000000000 2500000000000000,
          s') /\
    ERC20.balanceOf (ledger s') aaplAddr user
    = ERC20.balanceOf (ledger s) aaplAddr user + NET_MINTED /\
    mget (userAaplBalance (stock s')) user
    = mget (userAaplBalance (stock s)) user + NET_MINTED /\
    CollateralVault.getUserCollateral (collateralVault s') user
    = CollateralVault.getUserCollateral (collateralVault s) user
      - 225000000.
Proof.
  intros Hrole Hpaused Huser Hself Htok Hprice Hfee Hvrole Hvpaused
         Hcoll Htotal Hcustody Hminter Htpaused Hsupply Hposition.
  unfold mint.
  rewrite onlyRole_ok by done. cbn [mbind result_bind].
  rewrite Hpaused. cbn [whenNotPaused mbind result_bind].
  replace (user =? 0) with false by (symmetry; apply Z.eqb_neq; done).
  cbn [negb require mbind result_bind].
  change (0 <? ONE_SHARE) with true. cbn [require mbind result_bind].
  rewrite Hprice. cbn [mbind result_bind].
  change (0 <? 15000000000) with true. cbn [require mbind result_bind].
  change (collateralFor ONE_SHARE 15000000000) with (Ok (A:=Z) 225000000).
  cbn [mbind result_bind].
  change (0 <? 225000000) with true. cbn [require mbind result_bind].
  replace (225000000 <=? CollateralVault.getUserCollateral
                          (collateralVault s) user) with true
    by (symmetry; apply Z.leb_le; done).
  cbn [require mbind result_bind].
  rewrite Hfee.
  change (feeOf ONE_SHARE 25) with (Ok (A:=Z) 2500000000000000).
  cbn [mbind result_bind].
  change (sub256 ONE_SHARE 2500000000000000) with (Ok (A:=Z) NET_MINTED).
  cbn [mbind result_bind].
  (* the vault releases the collateral to the engine *)
  unfold CollateralVault.withdrawCollateral.
  rewrite onlyRole_ok by done. cbn [mbind result_bind].
  rewrite Hvpaused. cbn [whenNotPaused mbind result_bind].
  replace (user =? 0) with false by (symmetry; apply Z.eqb_neq; done).
  replace (self =? 0) with false by (symmetry; apply Z.eqb_neq; done).
  cbn [negb require mbind result_bind].
  change (0 <? 225000000) with true. cbn [require mbind result_bind].
  replace (225000000 <=? CollateralVault.getUserCollateral
                          (collateralVault s) user) with true
    by (symmetry; apply Z.leb_le; done).
  cbn [require mbind result_bind].
  rewrite (sub256_ok (CollateralVault.getUserCollateral _ _)) by done.
  cbn [mbind result_bind].
  rewrite (sub256_ok (CollateralVault._totalCollateral _)) by done.
  cbn [mbind result_bind].
  destruct (transfer_ok (ledger s) usdcToken vaultAddr self 225000000
                        Hcustody) as [l1 Hl1].
  rewrite Hl1. cbn [mbind result_bind].
  (* the token contract mints the net amount *)
  unfold AAPLToken.mint.
  rewrite onlyRole_ok by done. cbn [mbind result_bind].
  rewrite Htpaused. cbn [whenNotPaused mbind result_bind].
  replace (user =? 0) with false by (symmetry; apply Z.eqb_neq; done).
  cbn [negb require mbind result_bind].
  change (0 <? NET_MINTED) with true. cbn [require mbind result_bind].
  unfold ERC20.mint.
  assert (Hsup1 : ERC20.totalSupply l1 aaplAddr
                  = ERC20.totalSupply (ledger s) aaplAddr).
  { unfold ERC20.transfer in Hl1. case_match; [done |].
    injection Hl1 as <-. reflexivity. }
  rewrite Hsup1, add256_ok by done. cbn [mbind result_bind].
  rewrite add256_ok by done. cbn [mbind result_bind].
  eexists. split; [reflexivity |]. cbn.
  split; [| split].
  - rewrite balanceOf_set_balance, decide_True by done.
    rewrite balanceOf_set_supply.
    apply (transfer_balanceOf _ _ _ _ _ _ aaplAddr user) in Hl1 as [_ ->].
    rewrite !decide_False by congruence. lia.
  - apply mget_insert_eq.
  - apply mget_insert_eq.
Qed.
End WorkedMint.

Lemma mint_worked_scenario_witness :
  exists s',
    Deployment.mint0 Deployment.system0 Deployment.WALLET 1100
      Deployment.ALICE ONE_SHARE
    = Ok (225000000,
          Minted Deployment.ALICE 225000000 NET_MINTED 15000000000
                 2500000000000000,
          s') /\
    ERC20.balanceOf (ledger s') Deployment.AAPL Deployment.ALICE
    = ERC20.balanceOf (ledger Deployment.system0) Deployment.AAPL
        Deployment.ALICE + NET_MINTED /\
    mget (userAaplBalance (stock s')) Deployment.ALICE
    = mget (userAaplBalance (stock Deployment.system0)) Deployment.ALICE
      + NET_MINTED /\
    CollateralVault.getUserCollateral (collateralVault s') Deployment.ALICE
    = CollateralVault.getUserCollateral
        (collateralVault Deployment.system0) Deployment.ALICE
      - 225000000.
Proof.
  apply (mint_worked_scenario Deployment.USDC Deployment.AAPL
           Deployment.VAULT Deployment.STOCK Deployment.system0
           Deployment.WALLET 1100 Deployment.ALICE 1000).
  - cbn. set_solver.
  - reflexivity.
  - discriminate.
  - discriminate.
  - discriminate.
  - reflexivity.
  - reflexivity.
  - cbn. set_solver.
  - reflexivity.
  - vm_compute. congruence.
  - vm_compute. congruence.
  - vm_compute. congruence.
  - cbn. set_solver.
  - reflexivity.
  - vm_compute. congruence.
  - vm_compute. congruence.
Defined.

(** C2 as stated fails on the fee: the event of the worked mint carries
    2.5e15, so no run of it reports 2.5e14. *)
Lemma mint_fee_is_not_25e13 :
  feeOf ONE_SHARE 25 = Ok 2500000000000000 /\
  forall s',
    Deployment.mint0 Deployment.system0 Deployment.WALLET 1100
      Deployment.ALICE ONE_SHARE
    <> Ok (225000000,
           Minted Deployment.ALICE 225000000 NET_MINTED 15000000000
                  250000000000000,
           s').
Proof.
  split; [reflexivity |].
  intros s' H. vm_compute in H. discriminate H.
Qed.

(** *** Solvency of the vault *)

Section Solvency.
Variables (usdcToken aaplAddr vaultAddr self : address).
Hypothesis tokens_distinct : usdcToken <> aaplAddr.
Hypothesis stock_not_vault : self <> vaultAddr.

Local Abbreviation covered := (SyntheticStock.covered usdcToken vaultAddr).
Local Abbreviation external := (SyntheticStock.external vaultAddr).

Lemma isVaultSolvent_covered s :
  isVaultSolvent usdcToken vaultAddr s = true
  <-> covered (ledger s) (collateralVault s).
Proof.
  unfold isVaultSolvent, CollateralVault.isVaultSolvent, SyntheticStock.covered.
  apply Z.leb_le.
Qed.

Lemma depositCollateral_covered l v sender user amount l' v' :
  sender <> vaultAddr ->
  CollateralVault.depositCollateral usdcToken vaultAddr l v sender user amount
  = Ok (l', v') ->
  covered l v -> covered l' v'.
Proof.
  unfold CollateralVault.depositCollateral, SyntheticStock.covered. intros Hs H Hc.
  binds_inv H. simplify_eq. cbn.
  match goal with E : ERC20.transferFrom _ _ _ _ _ _ = _ |- _ =>
    rewrite (transferFrom_balanceOf _ _ _ _ _ _ _ usdcToken vaultAddr E) end.
  match goal with E : add256 (CollateralVault._totalCollateral _) _ = _ |- _ =>
    apply add256_inv in E as [-> _] end.
  rewrite decide_False by congruence.
  rewrite decide_True by done. lia.
Qed.

Lemma withdrawCollateral_covered l v sender user amount recipient l' v' :
  CollateralVault.withdrawCollateral usdcToken vaultAddr l v sender user
    amount recipient = Ok (l', v') ->
  covered l v -> covered l' v'.
Proof.
  unfold CollateralVault.withdrawCollateral, SyntheticStock.covered. intros H Hc.
  binds_inv H. simplify_eq. cbn.
  match goal with E : ERC20.transfer _ _ _ _ _ = _ |- _ =>
    apply (transfer_balanceOf _ _ _ _ _ _ usdcToken vaultAddr) in E
      as [_ ->] end.
  match goal with E : sub256 (CollateralVault._totalCollateral _) _ = _ |- _ =>
    apply sub256_inv in E as [-> _] end.
  match goal with E : require (0 <? amount) _ = _ |- _ =>
    apply require_inv, Z.ltb_lt in E end.
  rewrite decide_True by done. case_decide; lia.
Qed.

Lemma emergencyWithdraw_covered l v sender l' v' :
  CollateralVault.emergencyWithdraw usdcToken vaultAddr l v sender
  = Ok (l', v') ->
  covered l v -> covered l' v'.
Proof.
  unfold CollateralVault.emergencyWithdraw, SyntheticStock.covered. intros H Hc.
  binds_inv H. simplify_eq. cbn.
  match goal with E : ERC20.transfer _ _ _ _ _ = _ |- _ =>
    apply (transfer_balanceOf _ _ _ _ _ _ usdcToken vaultAddr) in E
      as [_ ->] end.
  match goal with E : sub256 (CollateralVault._totalCollateral _) _ = _ |- _ =>
    apply sub256_inv in E as [-> _] end.
  match goal with E : require (0 <? _) _ = _ |- _ =>
    apply require_inv, Z.ltb_lt in E end.
  rewrite decide_True by done. case_decide; lia.
Qed.

Lemma token_mint_balanceOf st l sender to amount l' holder :
  AAPLToken.mint aaplAddr st l sender to amount = Ok l' ->
  ERC20.balanceOf l' usdcToken holder = ERC20.balanceOf l usdcToken holder.
Proof.
  unfold AAPLToken.mint, ERC20.mint. intros H.
  binds_inv H. simplify_eq.
  rewrite balanceOf_set_balance, decide_False by congruence.
  reflexivity.
Qed.

Lemma token_burn_balanceOf st l sender from amount l' holder :
  AAPLToken.burn aaplAddr st l sender from amount = Ok l' ->
  ERC20.balanceOf l' usdcToken holder = ERC20.balanceOf l usdcToken holder.
Proof.
  unfold AAPLToken.burn, ERC20.burn. intros H.
  binds_inv H; [discriminate H | injection H as <-].
  rewrite balanceOf_set_supply, balanceOf_set_balance,
    decide_False by congruence.
  reflexivity.
Qed.

Lemma mint_covered s sender now user aaplAmount r ev s' :
  mint usdcToken aaplAddr vaultAddr self s sender now user aaplAmount
  = Ok (r, ev, s') ->
  covered (ledger s) (collateralVault s) ->
  covered (ledger s') (collateralVault s').
Proof.
  unfold mint. intros H Hc. binds_inv H. simplify_eq. cbn.
  match goal with E : CollateralVault.withdrawCollateral _ _ _ _ _ _ _ _ = _ |- _ =>
    pose proof (withdrawCollateral_covered _ _ _ _ _ _ _ _ E Hc) as Hc1 end.
  match goal with E : AAPLToken.mint _ _ _ _ _ _ = _ |- _ =>
    pose proof (token_mint_balanceOf _ _ _ _ _ _ vaultAddr E) as Hb end.
  unfold SyntheticStock.covered in *. lia.
Qed.

Lemma redeem_covered s sender now user aaplAmount r ev s' :
  redeem usdcToken aaplAddr vaultAddr self s sender now user aaplAmount
  = Ok (r, ev, s') ->
  covered (ledger s) (collateralVault s) ->
  covered (ledger s') (collateralVault s').
Proof.
  unfold redeem. intros H Hc. binds_inv H. simplify_eq. cbn.
  match goal with E : CollateralVault.depositCollateral _ _ _ _ _ _ _ = _ |- _ =>
    apply (depositCollateral_covered _ _ _ _ _ _ _ stock_not_vault E) end.
  match goal with E : AAPLToken.burn _ _ _ _ _ _ = _ |- _ =>
    pose proof (token_burn_balanceOf _ _ _ _ _ _ vaultAddr E) as Hb end.
  unfold SyntheticStock.covered in *. rewrite balanceOf_approve. lia.
Qed.

(** Every call of the alphabet keeps the vault covered, provided the
    caller is not the vault itself (the vault has no code that calls
    out to its own entry points or moves its tokens otherwise). *)
Lemma exec_covered s sender now c s' :
  sender <> vaultAddr ->
  args_in_range c ->
  exec usdcToken aaplAddr vaultAddr self s sender now c = Ok s' ->
  covered (ledger s) (collateralVault s) ->
  covered (ledger s') (collateralVault s').
Proof.
  intros Hs Hargs H Hc. destruct c; cbn [exec] in H.
  - apply fmap_ok_inv in H as ([l' v'] & H & ->).
    eapply depositCollateral_covered; eauto.
  - apply fmap_ok_inv in H as ([l' v'] & H & ->).
    eapply withdrawCollateral_covered; eauto.
  - apply fmap_ok_inv in H as ([l' v'] & H & ->).
    eapply emergencyWithdraw_covered; eauto.
  - apply fmap_ok_inv in H as ([[r ev] s1] & H & ->).
    eapply mint_covered; eauto.
  - apply fmap_ok_inv in H as ([[r ev] s1] & H & ->).
    eapply redeem_covered; eauto.
  - apply fmap_ok_inv in H as (v' & H & ->).
    unfold CollateralVault.pause in H. binds_inv H. by simplify_eq.
  - apply fmap_ok_inv in H as (v' & H & ->).
    unfold CollateralVault.unpause in H. binds_inv H. by simplify_eq.
  - apply fmap_ok_inv in H as (v' & H & ->).
    unfold CollateralVault.grantSyntheticStockRole in H.
    binds_inv H. by simplify_eq.
  - apply fmap_ok_inv in H as (v' & H & ->). done.
  - apply fmap_ok_inv in H as (v' & H & ->). done.
  - apply fmap_ok_inv in H as (v' & H & ->). done.
  - simplify_eq. done.
  - apply fmap_ok_inv in H as (l' & H & ->).
    apply (transfer_balanceOf _ _ _ _ _ _ usdcToken vaultAddr) in H
      as [_ H].
    unfold SyntheticStock.covered in *. cbn. rewrite H. clear H.
    destruct Hargs as [Hamount _].
    rewrite decide_False by congruence.
    destruct (decide (_ = _)); unfold is_uint256 in *; lia.
Qed.

Lemma transact_covered s tx :
  external tx ->
  covered (ledger s) (collateralVault s) ->
  covered (ledger (transact usdcToken aaplAddr vaultAddr self s tx))
          (collateralVault (transact usdcToken aaplAddr vaultAddr self s tx)).
Proof.
  destruct tx as [[sender now] c]. unfold SyntheticStock.external, transact. cbn.
  intros [Hs Hargs] Hc.
  destruct (exec usdcToken aaplAddr vaultAddr self s sender now c)
    as [s' |] eqn:E; cbn; [| done].
  eapply exec_covered; eauto.
Qed.

Lemma run_covered txs s :
  Forall external txs ->
  covered (ledger s) (collateralVault s) ->
  covered (ledger (run usdcToken aaplAddr vaultAddr self s txs))
          (collateralVault (run usdcToken aaplAddr vaultAddr self s txs)).
Proof.
  intros Htxs. revert s. unfold run.
  induction Htxs as [| tx txs Htx _ IH]; intros s Hc; cbn; [done |].
  apply IH. by apply transact_covered.
Qed.
End Solvency.

(** A vault fresh from its constructor is covered by any ledger. *)
Lemma constructor_covered usdcToken vaultAddr admin l :
  0 <= ERC20.balanceOf l usdcToken vaultAddr ->
  covered usdcToken vaultAddr l (CollateralVault.constructor admin).
Proof. intros H. exact H. Qed.

(** C1: from any solvent state (the freshly constructed vault is one),
    after every prefix of every sequence of deposits, withdrawals,
    emergency withdrawals, mints and redeems -- interleaved with pauses,
    role grants, fee and price updates and token transfers by third
    parties, all sent by callers other than the vault itself -- the
    tracked total is at most the collateral the vault holds, and
    [isVaultSolvent()] returns true. *)
Theorem vault_solvency_invariant
        (usdcToken aaplAddr vaultAddr self : address)
        (s : system) (txs : list (address * Z * call)) (n : nat) :
  usdcToken <> aaplAddr ->
  self <> vaultAddr ->
  isVaultSolvent usdcToken vaultAddr s = true ->
  Forall (external vaultAddr) txs ->
  let s' := run usdcToken aaplAddr vaultAddr self s (take n txs) in
  CollateralVault.getTotalCollateral (collateralVault s')
  <= CollateralVault.getVaultBalance usdcToken vaultAddr (ledger s') /\
  isVaultSolvent usdcToken vaultAddr s' = true.
Proof.
  intros Htok Hself Hsolvent Htxs s'.
  assert (Hc : covered usdcToken vaultAddr (ledger s') (collateralVault s')).
  { apply run_covered; try done.
    - by apply Forall_take.
    - by apply isVaultSolvent_covered. }
  split; [exact Hc | by apply isVaultSolvent_covered].
Qed.

Lemma vault_solvency_invariant_witness :
  let s' := run Deployment.USDC Deployment.AAPL Deployment.VAULT
                Deployment.STOCK Deployment.system0 (take 5 demo_txs) in
  CollateralVault.getTotalCollateral (collateralVault s')
  <= CollateralVault.getVaultBalance Deployment.USDC Deployment.VAULT
       (ledger s') /\
  isVaultSolvent Deployment.USDC Deployment.VAULT s' = true.
Proof.
  apply (vault_solvency_invariant Deployment.USDC Deployment.AAPL
           Deployment.VAULT Deployment.STOCK Deployment.system0
           demo_txs 5).
  - discriminate.
  - discriminate.
  - reflexivity.
  - unfold demo_txs, external, is_uint256.
    repeat constructor; cbn; try discriminate; vm_compute; congruence.
Defined.

(** The demonstration run really moves collateral: every step commits. *)
Example demo_run_totals :
  let step n := run Deployment.USDC Deployment.AAPL Deployment.VAULT
                    Deployment.STOCK Deployment.system0 (take n demo_txs) in
  let view s := (CollateralVault.getTotalCollateral (collateralVault s),
                 CollateralVault.getVaultBalance Deployment.USDC
                   Deployment.VAULT (ledger s)) in
  map (fun n => view (step n)) [0; 1; 2; 3; 4; 5]%nat
  = [ (300000000, 300000000); (75000000, 75000000); (75000000, 75000000);
      (0, 0); (0, 0); (112218750, 112218750) ].
Proof. vm_compute. reflexivity. Qed.

(** The SyntheticStock state of the deployment is reached from
    [initialize], whose fees are zero, by registering the wallet and
    setting both fees to 25 basis points. *)
Example stock0_configured :
  (st0 ← initialize Deployment.AAPL Deployment.VAULT 1010 Deployment.USDC
                    Deployment.ADMIN;
   st1 ← addAAWallet st0 Deployment.ADMIN Deployment.WALLET;
   updateFees st1 Deployment.ADMIN 25 25)
  = Ok Deployment.stock0.
Proof. vm_compute. reflexivity. Qed.

End SyntheticStockProofs.

(** ** The vault inside the system: bookkeeping along runs *)

Module VaultSystemProofs.
Import SyntheticStock ERC20Proofs CollateralVaultProofs SyntheticStockProofs.

Section System.
Variables (usdcToken aaplAddr vaultAddr self : address).

Local Abbreviation exec := (SyntheticStock.exec usdcToken aaplAddr vaultAddr self).
Local Abbreviation run := (SyntheticStock.run usdcToken aaplAddr vaultAddr self).

Lemma exec_accounted s sender now c s' :
  exec s sender now c = Ok s' ->
  CollateralVault.accounted (collateralVault s) ->
  CollateralVault.accounted (collateralVault s').
Proof.
  intros H Hacc. destruct c; cbn [SyntheticStock.exec] in H.
  - apply fmap_ok_inv in H as ([l' v'] & H & ->).
    eapply depositCollateral_accounted; eauto.
  - apply fmap_ok_inv in H as ([l' v'] & H & ->).
    eapply withdrawCollateral_accounted; eauto.
  - apply fmap_ok_inv in H as ([l' v'] & H & ->).
    eapply emergencyWithdraw_accounted; eauto.
  - apply fmap_ok_inv in H as ([[r ev] s1] & H & ->).
    unfold mint in H. binds_inv H. injection H as _ _ <-. cbn.
    eapply withdrawCollateral_accounted; eauto.
  - apply fmap_ok_inv in H as ([[r ev] s1] & H & ->).
    unfold redeem in H. binds_inv H. injection H as _ _ <-. cbn.
    eapply depositCollateral_accounted; eauto.
  - apply fmap_ok_inv in H as (v' & H & ->).
    unfold CollateralVault.pause in H. binds_inv H. by simplify_eq.
  - apply fmap_ok_inv in H as (v' & H & ->).
    unfold CollateralVault.unpause in H. binds_inv H. by simplify_eq.
  - apply fmap_ok_inv in H as (v' & H & ->).
    unfold CollateralVault.grantSyntheticStockRole in H.
    binds_inv H. by simplify_eq.
  - apply fmap_ok_inv in H as (v' & H & ->). done.
  - apply fmap_ok_inv in H as (v' & H & ->). done.
  - apply fmap_ok_inv in H as (v' & H & ->). done.
  - simplify_eq. done.
  - apply fmap_ok_inv in H as (l' & H & ->). done.
Qed.

Lemma run_accounted s txs :
  CollateralVault.accounted (collateralVault s) ->
  CollateralVault.accounted (collateralVault (run s txs)).
Proof.
  revert s. unfold SyntheticStock.run.
  induction txs as [| [[sender now] c] txs IH]; intros s Hacc; cbn;
    [done |].
  apply IH.
  destruct (exec s sender now c) as [s' |] eqn:E; cbn; [| done].
  eapply exec_accounted; eauto.
Qed.

(** X4: along every sequence of calls the vault's tracked total is
    the sum of the recorded user balances; no recorded balance is
    negative and none exceeds the total. *)
Theorem vault_total_is_sum_of_balances s txs :
  CollateralVault.accounted (collateralVault s) ->
  CollateralVault.getTotalCollateral (collateralVault (run s txs))
  = CollateralVault.sumCollateral
      (CollateralVault._userCollateral (collateralVault (run s txs))) /\
  forall user,
    0 <= CollateralVault.getUserCollateral (collateralVault (run s txs)) user
      <= CollateralVault.getTotalCollateral (collateralVault (run s txs)).
Proof.
  intros Hacc. destruct (run_accounted s txs Hacc) as [Htotal Hall].
  unfold CollateralVault.getTotalCollateral,
    CollateralVault.getUserCollateral.
  split; [exact Htotal |]. intros user. split.
  - by apply mget_nonneg.
  - rewrite Htotal. by apply mget_le_sumCollateral.
Qed.
End System.

Lemma vault0_accounted : CollateralVault.accounted Deployment.vault0.
Proof.
  split; cbn.
  - unfold Deployment.ALICE.
    change ({[10 := 300000000]} : gmap Z Z)
      with (<[10 := 300000000]> (∅ : gmap Z Z)).
    rewrite sumCollateral_insert_fresh by apply lookup_empty.
    rewrite sumCollateral_empty. reflexivity.
  - intros k v Hk.
    apply lookup_insert_Some in Hk as [[_ <-] | [_ Hk]]; [lia |].
    by rewrite lookup_empty in Hk.
Qed.

Lemma vault_total_is_sum_of_balances_witness :
  let v := collateralVault
             (SyntheticStock.run Deployment.USDC Deployment.AAPL
                Deployment.VAULT Deployment.STOCK Deployment.system0
                Deployment.demo_txs) in
  CollateralVault.getTotalCollateral v
  = CollateralVault.sumCollateral (CollateralVault._userCollateral v) /\
  forall user,
    0 <= CollateralVault.getUserCollateral v user
      <= CollateralVault.getTotalCollateral v.
Proof.
  apply (vault_total_is_sum_of_balances Deployment.USDC Deployment.AAPL
           Deployment.VAULT Deployment.STOCK Deployment.system0
           Deployment.demo_txs).
  exact vault0_accounted.
Defined.

(** X5: the circuit breaker always pays.  In any paused state reached
    from a solvent, well-accounted one, a user with a positive recorded
    balance can call [emergencyWithdraw]: the call succeeds, sends the
    user exactly that balance, sets the record to zero, lowers the
    total by it and leaves every other record alone. *)
Theorem emergencyWithdraw_always_pays
        (usdcToken aaplAddr vaultAddr self : address)
        (s0 : system) (txs : list (address * Z * call)) (user : address) :
  usdcToken <> aaplAddr ->
  self <> vaultAddr ->
  user <> vaultAddr ->
  CollateralVault.accounted (collateralVault s0) ->
  isVaultSolvent usdcToken vaultAddr s0 = true ->
  Forall (external vaultAddr) txs ->
  let s := SyntheticStock.run usdcToken aaplAddr vaultAddr self s0 txs in
  let owed := CollateralVault.getUserCollateral (collateralVault s) user in
  CollateralVault.paused (collateralVault s) = true ->
  0 < owed ->
  exists l' v',
    CollateralVault.emergencyWithdraw usdcToken vaultAddr (ledger s)
      (collateralVault s) user = Ok (l', v') /\
    ERC20.balanceOf l' usdcToken user
    = ERC20.balanceOf (ledger s) usdcToken user + owed /\
    CollateralVault.getUserCollateral v' user = 0 /\
    CollateralVault.getTotalCollateral v'
    = CollateralVault.getTotalCollateral (collateralVault s) - owed /\
    (forall other, other <> user ->
       CollateralVault.getUserCollateral v' other
       = CollateralVault.getUserCollateral (collateralVault s) other).
Proof.
  intros Htok Hself Huser Hacc Hsolvent Htxs s owed Hpaused Hpos.
  assert (Hacc' : CollateralVault.accounted (collateralVault s))
    by (by apply run_accounted).
  assert (Hcov : covered usdcToken vaultAddr (ledger s) (collateralVault s)).
  { apply run_covered; try done. by apply isVaultSolvent_covered. }
  destruct Hacc' as [Htotal Hall].
  pose proof (mget_le_sumCollateral _ user Hall) as Hle.
  rewrite <- Htotal in Hle. fold (CollateralVault.getUserCollateral
                                    (collateralVault s) user) in Hle.
  fold owed in Hle. unfold covered in Hcov.
  unfold CollateralVault.emergencyWithdraw.
  rewrite Hpaused. cbn [whenPaused mbind result_bind]. cbv zeta.
  fold owed.
  replace (0 <? owed) with true by (symmetry; apply Z.ltb_lt; done).
  cbn [require mbind result_bind].
  rewrite sub256_ok by done. cbn [mbind result_bind].
  destruct (transfer_ok (ledger s) usdcToken vaultAddr user owed
              ltac:(lia)) as [l' Hl'].
  rewrite Hl'. cbn [mbind result_bind].
  eexists _, _. split; [reflexivity |].
  split.
  { apply (transfer_balanceOf _ _ _ _ _ _ usdcToken user) in Hl' as [_ ->].
    rewrite decide_False by congruence.
    rewrite decide_True by done. lia. }
  split; [apply mget_insert_eq |].
  split; [reflexivity |].
  intros other Hother. unfold CollateralVault.getUserCollateral, mget. cbn.
  by rewrite lookup_insert_ne.
Qed.

(** After Alice's mint and the admin's pause she is owed 75 USDC. *)
Lemma emergencyWithdraw_always_pays_witness :
  let s := SyntheticStock.run Deployment.USDC Deployment.AAPL
             Deployment.VAULT Deployment.STOCK Deployment.system0
             (take 2 Deployment.demo_txs) in
  exists l' v',
    CollateralVault.emergencyWithdraw Deployment.USDC Deployment.VAULT
      (ledger s) (collateralVault s) Deployment.ALICE = Ok (l', v') /\
    ERC20.balanceOf l' Deployment.USDC Deployment.ALICE
    = ERC20.balanceOf (ledger s) Deployment.USDC Deployment.ALICE
      + CollateralVault.getUserCollateral (collateralVault s)
          Deployment.ALICE /\
    CollateralVault.getUserCollateral v' Deployment.ALICE = 0 /\
    CollateralVault.getTotalCollateral v'
    = CollateralVault.getTotalCollateral (collateralVault s)
      - CollateralVault.getUserCollateral (collateralVault s)
          Deployment.ALICE /\
    (forall other, other <> Deployment.ALICE ->
       CollateralVault.getUserCollateral v' other
       = CollateralVault.getUserCollateral (collateralVault s) other).
Proof.
  apply (emergencyWithdraw_always_pays Deployment.USDC Deployment.AAPL
           Deployment.VAULT Deployment.STOCK Deployment.system0
           (take 2 Deployment.demo_txs) Deployment.ALICE).
  - discriminate.
  - discriminate.
  - discriminate.
  - exact vault0_accounted.
  - reflexivity.
  - unfold Deployment.demo_txs. cbn [take].
    repeat (apply List.Forall_cons; [ | ]); try apply List.Forall_nil;
      vm_compute; repeat split; congruence.
  - reflexivity.
  - vm_compute. reflexivity.
Defined.

End VaultSystemProofs.

(** ** SyntheticStock: what a mint and a redemption move *)

Module MintRedeemProofs.
Import SyntheticStock ERC20Proofs CollateralVaultProofs SyntheticStockProofs.

Lemma collateralFor_inv a p c :
  collateralFor a p = Ok c -> c = a * p * COLLATERAL_RATIO / SCALE.
Proof.
  unfold collateralFor. rewrite denominator_value. intros H.
  destruct (mul256 a p) as [v |] eqn:Hv; [| discriminate H].
  cbn [mbind result_bind] in H.
  destruct (mul256 v COLLATERAL_RATIO) as [w |] eqn:Hw; [| discriminate H].
  cbn [mbind result_bind] in H.
  unfold mul256, div256 in *. repeat case_match; simplify_eq. reflexivity.
Qed.

Lemma feeOf_inv a bps fee :
  feeOf a bps = Ok fee -> fee = a * bps / 10000.
Proof.
  unfold feeOf. intros H.
  destruct (mul256 a bps) as [v |] eqn:Hv; [| discriminate H].
  cbn [mbind result_bind] in H.
  unfold mul256, div256 in *. repeat case_match; simplify_eq. reflexivity.
Qed.

Lemma collateralFor_mono a b p :
  a <= b -> 0 <= p ->
  a * p * COLLATERAL_RATIO / SCALE <= b * p * COLLATERAL_RATIO / SCALE.
Proof.
  intros Hab Hp. apply Z.div_le_mono; [rewrite SCALE_value; lia |].
  unfold COLLATERAL_RATIO. nia.
Qed.

Section Effects.
Variables (usdcToken aaplAddr vaultAddr self : address).

Local Abbreviation mint := (SyntheticStock.mint usdcToken aaplAddr vaultAddr self).
Local Abbreviation redeem := (SyntheticStock.redeem usdcToken aaplAddr vaultAddr self).

Lemma withdrawCollateral_effect l v sender user amount recipient l' v' :
  CollateralVault.withdrawCollateral usdcToken vaultAddr l v sender user
    amount recipient = Ok (l', v') ->
  0 < amount <= CollateralVault.getUserCollateral v user /\
  (forall u, CollateralVault.getUserCollateral v' u
             = CollateralVault.getUserCollateral v u
               - (if decide (u = user) then amount else 0)) /\
  CollateralVault.getTotalCollateral v'
  = CollateralVault.getTotalCollateral v - amount /\
  (forall token holder,
      ERC20.balanceOf l' token holder
      = ERC20.balanceOf l token holder
        - (if decide ((usdcToken, vaultAddr) = (token, holder))
           then amount else 0)
        + (if decide ((usdcToken, recipient) = (token, holder))
           then amount else 0)) /\
  ERC20.totalSupply l' aaplAddr = ERC20.totalSupply l aaplAddr.
Proof.
  unfold CollateralVault.withdrawCollateral. intros H.
  binds_inv H. simplify_eq.
  repeat match goal with
         | E : require _ _ = Ok _ |- _ => apply require_inv in E
         | E : sub256 _ _ = Ok _ |- _ => apply sub256_inv in E as [-> ?]
         end.
  match goal with E : ERC20.transfer _ _ _ _ _ = Ok _ |- _ =>
    rename E into Ht end.
  split; [lia |]. split; [| split; [| split]].
  - intros u. unfold CollateralVault.getUserCollateral. cbn.
    case_decide as Hu.
    + subst u. by rewrite mget_insert_eq.
    + unfold mget. rewrite lookup_insert_ne by done. lia.
  - reflexivity.
  - intros token holder.
    by destruct (transfer_balanceOf _ _ _ _ _ _ token holder Ht) as [_ ->].
  - unfold ERC20.transfer in Ht. case_match; simplify_eq. reflexivity.
Qed.

Lemma depositCollateral_effect l v sender user amount l' v' :
  CollateralVault.depositCollateral usdcToken vaultAddr l v sender user
    amount = Ok (l', v') ->
  0 < amount /\
  (forall u, CollateralVault.getUserCollateral v' u
             = CollateralVault.getUserCollateral v u
               + (if decide (u = user) then amount else 0)) /\
  CollateralVault.getTotalCollateral v'
  = CollateralVault.getTotalCollateral v + amount /\
  (forall token holder,
      ERC20.balanceOf l' token holder
      = ERC20.balanceOf l token holder
        - (if decide ((usdcToken, sender) = (token, holder))
           then amount else 0)
        + (if decide ((usdcToken, vaultAddr) = (token, holder))
           then amount else 0)) /\
  ERC20.totalSupply l' aaplAddr = ERC20.totalSupply l aaplAddr.
Proof.
  unfold CollateralVault.depositCollateral. intros H.
  binds_inv H. simplify_eq.
  repeat match goal with
         | E : require _ _ = Ok _ |- _ => apply require_inv in E
         | E : add256 _ _ = Ok _ |- _ => apply add256_inv in E as [-> ?]
         end.
  match goal with E : ERC20.transferFrom _ _ _ _ _ _ = Ok _ |- _ =>
    rename E into Ht end.
  split; [lia |]. split; [| split; [| split]].
  - intros u. unfold CollateralVault.getUserCollateral. cbn.
    case_decide as Hu.
    + subst u. by rewrite mget_insert_eq.
    + unfold mget. rewrite lookup_insert_ne by done. lia.
  - reflexivity.
  - intros token holder.
    by rewrite (transferFrom_balanceOf _ _ _ _ _ _ _ token holder Ht).
  - unfold ERC20.transferFrom, ERC20.spendAllowance, ERC20.transfer in Ht.
    repeat case_match; cbn in Ht; repeat case_match; simplify_eq;
      reflexivity.
Qed.

Lemma token_mint_effect st l sender to amount l' :
  AAPLToken.mint aaplAddr st l sender to amount = Ok l' ->
  0 < amount /\
  (forall token holder,
      ERC20.balanceOf l' token holder
      = ERC20.balanceOf l token holder
        + (if decide ((aaplAddr, to) = (token, holder))
           then amount else 0)) /\
  ERC20.totalSupply l' aaplAddr = ERC20.totalSupply l aaplAddr + amount.
Proof.
  unfold AAPLToken.mint, ERC20.mint. intros H.
  binds_inv H. simplify_eq.
  repeat match goal with
         | E : require _ _ = Ok _ |- _ => apply require_inv in E
         | E : add256 _ _ = Ok _ |- _ => apply add256_inv in E as [-> ?]
         end.
  split; [by apply Z.ltb_lt |]. split.
  - intros token holder.
    rewrite balanceOf_set_balance, !balanceOf_set_supply.
    case_decide; simplify_eq; lia.
  - unfold ERC20.totalSupply. cbn. by rewrite lookup_insert_eq.
Qed.

Lemma token_burn_effect st l sender from amount l' :
  AAPLToken.burn aaplAddr st l sender from amount = Ok l' ->
  0 < amount <= ERC20.balanceOf l aaplAddr from /\
  (forall token holder,
      ERC20.balanceOf l' token holder
      = ERC20.balanceOf l token holder
        - (if decide ((aaplAddr, from) = (token, holder))
           then amount else 0)) /\
  ERC20.totalSupply l' aaplAddr = ERC20.totalSupply l aaplAddr - amount.
Proof.
  unfold AAPLToken.burn, ERC20.burn. intros H.
  binds_inv H; [discriminate H | injection H as <-].
  repeat match goal with
         | E : require _ _ = Ok _ |- _ => apply require_inv in E
         end.
  split; [lia |]. split.
  - intros token holder.
    rewrite balanceOf_set_supply, balanceOf_set_balance.
    case_decide; simplify_eq; lia.
  - unfold ERC20.totalSupply. cbn. by rewrite lookup_insert_eq.
Qed.

(** Everything a successful [mint] establishes. *)
Lemma mint_inv s sender now user aaplAmount used ev s' :
  mint s sender now user aaplAmount = Ok (used, ev, s') ->
  exists price updated fee,
    OracleAdapter.getPrice (oracle s) now = Ok (price, updated) /\
    0 < price /\ 0 < aaplAmount /\
    used = aaplAmount * price * COLLATERAL_RATIO / SCALE /\
    0 < used <= CollateralVault.getUserCollateral (collateralVault s) user /\
    fee = aaplAmount * mintFee (stock s) / 10000 /\
    fee < aaplAmount /\
    ev = Minted user used (aaplAmount - fee) price fee /\
    (forall u,
        CollateralVault.getUserCollateral (collateralVault s') u
        = CollateralVault.getUserCollateral (collateralVault s) u
          - (if decide (u = user) then used else 0)) /\
    CollateralVault.getTotalCollateral (collateralVault s')
    = CollateralVault.getTotalCollateral (collateralVault s) - used /\
    (forall token holder,
        ERC20.balanceOf (ledger s') token holder
        = ERC20.balanceOf (ledger s) token holder
          - (if decide ((usdcToken, vaultAddr) = (token, holder))
             then used else 0)
          + (if decide ((usdcToken, self) = (token, holder))
             then used else 0)
          + (if decide ((aaplAddr, user) = (token, holder))
             then aaplAmount - fee else 0)) /\
    ERC20.totalSupply (ledger s') aaplAddr
    = ERC20.totalSupply (ledger s) aaplAddr + (aaplAmount - fee) /\
    (forall u,
        mget (userAaplBalance (stock s')) u
        = mget (userAaplBalance (stock s)) u
          + (if decide (u = user) then aaplAmount - fee else 0)) /\
    oracle s' = oracle s /\
    aaplToken s' = aaplToken s /\
    stock s' = set_userAaplBalance (stock s) (userAaplBalance (stock s')).
Proof.
  unfold SyntheticStock.mint. intros H. binds_inv H. simplify_eq.
  repeat match goal with
         | E : require _ _ = Ok _ |- _ => apply require_inv in E
         | E : add256 _ _ = Ok _ |- _ => apply add256_inv in E as [-> ?]
         | E : sub256 _ _ = Ok _ |- _ => apply sub256_inv in E as [-> ?]
         | E : collateralFor _ _ = Ok _ |- _ =>
             apply collateralFor_inv in E
         | E : feeOf _ _ = Ok _ |- _ => apply feeOf_inv in E
         | E : CollateralVault.withdrawCollateral _ _ _ _ _ _ _ _ = Ok _
           |- _ =>
             apply withdrawCollateral_effect
               in E as (? & Hv & Ht & Hl & Hs)
         | E : AAPLToken.mint _ _ _ _ _ _ = Ok _ |- _ =>
             apply token_mint_effect in E as (? & Hl' & Hs')
         end.
  eexists _, _, _. split; [reflexivity |].
  repeat match goal with
         | E : (_ <? _) = true |- _ => apply Z.ltb_lt in E
         | E : (_ <=? _) = true |- _ => apply Z.leb_le in E
         end.
  subst. cbn [ledger collateralVault stock oracle aaplToken
              userAaplBalance set_userAaplBalance].
  repeat split; try done; try lia.
  - intros token holder. rewrite Hl', Hl. lia.
  - intros u. case_decide as Hu.
    + subst u. by rewrite mget_insert_eq.
    + unfold mget. rewrite lookup_insert_ne by done. lia.
Qed.

(** Everything a successful [redeem] establishes. *)
Lemma redeem_inv s sender now user aaplAmount ret ev s' :
  redeem s sender now user aaplAmount = Ok (ret, ev, s') ->
  exists price updated gross fee,
    OracleAdapter.getPrice (oracle s) now = Ok (price, updated) /\
    0 < price /\
    0 < aaplAmount <= ERC20.balanceOf (ledger s) aaplAddr user /\
    aaplAmount <= mget (userAaplBalance (stock s)) user /\
    gross = aaplAmount * price * COLLATERAL_RATIO / SCALE /\
    fee = gross * redeemFee (stock s) / 10000 /\
    ret = gross - fee /\ 0 < ret /\
    ev = Redeemed user aaplAmount ret price fee /\
    (forall u,
        CollateralVault.getUserCollateral (collateralVault s') u
        = CollateralVault.getUserCollateral (collateralVault s) u
          + (if decide (u = user) then ret else 0)) /\
    CollateralVault.getTotalCollateral (collateralVault s')
    = CollateralVault.getTotalCollateral (collateralVault s) + ret /\
    (forall token holder,
        ERC20.balanceOf (ledger s') token holder
        = ERC20.balanceOf (ledger s) token holder
          - (if decide ((aaplAddr, user) = (token, holder))
             then aaplAmount else 0)
          - (if decide ((usdcToken, self) = (token, holder))
             then ret else 0)
          + (if decide ((usdcToken, vaultAddr) = (token, holder))
             then ret else 0)) /\
    ERC20.totalSupply (ledger s') aaplAddr
    = ERC20.totalSupply (ledger s) aaplAddr - aaplAmount /\
    (forall u,
        mget (userAaplBalance (stock s')) u
        = mget (userAaplBalance (stock s)) u
          - (if decide (u = user) then aaplAmount else 0)) /\
    oracle s' = oracle s /\
    aaplToken s' = aaplToken s /\
    stock s' = set_userAaplBalance (stock s) (userAaplBalance (stock s')).
Proof.
  unfold SyntheticStock.redeem. intros H. binds_inv H. simplify_eq.
  repeat match goal with
         | E : require _ _ = Ok _ |- _ => apply require_inv in E
         | E : sub256 _ _ = Ok _ |- _ => apply sub256_inv in E as [-> ?]
         | E : collateralFor _ _ = Ok _ |- _ =>
             apply collateralFor_inv in E
         | E : feeOf _ _ = Ok _ |- _ => apply feeOf_inv in E
         | E : CollateralVault.depositCollateral _ _ _ _ _ _ _ = Ok _
           |- _ =>
             apply depositCollateral_effect
               in E as (? & Hv & Ht & Hl & Hs)
         | E : AAPLToken.burn _ _ _ _ _ _ = Ok _ |- _ =>
             apply token_burn_effect in E as (? & Hl' & Hs')
         end.
  eexists _, _, _, _. split; [reflexivity |].
  repeat match goal with
         | E : (_ <? _) = true |- _ => apply Z.ltb_lt in E
         | E : (_ <=? _) = true |- _ => apply Z.leb_le in E
         end.
  subst. cbn [ledger collateralVault stock oracle aaplToken
              userAaplBalance set_userAaplBalance].
  repeat split; try done; try lia.
  - intros token holder. rewrite Hl, balanceOf_approve, Hl'. lia.
  - rewrite Hs. exact Hs'.
  - intros u. case_decide as Hu.
    + subst u. by rewrite mget_insert_eq.
    + unfold mget. rewrite lookup_insert_ne by done. lia.
Qed.

Lemma getPrice_inv st now price updated :
  OracleAdapter.getPrice st now = Ok (price, updated) ->
  price = OracleAdapter._latestPrice st /\
  updated = OracleAdapter._lastUpdated st.
Proof.
  unfold OracleAdapter.getPrice. intros H. binds_inv H. by simplify_eq.
Qed.

(** X8: what a mint moves.  The collateral it consumes,
    [amount * price * 150 / 1e22], leaves the user's vault record,
    the vault's total and the vault's USDC balance, and arrives in
    the USDC balance of the SyntheticStock contract itself; the user
    receives the amount less the mint fee in tokens, position and
    total supply. *)
Theorem mint_moves_collateral_to_stock
        s sender now user aaplAmount used ev s' :
  usdcToken <> aaplAddr -> self <> vaultAddr ->
  mint s sender now user aaplAmount = Ok (used, ev, s') ->
  let price := OracleAdapter._latestPrice (oracle s) in
  let fee := aaplAmount * mintFee (stock s) / 10000 in
  let net := aaplAmount - fee in
  used = aaplAmount * price * COLLATERAL_RATIO / SCALE /\
  0 < used /\ 0 < net /\
  ev = Minted user used net price fee /\
  CollateralVault.getUserCollateral (collateralVault s') user
  = CollateralVault.getUserCollateral (collateralVault s) user - used /\
  CollateralVault.getTotalCollateral (collateralVault s')
  = CollateralVault.getTotalCollateral (collateralVault s) - used /\
  ERC20.balanceOf (ledger s') usdcToken vaultAddr
  = ERC20.balanceOf (ledger s) usdcToken vaultAddr - used /\
  ERC20.balanceOf (ledger s') usdcToken self
  = ERC20.balanceOf (ledger s) usdcToken self + used /\
  (forall holder, holder <> vaultAddr -> holder <> self ->
     ERC20.balanceOf (ledger s') usdcToken holder
     = ERC20.balanceOf (ledger s) usdcToken holder) /\
  ERC20.balanceOf (ledger s') aaplAddr user
  = ERC20.balanceOf (ledger s) aaplAddr user + net /\
  ERC20.totalSupply (ledger s') aaplAddr
  = ERC20.totalSupply (ledger s) aaplAddr + net /\
  mget (userAaplBalance (stock s')) user
  = mget (userAaplBalance (stock s)) user + net.
Proof.
  intros Htok Hself H.
  destruct (mint_inv _ _ _ _ _ _ _ _ H)
    as (price & updated & fee & Hp & Hpos & Hamt & Hused & Hrange & Hfee
        & Hlt & Hev & Hv & Ht & Hl & Hs & Hpo & _).
  apply getPrice_inv in Hp as [-> _]. subst fee.
  cbv zeta. rewrite Hv, Ht, !Hl, Hs, Hpo.
  repeat split; try done; try (intros holder ? ?; rewrite Hl);
    repeat case_decide; simplify_eq; lia.
Qed.

(** X9: [withdrawFees] draws on the whole USDC balance of the
    contract, and the collateral a mint consumed is part of it: right
    after a mint the admin can pay out any amount up to the earlier
    balance plus that collateral, and nothing above it. *)
Theorem withdrawFees_reaches_mint_collateral
        s sender now user aaplAmount used ev s' admin recipient amount :
  usdcToken <> aaplAddr -> self <> vaultAddr ->
  mint s sender now user aaplAmount = Ok (used, ev, s') ->
  admin ∈ adminRole (stock s) ->
  recipient <> 0 -> recipient <> self ->
  let held := ERC20.balanceOf (ledger s) usdcToken self in
  (amount <= held + used ->
   exists l'',
     withdrawFees usdcToken self (stock s') (ledger s') admin recipient
       amount = Ok l'' /\
     ERC20.balanceOf l'' usdcToken recipient
     = ERC20.balanceOf (ledger s') usdcToken recipient + amount /\
     ERC20.balanceOf l'' usdcToken self = held + used - amount) /\
  (held + used < amount ->
   withdrawFees usdcToken self (stock s') (ledger s') admin recipient
     amount = Err (Revert "SyntheticStock: insufficient fees")).
Proof.
  intros Htok Hself H Hadmin Hrec Hrec'.
  destruct (mint_inv _ _ _ _ _ _ _ _ H)
    as (price & updated & fee & _ & _ & _ & _ & _ & _
        & _ & _ & _ & _ & Hl & _ & _ & _ & _ & Hst).
  pose proof (Hl usdcToken self) as Hheld.
  rewrite decide_False, decide_True, decide_False in Hheld
    by congruence.
  cbv zeta. unfold withdrawFees. rewrite Hst. cbn [adminRole set_userAaplBalance].
  rewrite onlyRole_ok by done. cbn [mbind result_bind].
  replace (recipient =? 0) with false by (symmetry; by apply Z.eqb_neq).
  cbn [negb require mbind result_bind]. split.
  - intros Hle.
    replace (amount <=? ERC20.balanceOf (ledger s') usdcToken self)
      with true by (symmetry; apply Z.leb_le; lia).
    cbn [require mbind result_bind].
    destruct (transfer_ok (ledger s') usdcToken self recipient amount)
      as [l'' Ht]; [lia |].
    exists l''. split; [exact Ht |].
    destruct (transfer_balanceOf _ _ _ _ _ _ usdcToken recipient Ht)
      as [_ ->].
    destruct (transfer_balanceOf _ _ _ _ _ _ usdcToken self Ht)
      as [_ ->].
    split; repeat case_decide; simplify_eq; lia.
  - intros Hgt.
    replace (amount <=? ERC20.balanceOf (ledger s') usdcToken self)
      with false by (symmetry; apply Z.leb_gt; lia).
    reflexivity.
Qed.

(** X10: no profit from a round trip.  While the oracle's stored
    price is the one the mint used, redeeming any amount up to the
    amount minted returns at most the collateral the mint consumed. *)
Theorem redeem_returns_at_most_mint_collateral
        s sender now user aaplAmount used ev s1
        sender' now' user' amount' ret ev' s2 :
  mint s sender now user aaplAmount = Ok (used, ev, s1) ->
  redeem s1 sender' now' user' amount' = Ok (ret, ev', s2) ->
  amount' <= aaplAmount ->
  0 <= redeemFee (stock s) ->
  0 < ret <= used.
Proof.
  intros Hm Hr Hle Hfee.
  destruct (mint_inv _ _ _ _ _ _ _ _ Hm)
    as (price & updated & fee & Hp & Hpos & Hamt & Hused & Hrange & _
        & _ & _ & _ & _ & _ & _ & _ & Ho & _ & Hst).
  destruct (redeem_inv _ _ _ _ _ _ _ _ Hr)
    as (price' & updated' & gross & fee' & Hp' & Hpos' & Hamt' & _
        & Hgross & Hfee' & Hret & Hretpos & _).
  split; [exact Hretpos |].
  rewrite Ho in Hp'.
  apply getPrice_inv in Hp as [-> _]. apply getPrice_inv in Hp' as [-> _].
  rewrite Hst in Hfee'. cbn [redeemFee set_userAaplBalance] in Hfee'.
  assert (gross <= used).
  { subst gross used. apply collateralFor_mono; lia. }
  assert (0 <= gross).
  { subst gross. apply Z.div_pos; [| rewrite SCALE_value; lia].
    unfold COLLATERAL_RATIO. nia. }
  assert (0 <= fee').
  { subst fee'. apply Z.div_pos; [nia | lia]. }
  lia.
Qed.

Local Abbreviation exec := (SyntheticStock.exec usdcToken aaplAddr vaultAddr self).
Local Abbreviation run := (SyntheticStock.run usdcToken aaplAddr vaultAddr self).
Local Abbreviation fees_bounded st :=
  ((0 <= mintFee st <= MAX_FEE) /\ (0 <= redeemFee st <= MAX_FEE)).

Lemma exec_fees_bounded s sender now c s' :
  exec s sender now c = Ok s' ->
  args_in_range c ->
  fees_bounded (stock s) -> fees_bounded (stock s').
Proof.
  intros H Hargs Hb. destruct c; cbn in H;
    try (apply fmap_ok_inv in H as (x & H & ->); try exact Hb).
  - destruct x as [[used ev] s1]. cbn.
    destruct (mint_inv _ _ _ _ _ _ _ _ H)
      as (? & ? & ? & _ & _ & _ & _ & _ & _
          & _ & _ & _ & _ & _ & _ & _ & _ & _ & ->).
    exact Hb.
  - destruct x as [[ret ev] s1]. cbn.
    destruct (redeem_inv _ _ _ _ _ _ _ _ H)
      as (? & ? & ? & ? & _ & _ & _ & _ & _ & _ & _ & _ & _
          & _ & _ & _ & _ & _ & _ & _ & ->).
    exact Hb.
  - unfold addAAWallet in H. binds_inv H. by simplify_eq.
  - unfold updateFees in H. binds_inv H. simplify_eq. cbn.
    repeat match goal with
           | E : require _ _ = Ok _ |- _ =>
               apply require_inv, Z.leb_le in E
           end.
    destruct Hargs as [[? _] [? _]]. lia.
  - simplify_eq. exact Hb.
Qed.

Lemma run_fees_bounded s txs :
  Forall (fun tx => args_in_range tx.2) txs ->
  fees_bounded (stock s) -> fees_bounded (stock (run s txs)).
Proof.
  intros Htxs. revert s. unfold SyntheticStock.run.
  induction Htxs as [| [[sender now] c] txs Hc _ IH]; intros s Hb; cbn;
    [done |].
  apply IH.
  destruct (exec s sender now c) as [s' |] eqn:E; cbn; [| done].
  eapply exec_fees_bounded; eauto.
Qed.

(** X11: the fees stay between zero and ten percent.  In every state
    reached by well-typed calls from one whose fees are within
    [MAX_FEE], a mint hands out the requested amount less a fee of
    at most a tenth of it, and a redemption returns the formula's
    value less a fee of at most a tenth of it. *)
Theorem fees_never_exceed_a_tenth s0 txs sender now user aaplAmount :
  fees_bounded (stock s0) ->
  Forall (fun tx => args_in_range tx.2) txs ->
  (forall used ev s',
      mint (run s0 txs) sender now user aaplAmount = Ok (used, ev, s') ->
      exists price fee,
        ev = Minted user used (aaplAmount - fee) price fee /\
        0 <= fee /\ 10 * fee <= aaplAmount) /\
  (forall ret ev s',
      redeem (run s0 txs) sender now user aaplAmount = Ok (ret, ev, s') ->
      exists price fee,
        ev = Redeemed user aaplAmount ret price fee /\
        ret + fee = aaplAmount * price * COLLATERAL_RATIO / SCALE /\
        0 <= fee /\ 10 * fee <= ret + fee).
Proof.
  intros Hb Htxs.
  pose proof (run_fees_bounded s0 txs Htxs Hb) as [Hm Hr].
  unfold MAX_FEE in *. split.
  - intros used ev s' H.
    destruct (mint_inv _ _ _ _ _ _ _ _ H)
      as (price & updated & fee & _ & _ & Hamt & _ & _ & Hfee
          & _ & Hev & _).
    exists price, fee. split; [exact Hev |]. subst fee. split.
    + apply Z.div_pos; [nia | lia].
    + pose proof (Z.mul_div_le
                    (aaplAmount * mintFee (stock (run s0 txs))) 10000).
      nia.
  - intros ret ev s' H.
    destruct (redeem_inv _ _ _ _ _ _ _ _ H)
      as (price & updated & gross & fee & _ & Hpos & Hamt & _
          & Hgross & Hfee & Hret & Hretpos & Hev & _).
    exists price, fee. split; [exact Hev |].
    assert (0 <= gross).
    { subst gross. apply Z.div_pos; [| rewrite SCALE_value; lia].
      unfold COLLATERAL_RATIO. nia. }
    split; [lia |]. replace (ret + fee) with gross by lia.
    subst fee. split.
    + apply Z.div_pos; [nia | lia].
    + pose proof (Z.mul_div_le
                    (gross * redeemFee (stock (run s0 txs))) 10000).
      nia.
Qed.
End Effects.

(** X12: the liquidation test has a window.  A user without a position
    is never liquidatable; otherwise [canLiquidate] answers yes only
    when the recorded collateral is at least one percent and less than
    120 percent of the position's value at the stored price, so a
    position with no recorded collateral at all is not liquidatable. *)
Theorem canLiquidate_window s now user :
  let position := mget (userAaplBalance (stock s)) user in
  let collateral :=
    CollateralVault.getUserCollateral (collateralVault s) user in
  let value :=
    position * OracleAdapter._latestPrice (oracle s) / 10 ^ 20 in
  0 <= position ->
  (position = 0 -> canLiquidate s now user = Ok false) /\
  (canLiquidate s now user = Ok true ->
   0 < value /\ value <= 100 * collateral < 120 * value) /\
  (collateral = 0 -> canLiquidate s now user <> Ok true).
Proof.
  intros position collateral value Hpos.
  assert (Hwin : canLiquidate s now user = Ok true ->
                 0 < value /\ value <= 100 * collateral < 120 * value).
  { unfold canLiquidate, getUserCollateralizationRatio.
    fold position. fold collateral.
    destruct (Z.eqb_spec position 0) as [| Hne]; [done |].
    unfold OracleAdapter.getPriceUnsafe.
    set (price := OracleAdapter._latestPrice (oracle s)) in *.
    assert (Hbody :
              (if price <=? 0 then Ok 0
               else
                 v ← mul256 position price;
                 userAaplValueInUsd ←
                   div256 v (10 ^ (AAPL_DECIMALS + PRICE_DECIMALS
                                   - USDC_DECIMALS));
                 if userAaplValueInUsd =? 0 then Ok MAX_UINT256
                 else scaled ← mul256 collateral 100;
                      div256 scaled userAaplValueInUsd)
              ≫= (fun ratio =>
                     Ok ((0 <? ratio) && (ratio <? LIQUIDATION_THRESHOLD)))
              = Ok true ->
              0 < value /\ value <= 100 * collateral < 120 * value).
    { destruct (Z.leb_spec price 0) as [| Hp]; [done |].
      unfold mul256, div256.
      change (10 ^ (AAPL_DECIMALS + PRICE_DECIMALS - USDC_DECIMALS))
        with (10 ^ 20).
      destruct (position * price <=? MAX_UINT256); [| done].
      cbn [mbind result_bind].
      change (10 ^ 20 =? 0) with false. cbn [mbind result_bind].
      fold value.
      destruct (Z.eqb_spec value 0) as [| Hv]; [done |].
      destruct (collateral * 100 <=? MAX_UINT256); [| done].
      cbn [mbind result_bind].
      destruct (Z.eqb_spec value 0) as [| _]; [done |].
      cbn [mbind result_bind]. intros H. injection H as H.
      apply andb_true_iff in H as [Hlo Hhi].
      apply Z.ltb_lt in Hlo, Hhi. unfold LIQUIDATION_THRESHOLD in Hhi.
      assert (0 <= value) by (apply Z.div_pos; [nia | lia]).
      pose proof (Z.mul_div_le (collateral * 100) value).
      pose proof (Z.mul_succ_div_gt (collateral * 100) value).
      nia. }
    destruct (OracleAdapter._lastUpdated (oracle s) =? 0);
      [exact Hbody |].
    destruct (add256 _ _); [exact Hbody | done]. }
  split; [| split].
  - intros H0. unfold canLiquidate, getUserCollateralizationRatio.
    fold position. rewrite H0. reflexivity.
  - exact Hwin.
  - intros Hc H. apply Hwin in H. lia.
Qed.

Lemma mint_moves_collateral_to_stock_witness :
  exists used ev s',
    Deployment.mint0 Deployment.system0 Deployment.WALLET 1100
      Deployment.ALICE (10 ^ 18) = Ok (used, ev, s') /\
    used = 225000000 /\
    ERC20.balanceOf (ledger s') Deployment.USDC Deployment.VAULT
    = ERC20.balanceOf Deployment.ledger0 Deployment.USDC Deployment.VAULT
      - used /\
    ERC20.balanceOf (ledger s') Deployment.USDC Deployment.STOCK
    = ERC20.balanceOf Deployment.ledger0 Deployment.USDC Deployment.STOCK
      + used.
Proof.
  destruct (Deployment.mint0 Deployment.system0 Deployment.WALLET 1100
              Deployment.ALICE (10 ^ 18)) as [[[used ev] s'] |] eqn:E;
    [| vm_compute in E; discriminate E].
  exists used, ev, s'. split; [reflexivity |].
  destruct (mint_moves_collateral_to_stock Deployment.USDC Deployment.AAPL
              Deployment.VAULT Deployment.STOCK Deployment.system0
              Deployment.WALLET 1100 Deployment.ALICE (10 ^ 18) used ev s')
    as (Hused & _ & _ & _ & _ & _ & Hvault & Hstock & _).
  - discriminate.
  - discriminate.
  - exact E.
  - split; [rewrite Hused; reflexivity |]. split; [exact Hvault | exact Hstock].
Defined.

Lemma withdrawFees_reaches_mint_collateral_witness :
  exists used ev s' l'',
    Deployment.mint0 Deployment.system0 Deployment.WALLET 1100
      Deployment.ALICE (10 ^ 18) = Ok (used, ev, s') /\
    withdrawFees Deployment.USDC Deployment.STOCK (stock s') (ledger s')
      Deployment.ADMIN Deployment.ADMIN used = Ok l'' /\
    ERC20.balanceOf l'' Deployment.USDC Deployment.ADMIN
    = ERC20.balanceOf (ledger s') Deployment.USDC Deployment.ADMIN + used.
Proof.
  destruct (Deployment.mint0 Deployment.system0 Deployment.WALLET 1100
              Deployment.ALICE (10 ^ 18)) as [[[used ev] s'] |] eqn:E;
    [| vm_compute in E; discriminate E].
  destruct (withdrawFees_reaches_mint_collateral Deployment.USDC
              Deployment.AAPL Deployment.VAULT Deployment.STOCK
              Deployment.system0 Deployment.WALLET 1100 Deployment.ALICE
              (10 ^ 18) used ev s' Deployment.ADMIN Deployment.ADMIN used)
    as [Hpay _].
  - discriminate.
  - discriminate.
  - exact E.
  - cbn. set_solver.
  - discriminate.
  - discriminate.
  - destruct Hpay as (l'' & Hw & Hrec & _).
    + change (ERC20.balanceOf (ledger Deployment.system0) Deployment.USDC
                Deployment.STOCK) with 0. lia.
    + exists used, ev, s', l''. split; [reflexivity |].
      split; [exact Hw | exact Hrec].
Defined.

Lemma redeem_returns_at_most_mint_collateral_witness :
  exists used ev s1 ret ev' s2,
    Deployment.mint0 Deployment.system0 Deployment.WALLET 1100
      Deployment.ALICE (10 ^ 18) = Ok (used, ev, s1) /\
    Deployment.redeem0 s1 Deployment.WALLET 1500 Deployment.ALICE
      (5 * 10 ^ 17) = Ok (ret, ev', s2) /\
    0 < ret <= used.
Proof.
  destruct (Deployment.mint0 Deployment.system0 Deployment.WALLET 1100
              Deployment.ALICE (10 ^ 18)) as [[[used ev] s1] |] eqn:E1;
    [| vm_compute in E1; discriminate E1].
  destruct (Deployment.redeem0 s1 Deployment.WALLET 1500 Deployment.ALICE
              (5 * 10 ^ 17)) as [[[ret ev'] s2] |] eqn:E2.
  - exists used, ev, s1, ret, ev', s2.
    split; [reflexivity |]. split; [exact E2 |].
    apply (redeem_returns_at_most_mint_collateral Deployment.USDC
             Deployment.AAPL Deployment.VAULT Deployment.STOCK
             Deployment.system0 Deployment.WALLET 1100 Deployment.ALICE
             (10 ^ 18) used ev s1 Deployment.WALLET 1500 Deployment.ALICE
             (5 * 10 ^ 17) ret ev' s2 E1 E2).
    + vm_compute. discriminate.
    + vm_compute. discriminate.
  - vm_compute in E1. injection E1 as <- <- <-.
    vm_compute in E2. discriminate E2.
Defined.

Lemma fees_never_exceed_a_tenth_witness :
  exists used ev s',
    SyntheticStock.mint Deployment.USDC Deployment.AAPL Deployment.VAULT
      Deployment.STOCK
      (run Deployment.USDC Deployment.AAPL Deployment.VAULT Deployment.STOCK
         Deployment.system0 Deployment.demo_txs)
      Deployment.WALLET 1600 Deployment.ALICE (10 ^ 17) = Ok (used, ev, s') /\
    exists price fee,
      ev = Minted Deployment.ALICE used (10 ^ 17 - fee) price fee /\
      0 <= fee /\ 10 * fee <= 10 ^ 17.
Proof.
  destruct (SyntheticStock.mint Deployment.USDC Deployment.AAPL
              Deployment.VAULT Deployment.STOCK
              (run Deployment.USDC Deployment.AAPL Deployment.VAULT
                 Deployment.STOCK Deployment.system0 Deployment.demo_txs)
              Deployment.WALLET 1600 Deployment.ALICE (10 ^ 17))
    as [[[used ev] s'] |] eqn:E; [| vm_compute in E; discriminate E].
  exists used, ev, s'. split; [reflexivity |].
  destruct (fees_never_exceed_a_tenth Deployment.USDC Deployment.AAPL
              Deployment.VAULT Deployment.STOCK Deployment.system0
              Deployment.demo_txs Deployment.WALLET 1600 Deployment.ALICE
              (10 ^ 17)) as [Hmint _].
  - vm_compute. repeat split; discriminate.
  - unfold Deployment.demo_txs.
    repeat (apply List.Forall_cons; [ | ]); try apply List.Forall_nil;
      vm_compute; repeat split; congruence.
  - exact (Hmint used ev s' E).
Defined.

Lemma canLiquidate_window_witness :
  let s := run Deployment.USDC Deployment.AAPL Deployment.VAULT
             Deployment.STOCK Deployment.system0
             (take 1 Deployment.demo_txs) in
  canLiquidate s 1100 Deployment.ALICE = Ok true /\
  100 * CollateralVault.getUserCollateral (collateralVault s)
          Deployment.ALICE
  < 120 * (mget (userAaplBalance (stock s)) Deployment.ALICE
           * OracleAdapter._latestPrice (oracle s) / 10 ^ 20).
Proof.
  intros s.
  assert (Hyes : canLiquidate s 1100 Deployment.ALICE = Ok true)
    by (vm_compute; reflexivity).
  split; [exact Hyes |].
  destruct (canLiquidate_window s 1100 Deployment.ALICE) as (_ & Hwin & _).
  - vm_compute. discriminate.
  - apply Hwin in Hyes. lia.
Defined.

End MintRedeemProofs.

(** ** SyntheticStock: supply, positions and the solvency view *)

Module CirculationProofs.
Import SyntheticStock ERC20Proofs CollateralVaultProofs SyntheticStockProofs
       MintRedeemProofs.

Lemma transfer_totalSupply l token from to value l' token' :
  ERC20.transfer l token from to value = Ok l' ->
  ERC20.totalSupply l' token' = ERC20.totalSupply l token'.
Proof.
  unfold ERC20.transfer. intros H. case_match; simplify_eq. reflexivity.
Qed.

Section System.
Variables (usdcToken aaplAddr vaultAddr self : address).

Local Abbreviation exec := (SyntheticStock.exec usdcToken aaplAddr vaultAddr self).
Local Abbreviation run := (SyntheticStock.run usdcToken aaplAddr vaultAddr self).
Local Abbreviation backed s :=
  (ERC20.totalSupply (ledger s) aaplAddr = totalPositions (stock s)).

Lemma exec_backed s sender now c s' :
  exec s sender now c = Ok s' -> backed s -> backed s'.
Proof.
  intros H Hb. destruct c; cbn [SyntheticStock.exec] in H.
  - apply fmap_ok_inv in H as ([l' v'] & H & ->). cbn.
    apply (depositCollateral_effect usdcToken aaplAddr vaultAddr) in H
      as (_ & _ & _ & _ & ->). exact Hb.
  - apply fmap_ok_inv in H as ([l' v'] & H & ->). cbn.
    apply (withdrawCollateral_effect usdcToken aaplAddr vaultAddr) in H
      as (_ & _ & _ & _ & ->). exact Hb.
  - apply fmap_ok_inv in H as ([l' v'] & H & ->). cbn.
    unfold CollateralVault.emergencyWithdraw in H. binds_inv H.
    simplify_eq.
    match goal with E : ERC20.transfer _ _ _ _ _ = Ok _ |- _ =>
      rewrite (transfer_totalSupply _ _ _ _ _ _ aaplAddr E) end.
    exact Hb.
  - apply fmap_ok_inv in H as ([[r ev] s1] & H & ->).
    unfold mint in H. binds_inv H. simplify_eq. cbn.
    repeat match goal with
           | E : add256 _ _ = Ok _ |- _ => apply add256_inv in E as [-> ?]
           | E : CollateralVault.withdrawCollateral _ _ _ _ _ _ _ _ = Ok _
             |- _ =>
               apply (withdrawCollateral_effect usdcToken aaplAddr
                        vaultAddr) in E as (_ & _ & _ & _ & Hs)
           | E : AAPLToken.mint _ _ _ _ _ _ = Ok _ |- _ =>
               apply (token_mint_effect aaplAddr) in E as (_ & _ & Hs')
           end.
    unfold totalPositions in *. cbn.
    rewrite sumCollateral_insert, Hs', Hs, Hb. lia.
  - apply fmap_ok_inv in H as ([[r ev] s1] & H & ->).
    unfold redeem in H. binds_inv H. simplify_eq. cbn.
    repeat match goal with
           | E : sub256 (mget _ _) _ = Ok _ |- _ =>
               apply sub256_inv in E as [-> ?]
           | E : CollateralVault.depositCollateral _ _ _ _ _ _ _ = Ok _
             |- _ =>
               apply (depositCollateral_effect usdcToken aaplAddr
                        vaultAddr) in E as (_ & _ & _ & _ & Hs)
           | E : AAPLToken.burn _ _ _ _ _ _ = Ok _ |- _ =>
               apply (token_burn_effect aaplAddr) in E as (_ & _ & Hs')
           end.
    unfold totalPositions in *. cbn.
    rewrite sumCollateral_insert, Hs.
    change (ERC20.totalSupply (ERC20.approve ?l _ _ _ _) ?t)
      with (ERC20.totalSupply l t).
    rewrite Hs', Hb. lia.
  - apply fmap_ok_inv in H as (v' & H & ->). exact Hb.
  - apply fmap_ok_inv in H as (v' & H & ->). exact Hb.
  - apply fmap_ok_inv in H as (v' & H & ->). exact Hb.
  - apply fmap_ok_inv in H as (st' & H & ->).
    unfold addAAWallet in H. binds_inv H. by simplify_eq.
  - apply fmap_ok_inv in H as (st' & H & ->).
    unfold updateFees in H. binds_inv H. by simplify_eq.
  - apply fmap_ok_inv in H as (o' & H & ->). exact Hb.
  - simplify_eq. exact Hb.
  - apply fmap_ok_inv in H as (l' & H & ->). cbn.
    by rewrite (transfer_totalSupply _ _ _ _ _ _ aaplAddr H).
Qed.

Lemma run_backed s txs : backed s -> backed (run s txs).
Proof.
  revert s. unfold SyntheticStock.run.
  induction txs as [| [[sender now] c] txs IH]; intros s Hb; cbn;
    [done |].
  apply IH.
  destruct (exec s sender now c) as [s' |] eqn:E; cbn; [| done].
  eapply exec_backed; eauto.
Qed.

End System.

(** X24: what [isSystemSolvent] compares.  With no supply the system
    counts as solvent; with a non-positive stored price it never
    does; otherwise the answer is yes exactly when the supply's value
    at the stored price rounds to zero or 100 times the vault's
    tracked total reaches 150 times that value. *)
Theorem isSystemSolvent_threshold aaplAddr s now answer :
  let supply := ERC20.totalSupply (ledger s) aaplAddr in
  let price := OracleAdapter._latestPrice (oracle s) in
  let value := supply * price / 10 ^ 20 in
  let total := CollateralVault.getTotalCollateral (collateralVault s) in
  0 <= supply ->
  isSystemSolvent aaplAddr s now = Ok answer ->
  (supply = 0 -> answer = true) /\
  (0 < supply -> price <= 0 -> answer = false) /\
  (0 < supply -> 0 < price ->
   answer = true <-> (value = 0 \/ 150 * value <= 100 * total)).
Proof.
  intros supply price value total Hsupply.
  unfold isSystemSolvent, getSystemCollateralizationRatio.
  fold supply. fold total.
  destruct (Z.eqb_spec supply 0) as [Hz | Hnz].
  { cbn. intros H. injection H as <-. repeat split; try lia; done. }
  assert (Hbody :
            (if price <=? 0 then Ok 0
             else
               v ← mul256 supply price;
               totalAaplValueInUsd ←
                 div256 v (10 ^ (AAPL_DECIMALS + PRICE_DECIMALS
                                 - USDC_DECIMALS));
               if totalAaplValueInUsd =? 0 then Ok MAX_UINT256
               else scaled ← mul256 total 100;
                    div256 scaled totalAaplValueInUsd)
            ≫= (fun ratio => Ok (COLLATERAL_RATIO <=? ratio))
            = Ok answer ->
            (supply = 0 -> answer = true) /\
            (0 < supply -> price <= 0 -> answer = false) /\
            (0 < supply -> 0 < price ->
             answer = true <-> (value = 0 \/ 150 * value <= 100 * total))).
  { destruct (Z.leb_spec price 0) as [Hp | Hp].
    { cbn. intros H. injection H as <-. repeat split; try lia; done. }
    unfold mul256, div256.
    change (10 ^ (AAPL_DECIMALS + PRICE_DECIMALS - USDC_DECIMALS))
      with (10 ^ 20).
    destruct (supply * price <=? MAX_UINT256); [| done].
    cbn [mbind result_bind].
    change (10 ^ 20 =? 0) with false. cbn [mbind result_bind].
    fold value.
    assert (0 <= value) by (apply Z.div_pos; [nia | lia]).
    destruct (Z.eqb_spec value 0) as [Hv | Hv].
    { cbn. intros Hans. injection Hans as <-.
      split; [done |]. split; [lia |]. intros _ _. split; [by left | done]. }
    destruct (total * 100 <=? MAX_UINT256); [| done].
    cbn [mbind result_bind].
    destruct (Z.eqb_spec value 0) as [| _]; [done |].
    cbn [mbind result_bind]. intros Hans. injection Hans as <-.
    unfold COLLATERAL_RATIO.
    split; [lia |]. split; [lia |]. intros _ _.
    pose proof (Z.mul_div_le (total * 100) value).
    pose proof (Z.mul_succ_div_gt (total * 100) value).
    rewrite Z.leb_le. split.
    - intros Hr. right. nia.
    - intros [Hz' | Hr]; [lia |]. nia. }
  unfold OracleAdapter.getPriceUnsafe.
  destruct (OracleAdapter._lastUpdated (oracle s) =? 0); [exact Hbody |].
  destruct (add256 _ _); [exact Hbody | done].
Qed.

Lemma isSystemSolvent_threshold_witness :
  let s := run Deployment.USDC Deployment.AAPL Deployment.VAULT
             Deployment.STOCK Deployment.system0
             (take 1 Deployment.demo_txs) in
  isSystemSolvent Deployment.AAPL s 1100 = Ok false /\
  ~ (150 * (ERC20.totalSupply (ledger s) Deployment.AAPL
            * OracleAdapter._latestPrice (oracle s) / 10 ^ 20)
     <= 100 * CollateralVault.getTotalCollateral (collateralVault s)).
Proof.
  intros s.
  assert (Hno : isSystemSolvent Deployment.AAPL s 1100 = Ok false)
    by (vm_compute; reflexivity).
  split; [exact Hno |].
  destruct (isSystemSolvent_threshold Deployment.AAPL s 1100 false)
    as (_ & _ & Hiff).
  - vm_compute. discriminate.
  - exact Hno.
  - intros Hle. assert (false = true); [| discriminate].
    apply Hiff; [vm_compute; reflexivity | vm_compute; reflexivity |].
    right. exact Hle.
Defined.
End CirculationProofs.

(** ** SmartAccount: recovery and batches *)

Module SmartAccountProofs.
Import SmartAccount Scenarios.

(** *** The confirmation flags only ever grow *)

Lemma exec_confirmed_mono st sender now c st' g :
  exec st sender now c = Ok st' ->
  g ∈ confirmed (activeRecovery st) ->
  g ∈ confirmed (activeRecovery st').
Proof.
  intros H Hg. destruct c; cbn [exec] in H.
  - unfold initiateRecovery in H. binds_inv H. injection H as <-.
    cbn. set_solver.
  - unfold confirmRecovery in H. binds_inv H; injection H as <-;
      cbn; set_solver.
  - unfold cancelRecovery in H. binds_inv H. injection H as <-. exact Hg.
  - unfold grantSessionKey in H. binds_inv H. injection H as <-. exact Hg.
  - unfold revokeSessionKey in H. binds_inv H. injection H as <-. exact Hg.
  - unfold grantGuardianRole in H. binds_inv H. injection H as <-. exact Hg.
  - unfold revokeGuardianRole in H. binds_inv H. injection H as <-. exact Hg.
  - unfold pause in H. binds_inv H. injection H as <-. exact Hg.
  - unfold unpause in H. binds_inv H. injection H as <-. exact Hg.
Qed.

Lemma transact_confirmed_mono st tx g :
  g ∈ confirmed (activeRecovery st) ->
  g ∈ confirmed (activeRecovery (transact st tx)).
Proof.
  destruct tx as [[sender now] c]. unfold transact. intros Hg.
  destruct (exec st sender now c) as [st' |] eqn:E; cbn; [| done].
  eapply exec_confirmed_mono; eauto.
Qed.

Lemma run_confirmed_mono txs st g :
  g ∈ confirmed (activeRecovery st) ->
  g ∈ confirmed (activeRecovery (run st txs)).
Proof.
  revert st. unfold run.
  induction txs as [| tx txs IH]; intros st Hg; cbn; [done |].
  apply IH. by apply transact_confirmed_mono.
Qed.

(** A successful initiation or confirmation flags its sender. *)
Lemma initiateRecovery_flags st g now newOwner_ st' :
  initiateRecovery st g now newOwner_ = Ok st' ->
  g ∈ confirmed (activeRecovery st').
Proof.
  unfold initiateRecovery. intros H. binds_inv H. injection H as <-.
  cbn. set_solver.
Qed.

Lemma confirmRecovery_flags st g now st' :
  confirmRecovery st g now = Ok st' ->
  g ∈ confirmed (activeRecovery st').
Proof.
  unfold confirmRecovery. intros H.
  binds_inv H; injection H as <-; cbn; set_solver.
Qed.

(** A flagged guardian cannot confirm. *)
Lemma confirmRecovery_flagged st g now :
  g ∈ confirmed (activeRecovery st) ->
  is_ok (confirmRecovery st g now) = false /\
  (g ∈ guardianRole st ->
   0 < deadline (activeRecovery st) ->
   now < deadline (activeRecovery st) ->
   confirmRecovery st g now
   = Err (Revert "SmartAccount: already confirmed")).
Proof.
  intros Hg. unfold confirmRecovery.
  rewrite (bool_decide_eq_true_2 _ Hg). split.
  - destruct (onlyRole _ _ _); [| reflexivity]. cbn [mbind result_bind].
    destruct (require (0 <? _) _); [| reflexivity]. cbn [mbind result_bind].
    destruct (require (now <? _) _); reflexivity.
  - intros Hrole Hopen Hlive.
    rewrite onlyRole_ok by done. cbn [mbind result_bind].
    replace (0 <? deadline (activeRecovery st)) with true
      by (symmetry; apply Z.ltb_lt; done).
    replace (now <? deadline (activeRecovery st)) with true
      by (symmetry; apply Z.ltb_lt; done).
    reflexivity.
Qed.

(** C9: once a guardian has initiated or confirmed a recovery, its flag
    survives every later call -- executions and cancellations included
    -- so no later [confirmRecovery] by it succeeds, and on any later
    proposal that is still open the call reverts with "already
    confirmed". *)
Theorem guardian_flag_is_permanent st g now0 c st1 txs now :
  (c = ConfirmRecovery \/ exists newOwner_, c = InitiateRecovery newOwner_) ->
  exec st g now0 c = Ok st1 ->
  let st' := run st1 txs in
  g ∈ confirmed (activeRecovery st') /\
  is_ok (confirmRecovery st' g now) = false /\
  (g ∈ guardianRole st' ->
   0 < deadline (activeRecovery st') ->
   now < deadline (activeRecovery st') ->
   confirmRecovery st' g now
   = Err (Revert "SmartAccount: already confirmed")).
Proof.
  intros Hc Hexec st'.
  assert (Hg1 : g ∈ confirmed (activeRecovery st1)).
  { destruct Hc as [-> | [newOwner_ ->]]; cbn [exec] in Hexec.
    - eapply confirmRecovery_flags; eauto.
    - eapply initiateRecovery_flags; eauto. }
  assert (Hg : g ∈ confirmed (activeRecovery st'))
    by (by apply run_confirmed_mono).
  split; [exact Hg | by apply confirmRecovery_flagged].
Qed.

(** *** The threshold on a clean record *)

(** After the initiating guardian alone has confirmed, the owner is
    who it was. *)
Lemma initiateRecovery_keeps_owner st g now newOwner_ st' :
  initiateRecovery st g now newOwner_ = Ok st' ->
  owner st' = owner st /\
  confirmations (activeRecovery st') = 1 /\
  newOwner (activeRecovery st') = newOwner_ /\
  deadline (activeRecovery st') = now + RECOVERY_PERIOD.
Proof.
  unfold initiateRecovery. intros H. binds_inv H. injection H as <-.
  match goal with E : add256 _ _ = Ok _ |- _ =>
    apply add256_inv in E as [-> _] end.
  cbn. repeat split.
Qed.

(** A guardian whose flag is clear completes an open proposal that has
    one confirmation: the owner becomes the proposed one and the
    proposal is cleared. *)
Lemma confirmRecovery_executes st g now :
  g ∈ guardianRole st ->
  0 < deadline (activeRecovery st) ->
  now < deadline (activeRecovery st) ->
  g ∉ confirmed (activeRecovery st) ->
  confirmations (activeRecovery st) = 1 ->
  exists st',
    confirmRecovery st g now = Ok st' /\
    owner st' = newOwner (activeRecovery st) /\
    deadline (activeRecovery st') = 0 /\
    confirmations (activeRecovery st') = 0.
Proof.
  intros Hrole Hopen Hlive Hclear Hone. unfold confirmRecovery.
  rewrite onlyRole_ok by done. cbn [mbind result_bind].
  replace (0 <? deadline (activeRecovery st)) with true
    by (symmetry; apply Z.ltb_lt; done).
  replace (now <? deadline (activeRecovery st)) with true
    by (symmetry; apply Z.ltb_lt; done).
  rewrite (bool_decide_eq_false_2 _ Hclear).
  cbn [negb require mbind result_bind].
  rewrite Hone. change (add256 1 1) with (Ok (A:=Z) 2).
  cbn [mbind result_bind].
  change (GUARDIAN_THRESHOLD <=? 2) with true. cbv iota.
  eexists. split; [reflexivity |]. cbn. repeat split.
Qed.

(** *** The recovery that a stale flag blocks *)

Lemma account0_constructed :
  constructor 100 [11; 12; 13] = Ok account0.
Proof. reflexivity. Qed.

(** C4 fails on the code: in the state after [stale_history] the open
    proposal has exactly one confirmation (guardian 12's), guardian 11
    is a different guardian and calls before the deadline, and yet its
    [confirmRecovery] reverts and the owner stays 100. *)
Theorem second_guardian_blocked_by_stale_flag :
  let st := run account0 stale_history in
  reachable st /\
  owner st = 100 /\
  newOwner (activeRecovery st) = 300 /\
  confirmations (activeRecovery st) = 1 /\
  deadline (activeRecovery st) = 10 + RECOVERY_PERIOD /\
  11 ∈ guardianRole st /\
  confirmRecovery st 11 20
  = Err (Revert "SmartAccount: already confirmed") /\
  owner (transact st (11, 20, ConfirmRecovery)) = 100 /\
  deadline (activeRecovery (transact st (11, 20, ConfirmRecovery)))
  = 10 + RECOVERY_PERIOD.
Proof.
  intros st. split.
  { exists 100, [11; 12; 13], account0, stale_history.
    split; [exact account0_constructed | reflexivity]. }
  assert (Hflag : 11 ∈ confirmed (activeRecovery st)).
  { apply (bool_decide_unpack _). vm_compute. exact I. }
  assert (Hrole : 11 ∈ guardianRole st) by (cbn; set_solver).
  assert (Herr : confirmRecovery st 11 20
                 = Err (Revert "SmartAccount: already confirmed")).
  { apply confirmRecovery_flagged; [exact Hflag | exact Hrole | |];
      vm_compute; reflexivity. }
  repeat split; try reflexivity; try exact Hrole; exact Herr.
Qed.

(** The same second proposal is completed by guardian 13, whose flag
    is clear. *)
Example clean_guardian_completes :
  let st := run account0 stale_history in
  owner (transact st (13, 20, ConfirmRecovery)) = 300 /\
  deadline (activeRecovery (transact st (13, 20, ConfirmRecovery))) = 0.
Proof. vm_compute. split; reflexivity. Qed.

Lemma guardian_flag_is_permanent_witness :
  let st' := run (commit account0 (exec account0 11 0 (InitiateRecovery 200)))
                 [ (100, 5, CancelRecovery);
                   (12, 10, InitiateRecovery 300) ] in
  11 ∈ confirmed (activeRecovery st') /\
  is_ok (confirmRecovery st' 11 20) = false /\
  confirmRecovery st' 11 20
  = Err (Revert "SmartAccount: already confirmed").
Proof.
  intros st'.
  destruct (guardian_flag_is_permanent account0 11 0 (InitiateRecovery 200)
              (commit account0 (exec account0 11 0 (InitiateRecovery 200)))
              [ (100, 5, CancelRecovery); (12, 10, InitiateRecovery 300) ]
              20)
    as (Hflag & Hfail & Herr).
  - right. exists 200. reflexivity.
  - reflexivity.
  - split; [exact Hflag |]. split; [exact Hfail |].
    apply Herr.
    + cbn. set_solver.
    + vm_compute. reflexivity.
    + vm_compute. reflexivity.
Defined.

(** *** executeBatch *)

Section Batch.
Context {W : Type}.
Variable lowLevelCall :
  address -> Z -> list Byte.byte -> W -> option W * list Byte.byte.

Lemma batchLoop_length targets values callData w :
  length targets = length values ->
  length values = length callData ->
  length (batchLoop lowLevelCall targets values callData w).1.1
  = length targets.
Proof.
  revert values callData w.
  induction targets as [| t targets IH];
    intros [| v values] [| d callData] w Hv Hd; try discriminate;
    cbn in *; [reflexivity |].
  destruct (lowLevelCall t v d w) as [[w' |] ret];
    match goal with
    | |- context [batchLoop _ _ _ _ ?w0] =>
        specialize (IH values callData w0 ltac:(lia) ltac:(lia));
        destruct (batchLoop lowLevelCall targets values callData w0)
          as [[flags rets] w2]
    end; cbn in *; lia.
Qed.

(** An authorised, well-formed batch never reverts, whatever its
    sub-calls do. *)
Lemma executeBatch_total st sender now targets values callData w :
  onlyOwnerOrSession st sender now = Ok tt ->
  paused st = false ->
  length targets = length values ->
  length values = length callData ->
  executeBatch lowLevelCall st sender now targets values callData w
  = Ok (batchLoop lowLevelCall targets values callData w).
Proof.
  intros Hauth Hpaused Hv Hd. unfold executeBatch.
  rewrite Hauth, Hpaused. cbn [whenNotPaused mbind result_bind].
  rewrite Hv, Hd, Nat.eqb_refl. reflexivity.
Qed.

(** C5: a three-call batch whose second call fails and whose first
    and third succeed does not revert; it returns the flags
    [true; false; true] with the three return blobs, and the outside
    state is the one the first and third calls produced, the third
    having run on the state the first left. *)
Theorem executeBatch_not_atomic st sender now
        t1 t2 t3 v1 v2 v3 d1 d2 d3 w r1 r2 r3 w1 w3 :
  onlyOwnerOrSession st sender now = Ok tt ->
  paused st = false ->
  lowLevelCall t1 v1 d1 w = (Some w1, r1) ->
  lowLevelCall t2 v2 d2 w1 = (None, r2) ->
  lowLevelCall t3 v3 d3 w1 = (Some w3, r3) ->
  executeBatch lowLevelCall st sender now
    [t1; t2; t3] [v1; v2; v3] [d1; d2; d3] w
  = Ok ([true; false; true], [r1; r2; r3], w3).
Proof.
  intros Hauth Hpaused H1 H2 H3. unfold executeBatch.
  rewrite Hauth, Hpaused. cbn. rewrite H1, H2, H3. reflexivity.
Qed.
End Batch.

Lemma executeBatch_not_atomic_witness :
  executeBatch counterCall account0 100 50
    [1; 7; 1] [5; 6; 7] [[]; []; []] 0
  = Ok ([true; false; true], [[]; []; []], 12).
Proof.
  apply (executeBatch_not_atomic counterCall account0 100 50
           1 7 1 5 6 7 [] [] [] 0 [] [] [] 5 12).
  - reflexivity.
  - reflexivity.
  - reflexivity.
  - reflexivity.
  - reflexivity.
Defined.

End SmartAccountProofs.

(** ** SmartAccount: session keys, recovery and the mint ceiling *)

Module AccountLifecycleProofs.
Import SmartAccount Scenarios.

Lemma getPriceUnsafe_price st now price updated stale :
  OracleAdapter.getPriceUnsafe st now = Ok (price, updated, stale) ->
  price = OracleAdapter._latestPrice st.
Proof.
  unfold OracleAdapter.getPriceUnsafe. intros H.
  destruct (_ =? 0); [by simplify_eq |].
  destruct (add256 _ _); cbn in H; by simplify_eq.
Qed.


(** X14: the life of a session key.  A key the owner grants at time
    [now] passes [onlyOwnerOrSession] exactly at the times before
    [now + 7 days]; once revoked it passes at no time. *)
Theorem session_key_window st sender now key st' :
  grantSessionKey st sender now key = Ok st' ->
  key <> owner st ->
  (forall t,
      is_ok (onlyOwnerOrSession st' key t)
      = (t <? now + SESSION_KEY_DURATION)) /\
  (forall sender' st'' t,
      revokeSessionKey st' sender' key = Ok st'' ->
      onlyOwnerOrSession st'' key t
      = Err (Revert "SmartAccount: unauthorized")).
Proof.
  unfold grantSessionKey. intros H Hkey. binds_inv H. injection H as <-.
  match goal with E : add256 _ _ = Ok _ |- _ =>
    apply add256_inv in E as [-> _] end.
  assert (Hne : (key =? owner st) = false) by (by apply Z.eqb_neq).
  split.
  - intros t. unfold onlyOwnerOrSession. cbn. rewrite Hne, mget_insert_eq.
    rewrite bool_decide_eq_true_2 by set_solver.
    cbn. by destruct (t <? now + SESSION_KEY_DURATION).
  - intros sender' st'' t H. unfold revokeSessionKey in H.
    binds_inv H. simplify_eq.
    unfold onlyOwnerOrSession. cbn. rewrite Hne.
    rewrite bool_decide_eq_false_2; [reflexivity |].
    intros Hin. apply elem_of_difference in Hin as [_ Hin].
    apply Hin. by apply elem_of_singleton.
Qed.

Lemma session_key_window_witness :
  let st' := commit account0 (grantSessionKey account0 100 1000 55) in
  is_ok (onlyOwnerOrSession st' 55 (1000 + SESSION_KEY_DURATION - 1)) = true /\
  is_ok (onlyOwnerOrSession st' 55 (1000 + SESSION_KEY_DURATION)) = false.
Proof.
  intros st'.
  destruct (session_key_window account0 100 1000 55 st') as [Hwin _].
  - reflexivity.
  - discriminate.
  - rewrite !Hwin. split; reflexivity.
Defined.

(** X15: what an executed recovery hands over.  When a confirmation
    changes the owner, the new owner is the proposed one and replaces
    the old one as admin; the old owner is refused by every owner-only
    entry point; the session keys and their expiry times are not
    touched, so a key the old owner granted keeps passing
    [onlyOwnerOrSession]. *)
Theorem recovery_hands_over st g now st' :
  confirmRecovery st g now = Ok st' ->
  owner st' <> owner st ->
  owner st' = newOwner (activeRecovery st) /\
  (owner st' ∈ adminRole st') /\
  (owner st ∉ adminRole st') /\
  (forall t key,
      grantSessionKey st' (owner st) t key
      = Err (Revert "SmartAccount: only owner")) /\
  (forall key,
      revokeSessionKey st' (owner st) key
      = Err (Revert "SmartAccount: only owner")) /\
  cancelRecovery st' (owner st) = Err (Revert "SmartAccount: only owner") /\
  unpause st' (owner st) = Err (Revert "SmartAccount: only owner") /\
  (forall key t,
      key <> owner st ->
      onlyOwnerOrSession st key t = Ok tt ->
      onlyOwnerOrSession st' key t = Ok tt).
Proof.
  unfold confirmRecovery. intros H Hchanged.
  binds_inv H; simplify_eq; cbn in Hchanged; try done.
  cbn [owner newOwner activeRecovery adminRole].
  assert (Hne : (owner st =? newOwner (activeRecovery st)) = false)
    by (apply Z.eqb_neq; congruence).
  split; [reflexivity |].
  split; [by apply elem_of_union_l, elem_of_singleton |].
  split.
  { intros Hin. apply elem_of_union in Hin as [Hin | Hin].
    - apply elem_of_singleton in Hin. congruence.
    - apply elem_of_difference in Hin as [_ Hin].
      apply Hin. by apply elem_of_singleton. }
  unfold grantSessionKey, revokeSessionKey, cancelRecovery, unpause,
    onlyOwnerOrSession.
  cbn [owner newOwner activeRecovery adminRole sessionKeyRole
       sessionKeyExpiry].
  rewrite Hne. repeat split.
  intros key t Hkey Hpass.
  replace (key =? owner st) with false in Hpass
    by (symmetry; by apply Z.eqb_neq).
  cbn [orb] in Hpass.
  destruct (bool_decide _ && _); [| discriminate Hpass].
  by rewrite orb_true_r.
Qed.

Lemma recovery_hands_over_witness :
  let st := commit account0 (initiateRecovery account0 11 0 200) in
  let st' := commit st (confirmRecovery st 12 10) in
  owner st' = 200 /\
  grantSessionKey st' 100 20 55 = Err (Revert "SmartAccount: only owner").
Proof.
  intros st st'.
  destruct (recovery_hands_over st 12 10 st')
    as (Howner & _ & _ & Hgrant & _).
  - reflexivity.
  - vm_compute. discriminate.
  - split; [exact Howner | exact (Hgrant 20 55)].
Defined.
Local Abbreviation recovery_shape st :=
  ((deadline (activeRecovery st) = 0 /\
    confirmations (activeRecovery st) = 0) \/
   (0 < deadline (activeRecovery st) /\
    confirmations (activeRecovery st) = 1)).

Lemma exec_recovery_shape st sender now c st' :
  0 <= now ->
  exec st sender now c = Ok st' ->
  recovery_shape st -> recovery_shape st'.
Proof.
  intros Hnow H Hshape. destruct c; cbn [exec] in H.
  - unfold initiateRecovery in H. binds_inv H. simplify_eq.
    match goal with E : add256 _ _ = Ok _ |- _ =>
      apply add256_inv in E as [-> _] end.
    cbn. right. unfold RECOVERY_PERIOD. lia.
  - unfold confirmRecovery in H. binds_inv H; simplify_eq; cbn.
    + by left.
    + match goal with E : add256 _ _ = Ok _ |- _ =>
        apply add256_inv in E as [-> _] end.
      repeat match goal with
             | E : require _ _ = Ok _ |- _ => apply require_inv in E
             | E : (_ <? _) = true |- _ => apply Z.ltb_lt in E
             | E : (_ <=? _) = false |- _ => apply Z.leb_gt in E
             end.
      unfold GUARDIAN_THRESHOLD in *. lia.
  - unfold cancelRecovery in H. binds_inv H. simplify_eq. cbn. by left.
  - unfold grantSessionKey in H. binds_inv H. by simplify_eq.
  - unfold revokeSessionKey in H. binds_inv H. by simplify_eq.
  - unfold grantGuardianRole in H. binds_inv H. by simplify_eq.
  - unfold revokeGuardianRole in H. binds_inv H. by simplify_eq.
  - unfold pause in H. binds_inv H. by simplify_eq.
  - unfold unpause in H. binds_inv H. by simplify_eq.
Qed.

Lemma run_recovery_shape st txs :
  Forall (fun tx : address * Z * call => 0 <= tx.1.2) txs ->
  recovery_shape st -> recovery_shape (run st txs).
Proof.
  intros Htxs. revert st. unfold run.
  induction Htxs as [| [[sender now] c] txs Hnow _ IH]; intros st Hs;
    cbn; [done |].
  apply IH.
  destruct (exec st sender now c) as [st' |] eqn:E; cbn; [| done].
  eapply exec_recovery_shape; eauto.
Qed.

(** X16: one confirmation completes a recovery.  In every state an
    account reaches from its constructor (block times are not
    negative) an open proposal carries exactly the proposer's vote, so
    every [confirmRecovery] that is accepted installs the proposed
    owner and closes the proposal at once. *)
Theorem one_confirmation_completes _owner _guardians st0 txs :
  constructor _owner _guardians = Ok st0 ->
  Forall (fun tx : address * Z * call => 0 <= tx.1.2) txs ->
  let st := run st0 txs in
  confirmations (activeRecovery st)
  = (if deadline (activeRecovery st) =? 0 then 0 else 1) /\
  forall g now st',
    confirmRecovery st g now = Ok st' ->
    owner st' = newOwner (activeRecovery st) /\
    deadline (activeRecovery st') = 0 /\
    confirmations (activeRecovery st') = 0.
Proof.
  intros Hc Htxs st.
  assert (Hshape : recovery_shape st).
  { apply run_recovery_shape; [done |].
    unfold constructor in Hc. binds_inv Hc. simplify_eq. cbn. by left. }
  split.
  - destruct Hshape as [[-> ->] | [Hd ->]]; [reflexivity |].
    destruct (Z.eqb_spec (deadline (activeRecovery st)) 0); [lia | done].
  - intros g now st' H. unfold confirmRecovery in H.
    binds_inv H; simplify_eq; cbn; [done |].
    match goal with E : add256 _ _ = Ok _ |- _ =>
      apply add256_inv in E as [-> _] end.
    repeat match goal with
           | E : require _ _ = Ok _ |- _ => apply require_inv in E
           | E : (_ <? _) = true |- _ => apply Z.ltb_lt in E
           | E : (_ <=? _) = false |- _ => apply Z.leb_gt in E
           end.
    unfold GUARDIAN_THRESHOLD in *. lia.
Qed.

Lemma one_confirmation_completes_witness :
  let st := run account0 stale_history in
  confirmations (activeRecovery st)
  = (if deadline (activeRecovery st) =? 0 then 0 else 1) /\
  forall g now st',
    confirmRecovery st g now = Ok st' ->
    owner st' = newOwner (activeRecovery st) /\
    deadline (activeRecovery st') = 0 /\
    confirmations (activeRecovery st') = 0.
Proof.
  apply (one_confirmation_completes 100 [11; 12; 13] account0
           stale_history).
  - reflexivity.
  - unfold stale_history. repeat constructor; cbn; lia.
Defined.

Lemma exec_expired_blocked st sender now c st' :
  exec st sender now c = Ok st' ->
  sender <> owner st ->
  0 < deadline (activeRecovery st) ->
  deadline (activeRecovery st) <= now ->
  activeRecovery st' = activeRecovery st /\ owner st' = owner st.
Proof.
  intros H Hsender Hopen Hlate.
  assert (Hne : (sender =? owner st) = false) by (by apply Z.eqb_neq).
  destruct c; cbn [exec] in H.
  - unfold initiateRecovery in H. binds_inv H.
    repeat match goal with
           | E : require _ _ = Ok _ |- _ => apply require_inv in E
           end.
    lia.
  - unfold confirmRecovery in H. binds_inv H;
      repeat match goal with
             | E : require _ _ = Ok _ |- _ => apply require_inv in E
             end; lia.
  - unfold cancelRecovery in H. rewrite Hne in H. discriminate H.
  - unfold grantSessionKey in H. rewrite Hne in H. discriminate H.
  - unfold revokeSessionKey in H. rewrite Hne in H. discriminate H.
  - unfold grantGuardianRole in H. binds_inv H. by simplify_eq.
  - unfold revokeGuardianRole in H. binds_inv H. by simplify_eq.
  - unfold pause in H. binds_inv H. by simplify_eq.
  - unfold unpause in H. rewrite Hne in H. discriminate H.
Qed.

Lemma run_expired_blocked r o txs s :
  activeRecovery s = r -> owner s = o ->
  0 < deadline r ->
  Forall (fun tx : address * Z * call => tx.1.1 <> o /\ deadline r <= tx.1.2)
         txs ->
  activeRecovery (run s txs) = r /\ owner (run s txs) = o.
Proof.
  intros Hr Ho Hopen Htxs. revert s Hr Ho. unfold run.
  induction Htxs as [| [[sender now] c] txs [Hs Hlate] _ IH];
    intros s Hr Ho; cbn; [done |].
  cbn in Hs, Hlate.
  destruct (exec s sender now c) as [s' |] eqn:E; cbn; [| by apply IH].
  destruct (exec_expired_blocked _ _ _ _ _ E) as [Hr' Ho'];
    [congruence | congruence | congruence |].
  apply IH; congruence.
Qed.

(** X17: an expired proposal blocks recovery.  Once the deadline of an
    open proposal has passed, no call from anyone but the owner
    changes the proposal or the owner again: confirmations revert as
    expired and new proposals as already active, until the owner
    cancels. *)
Theorem expired_proposal_blocks st txs :
  0 < deadline (activeRecovery st) ->
  Forall (fun tx : address * Z * call =>
            tx.1.1 <> owner st /\ deadline (activeRecovery st) <= tx.1.2)
         txs ->
  let st' := run st txs in
  activeRecovery st' = activeRecovery st /\
  owner st' = owner st /\
  forall g now,
    deadline (activeRecovery st) <= now ->
    is_ok (confirmRecovery st' g now) = false /\
    (forall newOwner_,
        is_ok (initiateRecovery st' g now newOwner_) = false) /\
    (g ∈ guardianRole st' ->
     confirmRecovery st' g now
     = Err (Revert "SmartAccount: recovery expired")).
Proof.
  intros Hopen Htxs st'.
  assert (Hsame : activeRecovery st' = activeRecovery st /\
                  owner st' = owner st)
    by (by apply run_expired_blocked).
  destruct Hsame as [Hr Ho]. split; [exact Hr |]. split; [exact Ho |].
  intros g now Hlate.
  unfold confirmRecovery, initiateRecovery. rewrite Hr.
  replace (0 <? deadline (activeRecovery st)) with true
    by (symmetry; by apply Z.ltb_lt).
  replace (now <? deadline (activeRecovery st)) with false
    by (symmetry; apply Z.ltb_ge; lia).
  replace (deadline (activeRecovery st) =? 0) with false
    by (symmetry; apply Z.eqb_neq; lia).
  split; [| split].
  - by destruct (onlyRole _ _ _).
  - intros n. destruct (onlyRole _ _ _); [| done].
    cbn. by destruct (negb _).
  - intros Hg. by rewrite onlyRole_ok.
Qed.

Lemma expired_proposal_blocks_witness :
  let st := run account0 stale_history in
  let st' := run st [ (12, 300000, ConfirmRecovery);
                      (13, 300001, InitiateRecovery 400);
                      (11, 300002, Pause) ] in
  activeRecovery st' = activeRecovery st /\
  owner st' = owner st /\
  confirmRecovery st' 13 300003
  = Err (Revert "SmartAccount: recovery expired").
Proof.
  intros st st'.
  destruct (expired_proposal_blocks st
              [ (12, 300000, ConfirmRecovery);
                (13, 300001, InitiateRecovery 400);
                (11, 300002, Pause) ])
    as (Hr & Ho & Hblocked).
  - vm_compute. reflexivity.
  - repeat constructor; cbn; try discriminate; vm_compute; discriminate.
  - split; [exact Hr |]. split; [exact Ho |].
    destruct (Hblocked 13 300003) as (_ & _ & Hexp).
    + vm_compute. discriminate.
    + apply Hexp. vm_compute. set_solver.
Defined.
End AccountLifecycleProofs.

(** ** Paymaster: the hourly allowance *)

Module PaymasterProofs.
Import Paymaster.

Lemma isRateLimited_same_window st now user gasCost :
  now / RATE_LIMIT_PERIOD <= mget (lastResetTime st) user / RATE_LIMIT_PERIOD ->
  _isRateLimited st now user gasCost
  = total ← add256 (mget (userGasUsed st) user) gasCost;
    Ok (MAX_GAS_PER_HOUR <? total).
Proof.
  intros H. unfold _isRateLimited. cbv zeta.
  destruct (Z.ltb_spec (mget (lastResetTime st) user / RATE_LIMIT_PERIOD)
                       (now / RATE_LIMIT_PERIOD)); [lia | reflexivity].
Qed.

Lemma isRateLimited_new_window st now user gasCost :
  mget (lastResetTime st) user / RATE_LIMIT_PERIOD < now / RATE_LIMIT_PERIOD ->
  _isRateLimited st now user gasCost = Ok false.
Proof.
  intros H. unfold _isRateLimited. cbv zeta.
  destruct (Z.ltb_spec (mget (lastResetTime st) user / RATE_LIMIT_PERIOD)
                       (now / RATE_LIMIT_PERIOD)); [reflexivity | lia].
Qed.

(** Within the window, usage above the cap limits the account; the sum
    overflowing [uint256] reverts instead. *)
Lemma isRateLimited_exhausted st now user gasCost :
  now / RATE_LIMIT_PERIOD <= mget (lastResetTime st) user / RATE_LIMIT_PERIOD ->
  MAX_GAS_PER_HOUR < mget (userGasUsed st) user + gasCost ->
  _isRateLimited st now user gasCost
  = if mget (userGasUsed st) user + gasCost <=? MAX_UINT256
    then Ok true else Err (Panic 17).
Proof.
  intros Hwin Hover. rewrite isRateLimited_same_window by done.
  unfold add256. case_match; [| reflexivity].
  cbn [mbind result_bind]. f_equal. by apply Z.ltb_lt.
Qed.

(** In a new window the usage restarts from the new cost; inside the
    window it accumulates. *)
Lemma updateGasUsage_new_window st now user gasCost :
  mget (lastResetTime st) user / RATE_LIMIT_PERIOD < now / RATE_LIMIT_PERIOD ->
  exists st',
    _updateGasUsage st now user gasCost = Ok st' /\
    mget (userGasUsed st') user = gasCost /\
    mget (lastResetTime st') user = now.
Proof.
  intros H. unfold _updateGasUsage. cbv zeta.
  destruct (Z.ltb_spec (mget (lastResetTime st) user / RATE_LIMIT_PERIOD)
                       (now / RATE_LIMIT_PERIOD)); [| lia].
  eexists. split; [reflexivity |]. cbn.
  split; apply mget_insert_eq.
Qed.

Lemma updateGasUsage_same_window st now user gasCost :
  now / RATE_LIMIT_PERIOD <= mget (lastResetTime st) user / RATE_LIMIT_PERIOD ->
  mget (userGasUsed st) user + gasCost <= MAX_UINT256 ->
  exists st',
    _updateGasUsage st now user gasCost = Ok st' /\
    mget (userGasUsed st') user = mget (userGasUsed st) user + gasCost /\
    mget (lastResetTime st') user = mget (lastResetTime st) user.
Proof.
  intros H Hfit. unfold _updateGasUsage. cbv zeta.
  destruct (Z.ltb_spec (mget (lastResetTime st) user / RATE_LIMIT_PERIOD)
                       (now / RATE_LIMIT_PERIOD)); [lia |].
  rewrite add256_ok by done. cbn [mbind result_bind].
  eexists. split; [reflexivity |]. cbn.
  split; [apply mget_insert_eq | reflexivity].
Qed.

Section Tokens.
Variables (usdcToken okbToken : address).

(** C8, amended.  While the current hour bucket does not exceed the
    account's last-reset bucket and its usage plus the new cost is
    above [MAX_GAS_PER_HOUR], neither [canPayForGas] nor
    [validatePaymasterUserOp] grants sponsorship.  Once the current
    bucket exceeds the last-reset bucket, [canPayForGas] grants it
    to an account that holds enough of either settlement asset, and
    [validatePaymasterUserOp] grants it exactly when the gas reserve
    covers the cost plus the minimum reserve; it does not look at
    the account's balances.  Accounting for a cost in the new bucket
    restarts the usage from that cost. *)
Theorem sponsorship_follows_the_window
        st l now user gasCost userOp userOpHash :
  senderOf userOp = Ok user ->
  (now / RATE_LIMIT_PERIOD <= mget (lastResetTime st) user / RATE_LIMIT_PERIOD ->
   MAX_GAS_PER_HOUR < mget (userGasUsed st) user + gasCost ->
   canPayForGas usdcToken okbToken st l now user gasCost <> Ok true /\
   (forall context,
       validatePaymasterUserOp st now userOp userOpHash gasCost
       <> Ok (context, 0)) /\
   (mget (userGasUsed st) user + gasCost <= MAX_UINT256 ->
    canPayForGas usdcToken okbToken st l now user gasCost = Ok false /\
    validatePaymasterUserOp st now userOp userOpHash gasCost
    = Ok (None, 1))) /\
  (mget (lastResetTime st) user / RATE_LIMIT_PERIOD < now / RATE_LIMIT_PERIOD ->
   (gasCost * usdcToGasRate st <= MAX_UINT256 ->
    gasCost * okbToGasRate st <= MAX_UINT256 ->
    gasCost * usdcToGasRate st / 10 ^ 18
    <= ERC20.balanceOf l usdcToken user
    \/ gasCost * okbToGasRate st / 10 ^ 18
       <= ERC20.balanceOf l okbToken user ->
    canPayForGas usdcToken okbToken st l now user gasCost = Ok true) /\
   (gasCost + minimumGasReserve st <= MAX_UINT256 ->
    validatePaymasterUserOp st now userOp userOpHash gasCost
    = if gasReserve st <? gasCost + minimumGasReserve st
      then Ok (None, 1)
      else Ok (Some (user, gasCost, userOpHash), 0)) /\
   (exists st',
       _updateGasUsage st now user gasCost = Ok st' /\
       mget (userGasUsed st') user = gasCost /\
       mget (lastResetTime st') user = now)).
Proof.
  intros Hsender. split.
  - intros Hwin Hover.
    pose proof (isRateLimited_exhausted st now user gasCost Hwin Hover)
      as Hlim.
    unfold canPayForGas, validatePaymasterUserOp.
    rewrite Hsender. cbn [mbind result_bind]. rewrite Hlim.
    destruct (Z.leb_spec (mget (userGasUsed st) user + gasCost)
                         MAX_UINT256) as [Hfit | Hfit];
      cbn [mbind result_bind].
    + repeat split; discriminate.
    + repeat split; try discriminate; lia.
  - intros Hwin.
    pose proof (isRateLimited_new_window st now user gasCost Hwin) as Hlim.
    unfold canPayForGas, validatePaymasterUserOp.
    rewrite Hsender. cbn [mbind result_bind]. rewrite Hlim.
    cbn [mbind result_bind]. split; [| split].
    + intros Hu Ho Hbal.
      rewrite !mul256_ok by done. cbn [mbind result_bind].
      unfold div256. change (10 ^ 18 =? 0) with false. cbv iota.
      cbn [mbind result_bind]. f_equal.
      apply orb_true_iff.
      destruct Hbal as [Hbal | Hbal]; [left | right]; by apply Z.leb_le.
    + intros Hfit. rewrite add256_ok by done. reflexivity.
    + by apply updateGasUsage_new_window.
Qed.
End Tokens.

Import PaymasterScenario.

(** The scenario, run on the model: the post-operation charge empties
    Alice's allowance for hour 1 and leaves 0.05 ether in reserve. *)
Example exhausted_state :
  mget (userGasUsed exhausted.1) ALICE = MAX_GAS_PER_HOUR /\
  mget (lastResetTime exhausted.1) ALICE = 3600 /\
  gasReserve exhausted.1 = 5 * 10 ^ 16 /\
  ERC20.balanceOf exhausted.2 USDC ALICE = 999990 /\
  senderOf aliceOp = Ok ALICE.
Proof. vm_compute. repeat split. Qed.

(** C8 as stated fails for [validatePaymasterUserOp]: in the hour after
    the one she exhausted Alice holds ample USDC and [canPayForGas]
    accepts her, yet validation refuses because the reserve is below
    the cost plus the minimum reserve. *)
Lemma validation_refused_after_rollover :
  mget (lastResetTime exhausted.1) ALICE / RATE_LIMIT_PERIOD
  < 7200 / RATE_LIMIT_PERIOD /\
  1000 * usdcToGasRate exhausted.1 / 10 ^ 18
  <= ERC20.balanceOf exhausted.2 USDC ALICE /\
  canPayForGas USDC OKB exhausted.1 exhausted.2 7200 ALICE 1000 = Ok true /\
  validatePaymasterUserOp exhausted.1 7200 aliceOp 0 1000 = Ok (None, 1).
Proof. vm_compute. repeat split; congruence. Qed.

Lemma sponsorship_follows_the_window_witness :
  (canPayForGas USDC OKB exhausted.1 exhausted.2 3700 ALICE 1000 = Ok false /\
   validatePaymasterUserOp exhausted.1 3700 aliceOp 0 1000 = Ok (None, 1)) /\
  canPayForGas USDC OKB exhausted.1 exhausted.2 7200 ALICE 1000 = Ok true.
Proof.
  split.
  - apply (sponsorship_follows_the_window USDC OKB exhausted.1 exhausted.2
             3700 ALICE 1000 aliceOp 0).
    + reflexivity.
    + vm_compute. congruence.
    + vm_compute. reflexivity.
    + vm_compute. congruence.
  - apply (sponsorship_follows_the_window USDC OKB exhausted.1 exhausted.2
             7200 ALICE 1000 aliceOp 0).
    + reflexivity.
    + vm_compute. reflexivity.
    + vm_compute. congruence.
    + vm_compute. congruence.
    + left. vm_compute. congruence.
Defined.

End PaymasterProofs.

(** ** Paymaster: settling an operation *)

Module PaymasterChargeProofs.
Import Paymaster ERC20Proofs.

Lemma updateGasUsage_inv st now user gasCost st' :
  _updateGasUsage st now user gasCost = Ok st' ->
  usdcToGasRate st' = usdcToGasRate st /\
  okbToGasRate st' = okbToGasRate st /\
  gasReserve st' = gasReserve st /\
  minimumGasReserve st' = minimumGasReserve st /\
  mget (userGasUsed st') user
  = (if mget (lastResetTime st) user / RATE_LIMIT_PERIOD
        <? now / RATE_LIMIT_PERIOD
     then gasCost else mget (userGasUsed st) user + gasCost).
Proof.
  unfold _updateGasUsage. cbv zeta. intros H.
  destruct (_ <? _).
  - simplify_eq. cbn. by rewrite mget_insert_eq.
  - binds_inv H. simplify_eq.
    match goal with E : add256 _ _ = Ok _ |- _ =>
      apply add256_inv in E as [-> _] end.
    cbn. by rewrite mget_insert_eq.
Qed.

Section Tokens.
Variables (usdcToken okbToken self : address).

Local Abbreviation postOp := (Paymaster.postOp usdcToken okbToken self).

(** X18: what [postOp] settles.  A successful call takes exactly the
    actual gas cost out of the reserve, adds it to the user's usage
    of the current hour (starting from zero in a new hour), and
    charges exactly one asset: USDC at [cost * usdcToGasRate / 1e18]
    when the user's USDC balance covers that, otherwise OKB at
    [cost * okbToGasRate / 1e18]. *)
Theorem postOp_settles st l now sender cost st' l' :
  postOp st l now sender cost = Ok (st', l') ->
  usdcToken <> okbToken -> sender <> self ->
  let usdcAmount := cost * usdcToGasRate st / 10 ^ 18 in
  let okbAmount := cost * okbToGasRate st / 10 ^ 18 in
  let paid token :=
    ERC20.balanceOf l token sender - ERC20.balanceOf l' token sender in
  let received token :=
    ERC20.balanceOf l' token self - ERC20.balanceOf l token self in
  cost <= gasReserve st /\
  gasReserve st' = gasReserve st - cost /\
  mget (userGasUsed st') sender
  = (if mget (lastResetTime st) sender / RATE_LIMIT_PERIOD
        <? now / RATE_LIMIT_PERIOD
     then cost else mget (userGasUsed st) sender + cost) /\
  ((usdcAmount <= ERC20.balanceOf l usdcToken sender /\
    paid usdcToken = usdcAmount /\ received usdcToken = usdcAmount /\
    paid okbToken = 0 /\ received okbToken = 0) \/
   (ERC20.balanceOf l usdcToken sender < usdcAmount /\
    okbAmount <= ERC20.balanceOf l okbToken sender /\
    paid okbToken = okbAmount /\ received okbToken = okbAmount /\
    paid usdcToken = 0 /\ received usdcToken = 0)).
Proof.
  unfold Paymaster.postOp. intros H Htok Hself.
  destruct (whenNotPaused (paused st)); [| discriminate H].
  cbn [mbind result_bind] in H.
  destruct (_updateGasUsage st now sender cost) as [st1 |] eqn:Hu;
    [| discriminate H].
  cbn [mbind result_bind] in H.
  apply updateGasUsage_inv in Hu as (Hur & Hor & Hres & _ & Hused).
  destruct (_chargeInUSDC usdcToken self st1 l sender cost)
    as [[charged l1] |] eqn:Hc; [| discriminate H].
  cbn [mbind result_bind] in H.
  destruct (if charged then Ok l1
            else _chargeInOKB okbToken self st1 l1 sender cost)
    as [l2 |] eqn:Ho; [| discriminate H].
  cbn [mbind result_bind] in H.
  destruct (sub256 (gasReserve st1) cost) as [reserve |] eqn:Hs;
    [| discriminate H].
  cbn [mbind result_bind] in H. injection H as <- <-.
  apply sub256_inv in Hs as [-> Hle]. rewrite Hres in *.
  cbv zeta. cbn [gasReserve userGasUsed set_gasReserve].
  split; [exact Hle |]. split; [reflexivity |]. split; [exact Hused |].
  unfold _chargeInUSDC, mul256, div256 in Hc. rewrite Hur in Hc.
  destruct (cost * usdcToGasRate st <=? MAX_UINT256); [| discriminate Hc].
  cbn [mbind result_bind] in Hc.
  change (10 ^ 18 =? 0) with false in Hc. cbn [mbind result_bind] in Hc.
  destruct (Z.leb_spec (cost * usdcToGasRate st / 10 ^ 18)
                       (ERC20.balanceOf l usdcToken sender)) as [Hhas | Hnot].
  - left.
    destruct (ERC20.transferFrom _ _ _ _ _ _) as [lx |] eqn:Ht;
      [| discriminate Hc].
    cbn [mbind result_bind] in Hc. injection Hc as <- <-.
    injection Ho as <-.
    rewrite !(transferFrom_balanceOf _ _ _ _ _ _ _ _ _ Ht).
    split; [exact Hhas |].
    repeat split; repeat case_decide; simplify_eq; lia.
  - right. injection Hc as <- <-.
    unfold _chargeInOKB, mul256, div256 in Ho. rewrite Hor in Ho.
    destruct (cost * okbToGasRate st <=? MAX_UINT256); [| discriminate Ho].
    cbn [mbind result_bind] in Ho.
    change (10 ^ 18 =? 0) with false in Ho. cbn [mbind result_bind] in Ho.
    destruct (Z.leb_spec (cost * okbToGasRate st / 10 ^ 18)
                         (ERC20.balanceOf l okbToken sender)) as [Hhas |];
      [| discriminate Ho].
    cbn [require mbind result_bind] in Ho.
    rewrite !(transferFrom_balanceOf _ _ _ _ _ _ _ _ _ Ho).
    split; [exact Hnot |]. split; [exact Hhas |].
    repeat split; repeat case_decide; simplify_eq; lia.
Qed.
Lemma transferFrom_nothing l token spender from to :
  0 <= ERC20.balanceOf l token from ->
  0 <= ERC20.allowance l token from spender ->
  exists l',
    ERC20.transferFrom l token spender from to 0 = Ok l' /\
    forall token' holder,
      ERC20.balanceOf l' token' holder = ERC20.balanceOf l token' holder.
Proof.
  intros Hbal Hallow. unfold ERC20.transferFrom.
  destruct (ERC20.spendAllowance l token from spender 0) as [l1 |] eqn:Hs.
  - cbn [mbind result_bind].
    pose proof (fun t h => spendAllowance_balanceOf _ _ _ _ _ _ t h Hs)
      as Hsame.
    destruct (transfer_ok l1 token from to 0) as [l' Ht];
      [rewrite Hsame; lia |].
    exists l'. split; [exact Ht |]. intros token' holder.
    destruct (transfer_balanceOf _ _ _ _ _ _ token' holder Ht) as [_ ->].
    rewrite Hsame. repeat case_decide; lia.
  - unfold ERC20.spendAllowance in Hs.
    destruct (_ =? MAX_UINT256); [discriminate Hs |].
    destruct (Z.ltb_spec (ERC20.allowance l token from spender) 0);
      [lia | discriminate Hs].
Qed.

(** X19: small costs are settled for nothing.  When
    [cost * usdcToGasRate] is below [1e18] the USDC charge rounds to
    zero: [postOp] succeeds whatever the user holds, no token
    balance changes, and the reserve still pays the cost. *)
Theorem postOp_dust_is_free st l now sender cost :
  paused st = false ->
  0 <= cost -> 0 <= usdcToGasRate st ->
  cost * usdcToGasRate st < 10 ^ 18 ->
  cost <= gasReserve st ->
  mget (userGasUsed st) sender + cost <= MAX_UINT256 ->
  0 <= ERC20.balanceOf l usdcToken sender ->
  0 <= ERC20.allowance l usdcToken sender self ->
  exists st' l',
    postOp st l now sender cost = Ok (st', l') /\
    (forall token holder,
        ERC20.balanceOf l' token holder = ERC20.balanceOf l token holder) /\
    gasReserve st' = gasReserve st - cost.
Proof.
  intros Hp Hcost Hrate Hdust Hres Hfit Hbal Hallow.
  unfold Paymaster.postOp. rewrite Hp. cbn [whenNotPaused mbind result_bind].
  assert (Hu : exists st1, _updateGasUsage st now sender cost = Ok st1).
  { unfold _updateGasUsage. cbv zeta. destruct (_ <? _); [eauto |].
    rewrite add256_ok by done. cbn [mbind result_bind]. eauto. }
  destruct Hu as [st1 Hu]. rewrite Hu. cbn [mbind result_bind].
  apply updateGasUsage_inv in Hu as (Hur & _ & Hgr & _).
  unfold _chargeInUSDC. rewrite Hur.
  rewrite mul256_ok
    by (rewrite SyntheticStockProofs.MAX_UINT256_value; lia).
  cbn [mbind result_bind]. unfold div256.
  change (10 ^ 18 =? 0) with false. cbn [mbind result_bind].
  rewrite Z.div_small by lia.
  replace (0 <=? ERC20.balanceOf l usdcToken sender) with true
    by (symmetry; by apply Z.leb_le).
  destruct (transferFrom_nothing l usdcToken self sender self Hbal Hallow)
    as (l' & Ht & Hsame).
  rewrite Ht. cbn [mbind result_bind].
  rewrite sub256_ok by lia. cbn [mbind result_bind].
  eexists _, _. split; [reflexivity |]. split; [exact Hsame |].
  cbn. lia.
Qed.

(** X20: validation sets the minimum reserve aside.  Validation data
    zero comes with the context of the operation's sender and means
    the reserve covers the maximum cost on top of the minimum
    reserve; a [postOp] that then settles no more than the maximum
    cost leaves at least the minimum reserve. *)
Theorem validation_reserves_the_minimum
        st now userOp userOpHash maxCost context :
  validatePaymasterUserOp st now userOp userOpHash maxCost
  = Ok (context, 0) ->
  exists sender,
    senderOf userOp = Ok sender /\
    context = Some (sender, maxCost, userOpHash) /\
    maxCost + minimumGasReserve st <= gasReserve st /\
    forall l now' actual st' l',
      actual <= maxCost ->
      postOp st l now' sender actual = Ok (st', l') ->
      minimumGasReserve st' <= gasReserve st'.
Proof.
  unfold validatePaymasterUserOp. intros H.
  destruct (senderOf userOp) as [sender |]; [| discriminate H].
  cbn [mbind result_bind] in H.
  destruct (_isRateLimited st now sender maxCost) as [[|] |];
    cbn [mbind result_bind] in H; try discriminate H.
  destruct (add256 maxCost (minimumGasReserve st)) as [needed |] eqn:Hn;
    [| discriminate H].
  cbn [mbind result_bind] in H. apply add256_inv in Hn as [-> _].
  destruct (Z.ltb_spec (gasReserve st) (maxCost + minimumGasReserve st));
    [discriminate H |].
  injection H as <-. exists sender.
  split; [reflexivity |]. split; [reflexivity |]. split; [done |].
  intros l now' actual st' l' Hle Hpost.
  unfold Paymaster.postOp in Hpost.
  destruct (whenNotPaused (paused st)); [| discriminate Hpost].
  cbn [mbind result_bind] in Hpost.
  destruct (_updateGasUsage st now' sender actual) as [st1 |] eqn:Hu;
    [| discriminate Hpost].
  cbn [mbind result_bind] in Hpost.
  apply updateGasUsage_inv in Hu as (_ & _ & Hres & Hmin & _).
  destruct (_chargeInUSDC _ _ _ _ _ _) as [[charged l1] |];
    [| discriminate Hpost].
  cbn [mbind result_bind] in Hpost.
  destruct (if charged then _ else _); [| discriminate Hpost].
  cbn [mbind result_bind] in Hpost.
  destruct (sub256 _ _) as [reserve |] eqn:Hs; [| discriminate Hpost].
  cbn [mbind result_bind] in Hpost. injection Hpost as <- <-.
  apply sub256_inv in Hs as [-> _]. cbn. lia.
Qed.
End Tokens.

Import PaymasterScenario.

Lemma postOp_settles_witness :
  exists st' l',
    Paymaster.postOp USDC OKB PAYMASTER funded ledger0 3600 ALICE
      MAX_GAS_PER_HOUR = Ok (st', l') /\
    gasReserve st' = gasReserve funded - MAX_GAS_PER_HOUR /\
    mget (userGasUsed st') ALICE = MAX_GAS_PER_HOUR.
Proof.
  destruct (Paymaster.postOp USDC OKB PAYMASTER funded ledger0 3600 ALICE
              MAX_GAS_PER_HOUR) as [[st' l'] |] eqn:E;
    [| vm_compute in E; discriminate E].
  exists st', l'. split; [reflexivity |].
  destruct (postOp_settles USDC OKB PAYMASTER funded ledger0 3600 ALICE
              MAX_GAS_PER_HOUR st' l' E) as (_ & Hres & Hused & _).
  - discriminate.
  - discriminate.
  - split; [exact Hres | exact Hused].
Defined.

Lemma postOp_dust_is_free_witness :
  exists st' l',
    Paymaster.postOp USDC OKB PAYMASTER funded ledger0 3600 ADMIN
      (10 ^ 14) = Ok (st', l') /\
    (forall token holder,
        ERC20.balanceOf l' token holder
        = ERC20.balanceOf ledger0 token holder) /\
    gasReserve st' = gasReserve funded - 10 ^ 14.
Proof.
  apply (postOp_dust_is_free USDC OKB PAYMASTER funded ledger0 3600 ADMIN
           (10 ^ 14)).
  - reflexivity.
  - vm_compute. discriminate.
  - vm_compute. discriminate.
  - vm_compute. reflexivity.
  - vm_compute. discriminate.
  - vm_compute. discriminate.
  - vm_compute. discriminate.
  - vm_compute. discriminate.
Defined.

Lemma validation_reserves_the_minimum_witness :
  exists sender,
    senderOf aliceOp = Ok sender /\
    10 ^ 15 + minimumGasReserve (set_gasReserve funded (2 * 10 ^ 17))
    <= gasReserve (set_gasReserve funded (2 * 10 ^ 17)).
Proof.
  destruct (validation_reserves_the_minimum USDC OKB PAYMASTER
              (set_gasReserve funded (2 * 10 ^ 17)) 3600 aliceOp 7
              (10 ^ 15) (Some (ALICE, 10 ^ 15, 7)))
    as (sender & Hs & _ & Hres & _).
  - vm_compute. reflexivity.
  - exists sender. split; [exact Hs | exact Hres].
Defined.
End PaymasterChargeProofs.

(** ** DEXRouter: slippage protection *)

Module DEXRouterProofs.
Import DEXRouter.

Section Router.
Variables (usdcToken vaultAddr self : address).
Variable aggregatorCall : address -> list Byte.byte -> world -> option world.

Local Abbreviation swap := (DEXRouter.swap self aggregatorCall).
Local Abbreviation swapToUSDCAndDeposit :=
  (DEXRouter.swapToUSDCAndDeposit usdcToken vaultAddr self aggregatorCall).
Local Abbreviation swapUSDCToToken :=
  (DEXRouter.swapUSDCToToken usdcToken self aggregatorCall).
Local Abbreviation afterAggregator :=
  (DEXRouter.afterAggregator self aggregatorCall).

Lemma afterAggregator_inv st w sender tokenIn amountIn approved swapData
      l2 w3 :
  afterAggregator st w sender tokenIn amountIn approved swapData
  = Ok (l2, w3) ->
  exists l1,
    ERC20.transferFrom (ledger w) tokenIn self sender self amountIn = Ok l1 /\
    l2 = ERC20.approve l1 tokenIn self (okxDEXAggregator st) approved /\
    callAggregator aggregatorCall st swapData
      {| ledger := l2; vault := vault w |} = Ok w3.
Proof.
  unfold DEXRouter.afterAggregator. intros H. binds_inv H.
  injection H as <- <-. eauto.
Qed.

(** The comparison every aggregator path ends with. *)
Lemma measure_then_require before after minOut reason
      (k : Z -> result (Z * world)) :
  after - before < minOut ->
  let r := amountOut ← sub256 after before;
           require (minOut <=? amountOut) reason;; k amountOut in
  (before <= after -> r = Err (Revert reason)) /\
  (after < before -> r = Err (Panic 17)).
Proof.
  intros Hlow r. subst r. unfold sub256. split; intros Hcmp.
  - destruct (Z.leb_spec before after); [| lia]. cbn [mbind result_bind].
    destruct (Z.leb_spec minOut (after - before)); [lia | reflexivity].
  - destruct (Z.leb_spec before after); [lia | reflexivity].
Qed.

(** Both ways of falling short abort the call, and an aborted call
    leaves the world as it was. *)
Lemma short_output_outcome (w : world) (r : result (Z * world))
      before after reason :
  (before <= after -> r = Err (Revert reason)) ->
  (after < before -> r = Err (Panic 17)) ->
  abortsShort w r before after reason.
Proof.
  intros Hle Hgt. split; [exact Hle |]. split; [exact Hgt |].
  destruct (Z.le_gt_cases before after) as [H | H].
  - by rewrite (Hle H).
  - by rewrite (Hgt H).
Qed.

Ltac pass_guards :=
  repeat first
    [ rewrite onlyRole_ok by assumption
    | match goal with
      | H : ?x ∈ ?X |- context [bool_decide (?x ∈ ?X)] =>
          rewrite (bool_decide_eq_true_2 _ H)
      | H : paused _ = false |- context [paused _] => rewrite H
      | H : ?x <> ?y |- context [?x =? ?y] =>
          replace (x =? y) with false by (symmetry; apply Z.eqb_neq; exact H)
      | H : 0 < ?x |- context [0 <? ?x] =>
          replace (0 <? x) with true by (symmetry; apply Z.ltb_lt; exact H)
      end
    | progress cbn [whenNotPaused negb require mbind result_bind] ].

Lemma swap_slippage st w sender tokenIn tokenOut amountIn minAmountOut
      swapData recipient fee l2 w3 :
  sender ∈ aaRole st -> paused st = false ->
  tokenIn ∈ allowedTokens st -> tokenOut ∈ allowedTokens st ->
  0 < amountIn -> recipient <> 0 ->
  routerFeeOf st amountIn = Ok fee -> fee <= amountIn ->
  afterAggregator st w sender tokenIn amountIn (amountIn - fee) swapData
  = Ok (l2, w3) ->
  ERC20.balanceOf (ledger w3) tokenOut self
  - ERC20.balanceOf l2 tokenOut self < minAmountOut ->
  abortsShort w
    (swap st w sender tokenIn tokenOut amountIn minAmountOut swapData
          recipient)
    (ERC20.balanceOf l2 tokenOut self)
    (ERC20.balanceOf (ledger w3) tokenOut self)
    "DEXRouter: insufficient output amount".
Proof.
  intros Hrole Hpaused Hin Hout Hamount Hrecipient Hfee Hfeele Hagg Hlow.
  apply afterAggregator_inv in Hagg as (l1 & Hpull & -> & Hcall).
  apply short_output_outcome; intros Hc; unfold DEXRouter.swap;
    pass_guards; rewrite Hpull; cbn [mbind result_bind];
    rewrite Hfee; cbn [mbind result_bind];
    rewrite sub256_ok by exact Hfeele; cbn [mbind result_bind];
    cbv zeta; rewrite Hcall; cbn [mbind result_bind];
    first [ apply (measure_then_require _ _ _ _ _ Hlow); exact Hc ].
Qed.

Lemma swapToUSDCAndDeposit_slippage st w sender tokenIn amountIn
      minUsdcOut swapData user fee l2 w3 :
  sender ∈ aaRole st -> paused st = false ->
  tokenIn ∈ allowedTokens st ->
  0 < amountIn -> user <> 0 -> tokenIn <> usdcToken ->
  routerFeeOf st amountIn = Ok fee -> fee <= amountIn ->
  afterAggregator st w sender tokenIn amountIn (amountIn - fee) swapData
  = Ok (l2, w3) ->
  ERC20.balanceOf (ledger w3) usdcToken self
  - ERC20.balanceOf l2 usdcToken self < minUsdcOut ->
  abortsShort w
    (swapToUSDCAndDeposit st w sender tokenIn amountIn minUsdcOut
                          swapData user)
    (ERC20.balanceOf l2 usdcToken self)
    (ERC20.balanceOf (ledger w3) usdcToken self)
    "DEXRouter: insufficient USDC received".
Proof.
  intros Hrole Hpaused Hin Hamount Huser Hnotusdc Hfee Hfeele Hagg Hlow.
  apply afterAggregator_inv in Hagg as (l1 & Hpull & -> & Hcall).
  apply short_output_outcome; intros Hc;
    unfold DEXRouter.swapToUSDCAndDeposit;
    pass_guards; rewrite Hpull; cbn [mbind result_bind];
    rewrite Hfee; cbn [mbind result_bind];
    rewrite sub256_ok by exact Hfeele; cbn [mbind result_bind];
    cbv zeta; rewrite Hcall; cbn [mbind result_bind];
    first [ apply (measure_then_require _ _ _ _ _ Hlow); exact Hc ].
Qed.

Lemma swapUSDCToToken_slippage st w sender tokenOut usdcAmount
      minTokenOut swapData recipient l2 w3 :
  sender ∈ aaRole st -> paused st = false ->
  tokenOut ∈ allowedTokens st ->
  0 < usdcAmount -> recipient <> 0 -> tokenOut <> usdcToken ->
  afterAggregator st w sender usdcToken usdcAmount usdcAmount swapData
  = Ok (l2, w3) ->
  ERC20.balanceOf (ledger w3) tokenOut self
  - ERC20.balanceOf l2 tokenOut self < minTokenOut ->
  abortsShort w
    (swapUSDCToToken st w sender tokenOut usdcAmount minTokenOut
                     swapData recipient)
    (ERC20.balanceOf l2 tokenOut self)
    (ERC20.balanceOf (ledger w3) tokenOut self)
    "DEXRouter: insufficient output amount".
Proof.
  intros Hrole Hpaused Hout Hamount Hrecipient Hnotusdc Hagg Hlow.
  apply afterAggregator_inv in Hagg as (l1 & Hpull & -> & Hcall).
  apply short_output_outcome; intros Hc;
    unfold DEXRouter.swapUSDCToToken;
    pass_guards; rewrite Hpull; cbn [mbind result_bind];
    cbv zeta; rewrite Hcall; cbn [mbind result_bind];
    first [ apply (measure_then_require _ _ _ _ _ Hlow); exact Hc ].
Qed.

(** Conversely, what [swap] hands out on success is never below the
    minimum. *)
Lemma swap_ok_meets_minimum st w sender tokenIn tokenOut amountIn
      minAmountOut swapData recipient amountOut w' :
  swap st w sender tokenIn tokenOut amountIn minAmountOut swapData
       recipient = Ok (amountOut, w') ->
  minAmountOut <= amountOut.
Proof.
  unfold DEXRouter.swap. intros H. binds_inv H. injection H as <- _.
  match goal with E : require (minAmountOut <=? _) _ = Ok _ |- _ =>
    apply require_inv, Z.leb_le in E; exact E end.
Qed.

Lemma swapToUSDCAndDeposit_ok_meets_minimum st w sender tokenIn amountIn
      minUsdcOut swapData user usdcReceived w' :
  swapToUSDCAndDeposit st w sender tokenIn amountIn minUsdcOut swapData
                       user = Ok (usdcReceived, w') ->
  minUsdcOut <= usdcReceived.
Proof.
  unfold DEXRouter.swapToUSDCAndDeposit. intros H. binds_inv H.
  injection H as <- _.
  match goal with E : require (minUsdcOut <=? _) _ = Ok _ |- _ =>
    apply require_inv, Z.leb_le in E; exact E end.
Qed.

(** The pass-through path of [swapUSDCToToken] never looks at
    [minTokenOut]. *)
Lemma swapUSDCToToken_passthrough st w sender usdcAmount minTokenOut
      swapData recipient l1 :
  sender ∈ aaRole st -> paused st = false ->
  usdcToken ∈ allowedTokens st ->
  0 < usdcAmount -> recipient <> 0 ->
  ERC20.transferFrom (ledger w) usdcToken self sender recipient usdcAmount
  = Ok l1 ->
  swapUSDCToToken st w sender usdcToken usdcAmount minTokenOut swapData
                  recipient
  = Ok (usdcAmount, {| ledger := l1; vault := vault w |}).
Proof.
  intros Hrole Hpaused Hout Hamount Hrecipient Hpull.
  unfold DEXRouter.swapUSDCToToken. pass_guards.
  rewrite Z.eqb_refl, Hpull. reflexivity.
Qed.
End Router.

(** C7, amended.  On each of the three entry points, once the input is
    pulled in and the aggregator has returned, an output balance that
    grew by less than the caller's minimum aborts the call with the
    entry point's slippage message (an output balance that fell aborts
    it with an arithmetic panic), and the world is left as it was.
    This covers [swapUSDCToToken] for output tokens other than USDC;
    for USDC it transfers the amount through without consulting the
    minimum. *)
Theorem short_swaps_abort
        (usdcToken vaultAddr self : address)
        (aggregatorCall : address -> list Byte.byte -> world -> option world) :
  (forall st w sender tokenIn tokenOut amountIn minAmountOut swapData
          recipient fee l2 w3,
      sender ∈ aaRole st -> paused st = false ->
      tokenIn ∈ allowedTokens st -> tokenOut ∈ allowedTokens st ->
      0 < amountIn -> recipient <> 0 ->
      routerFeeOf st amountIn = Ok fee -> fee <= amountIn ->
      afterAggregator self aggregatorCall st w sender tokenIn amountIn
                      (amountIn - fee) swapData = Ok (l2, w3) ->
      ERC20.balanceOf (ledger w3) tokenOut self
      - ERC20.balanceOf l2 tokenOut self < minAmountOut ->
      abortsShort w
        (swap self aggregatorCall st w sender tokenIn tokenOut amountIn
              minAmountOut swapData recipient)
        (ERC20.balanceOf l2 tokenOut self)
        (ERC20.balanceOf (ledger w3) tokenOut self)
        "DEXRouter: insufficient output amount") /\
  (forall st w sender tokenIn amountIn minUsdcOut swapData user fee l2 w3,
      sender ∈ aaRole st -> paused st = false ->
      tokenIn ∈ allowedTokens st ->
      0 < amountIn -> user <> 0 -> tokenIn <> usdcToken ->
      routerFeeOf st amountIn = Ok fee -> fee <= amountIn ->
      afterAggregator self aggregatorCall st w sender tokenIn amountIn
                      (amountIn - fee) swapData = Ok (l2, w3) ->
      ERC20.balanceOf (ledger w3) usdcToken self
      - ERC20.balanceOf l2 usdcToken self < minUsdcOut ->
      abortsShort w
        (swapToUSDCAndDeposit usdcToken vaultAddr self aggregatorCall st w
           sender tokenIn amountIn minUsdcOut swapData user)
        (ERC20.balanceOf l2 usdcToken self)
        (ERC20.balanceOf (ledger w3) usdcToken self)
        "DEXRouter: insufficient USDC received") /\
  (forall st w sender tokenOut usdcAmount minTokenOut swapData recipient
          l2 w3,
      sender ∈ aaRole st -> paused st = false ->
      tokenOut ∈ allowedTokens st ->
      0 < usdcAmount -> recipient <> 0 -> tokenOut <> usdcToken ->
      afterAggregator self aggregatorCall st w sender usdcToken usdcAmount
                      usdcAmount swapData = Ok (l2, w3) ->
      ERC20.balanceOf (ledger w3) tokenOut self
      - ERC20.balanceOf l2 tokenOut self < minTokenOut ->
      abortsShort w
        (swapUSDCToToken usdcToken self aggregatorCall st w sender tokenOut
           usdcAmount minTokenOut swapData recipient)
        (ERC20.balanceOf l2 tokenOut self)
        (ERC20.balanceOf (ledger w3) tokenOut self)
        "DEXRouter: insufficient output amount").
Proof.
  split; [| split]; intros.
  - eapply swap_slippage; eassumption.
  - eapply swapToUSDCAndDeposit_slippage; eassumption.
  - eapply swapUSDCToToken_slippage; eassumption.
Qed.

Import RouterScenario.

(** The wallet swaps 1000 WETH for at least 100 USDC and the aggregator
    delivers 99: the call reverts and nothing has moved. *)
Lemma short_swaps_abort_witness :
  swapToUSDCAndDeposit USDC VAULT ROUTER (paying USDC 99) router0 world0
    WALLET WETH 1000 100 [] ALICE
  = Err (Revert "DEXRouter: insufficient USDC received") /\
  commit world0
    (snd <$> swapToUSDCAndDeposit USDC VAULT ROUTER (paying USDC 99)
               router0 world0 WALLET WETH 1000 100 [] ALICE)
  = world0.
Proof.
  destruct (short_swaps_abort USDC VAULT ROUTER (paying USDC 99))
    as (_ & Hdeposit & _).
  destruct (afterAggregator ROUTER (paying USDC 99) router0 world0 WALLET
              WETH 1000 (1000 - 1) []) as [[l2 w3] |] eqn:Hagg;
    [| vm_compute in Hagg; discriminate Hagg].
  destruct (Hdeposit router0 world0 WALLET WETH 1000 100 [] ALICE 1 l2 w3)
    as (Hshort & _ & Hsame).
  - cbn. set_solver.
  - reflexivity.
  - cbn. set_solver.
  - lia.
  - discriminate.
  - discriminate.
  - reflexivity.
  - lia.
  - exact Hagg.
  - vm_compute in Hagg. injection Hagg as <- <-. vm_compute. reflexivity.
  - split; [| exact Hsame]. apply Hshort.
    vm_compute in Hagg. injection Hagg as <- <-. vm_compute. congruence.
Defined.

(** C7 as stated fails on the pass-through path: asked for at least
    200, [swapUSDCToToken] with USDC as the output token succeeds with
    an output of 100, and the 100 USDC have left the wallet. *)
Lemma passthrough_ignores_minimum :
  exists w',
    swapUSDCToToken USDC ROUTER (paying USDC 0) router0 world0
      WALLET USDC 100 200 [] ALICE = Ok (100, w') /\
    100 < 200 /\
    ERC20.balanceOf (ledger world0) USDC WALLET = 500 /\
    ERC20.balanceOf (ledger w') USDC WALLET = 400 /\
    ERC20.balanceOf (ledger w') USDC ALICE = 100.
Proof. eexists. vm_compute. repeat split; congruence. Qed.

(** When the output token is the input token and the aggregator spends
    part of what it was approved for without delivering, the measured
    balance has fallen and the call ends in the arithmetic panic. *)
Example swap_output_balance_fell :
  swap ROUTER (taking WETH 500) router0 world0 WALLET WETH WETH 1000 1 []
       ALICE
  = Err (Panic 17).
Proof. vm_compute. reflexivity. Qed.

End DEXRouterProofs.

(** ** DEXRouter: deposits *)

Module RouterDepositProofs.
Import DEXRouter ERC20Proofs MintRedeemProofs.

Section Router.
Variables (usdcToken vaultAddr self : address).
Variable aggregatorCall : address -> list Byte.byte -> world -> option world.

Local Abbreviation depositUSDC :=
  (DEXRouter.depositUSDC usdcToken vaultAddr self).
Local Abbreviation swapToUSDCAndDeposit :=
  (DEXRouter.swapToUSDCAndDeposit usdcToken vaultAddr self aggregatorCall).
Local Abbreviation afterAggregator :=
  (DEXRouter.afterAggregator self aggregatorCall).

Lemma routerFeeOf_inv st amount fee :
  routerFeeOf st amount = Ok fee -> fee = amount * routerFee st / 10000.
Proof.
  unfold routerFeeOf. intros H.
  destruct (mul256 amount (routerFee st)) as [v |] eqn:Hv;
    [| discriminate H].
  cbn [mbind result_bind] in H.
  unfold mul256, div256 in *. repeat case_match; simplify_eq. reflexivity.
Qed.

(** X21: what [depositUSDC] moves.  The caller pays the whole amount;
    the router keeps the fee [amount * routerFee / 10000] in USDC and
    the rest reaches the vault, where it is recorded for the user
    and added to the total. *)
Theorem depositUSDC_splits_the_amount st w sender user usdcAmount w' :
  depositUSDC st w sender user usdcAmount = Ok w' ->
  sender <> self -> sender <> vaultAddr -> self <> vaultAddr ->
  let fee := usdcAmount * routerFee st / 10000 in
  let net := usdcAmount - fee in
  0 < net /\
  ERC20.balanceOf (ledger w') usdcToken sender
  = ERC20.balanceOf (ledger w) usdcToken sender - usdcAmount /\
  ERC20.balanceOf (ledger w') usdcToken self
  = ERC20.balanceOf (ledger w) usdcToken self + fee /\
  ERC20.balanceOf (ledger w') usdcToken vaultAddr
  = ERC20.balanceOf (ledger w) usdcToken vaultAddr + net /\
  CollateralVault.getUserCollateral (vault w') user
  = CollateralVault.getUserCollateral (vault w) user + net /\
  CollateralVault.getTotalCollateral (vault w')
  = CollateralVault.getTotalCollateral (vault w) + net.
Proof.
  unfold DEXRouter.depositUSDC. intros H Hs Hv Hself.
  binds_inv H. simplify_eq.
  repeat match goal with
         | E : routerFeeOf _ _ = Ok _ |- _ => apply routerFeeOf_inv in E
         | E : sub256 _ _ = Ok _ |- _ => apply sub256_inv in E as [-> ?]
         | E : CollateralVault.depositCollateral _ _ _ _ _ _ _ = Ok _
           |- _ =>
             apply (depositCollateral_effect usdcToken usdcToken vaultAddr)
               in E as (Hnet & Hrec & Htot & Hl & _)
         end.
  match goal with E : ERC20.transferFrom _ _ _ _ _ _ = Ok _ |- _ =>
    pose proof (fun t h => transferFrom_balanceOf _ _ _ _ _ _ _ t h E)
      as Hpull end.
  subst. cbv zeta. cbn [ledger vault].
  rewrite Hrec, Htot, !Hl, !balanceOf_approve, !Hpull.
  unfold CollateralVault.getTotalCollateral.
  repeat split; try done; repeat case_decide; simplify_eq; lia.
Qed.

(** X22: the router takes no cut of the USDC a swap delivers.  On
    success [swapToUSDCAndDeposit] credits the user's vault record
    with exactly the USDC by which the router's balance grew during
    the aggregator call, which is at least the caller's minimum;
    that USDC all goes to the vault and the router's own USDC
    balance ends where it was before the aggregator ran. *)
Theorem swapToUSDCAndDeposit_credits_what_arrived
        st w sender tokenIn amountIn minUsdcOut swapData user
        usdcReceived w' :
  swapToUSDCAndDeposit st w sender tokenIn amountIn minUsdcOut swapData
                       user = Ok (usdcReceived, w') ->
  self <> vaultAddr ->
  exists l2 w3,
    afterAggregator st w sender tokenIn amountIn
      (amountIn - amountIn * routerFee st / 10000) swapData
    = Ok (l2, w3) /\
    usdcReceived
    = ERC20.balanceOf (ledger w3) usdcToken self
      - ERC20.balanceOf l2 usdcToken self /\
    minUsdcOut <= usdcReceived /\ 0 < usdcReceived /\
    CollateralVault.getUserCollateral (vault w') user
    = CollateralVault.getUserCollateral (vault w3) user + usdcReceived /\
    ERC20.balanceOf (ledger w') usdcToken vaultAddr
    = ERC20.balanceOf (ledger w3) usdcToken vaultAddr + usdcReceived /\
    ERC20.balanceOf (ledger w') usdcToken self
    = ERC20.balanceOf l2 usdcToken self.
Proof.
  unfold DEXRouter.swapToUSDCAndDeposit, DEXRouter.afterAggregator.
  intros H Hself. binds_inv H. simplify_eq.
  repeat match goal with
         | E : routerFeeOf _ _ = Ok _ |- _ => apply routerFeeOf_inv in E
         | E : sub256 _ _ = Ok _ |- _ => apply sub256_inv in E as [-> ?]
         | E : require (_ <=? _) _ = Ok _ |- _ =>
             apply require_inv, Z.leb_le in E
         | E : CollateralVault.depositCollateral _ _ _ _ _ _ _ = Ok _
           |- _ =>
             apply (depositCollateral_effect usdcToken usdcToken vaultAddr)
               in E as (Hnet & Hrec & Htot & Hl & _)
         end.
  subst. eexists _, _. split.
  { cbn [mbind result_bind].
    match goal with E : callAggregator _ _ _ _ = Ok _ |- _ =>
      rewrite E end.
    reflexivity. }
  cbn [ledger vault].
  rewrite Hrec, !Hl, !balanceOf_approve.
  repeat split; try done; repeat case_decide; simplify_eq; lia.
Qed.
End Router.

Import RouterScenario.

Lemma depositUSDC_splits_the_amount_witness :
  exists w',
    DEXRouter.depositUSDC USDC VAULT ROUTER router0 world0 WALLET ALICE 500
    = Ok w' /\
    ERC20.balanceOf (ledger w') USDC WALLET
    = ERC20.balanceOf (ledger world0) USDC WALLET - 500 /\
    CollateralVault.getUserCollateral (vault w') ALICE
    = CollateralVault.getUserCollateral (vault world0) ALICE
      + (500 - 500 * routerFee router0 / 10000).
Proof.
  destruct (DEXRouter.depositUSDC USDC VAULT ROUTER router0 world0 WALLET
              ALICE 500) as [w' |] eqn:E;
    [| vm_compute in E; discriminate E].
  exists w'. split; [reflexivity |].
  destruct (depositUSDC_splits_the_amount USDC VAULT ROUTER router0 world0
              WALLET ALICE 500 w' E) as (_ & Hpay & _ & _ & Hrec & _).
  - discriminate.
  - discriminate.
  - discriminate.
  - split; [exact Hpay | exact Hrec].
Defined.

Lemma swapToUSDCAndDeposit_credits_what_arrived_witness :
  exists usdcReceived w',
    DEXRouter.swapToUSDCAndDeposit USDC VAULT ROUTER (paying USDC 150)
      router0 world0 WALLET WETH 1000 100 [] ALICE = Ok (usdcReceived, w') /\
    100 <= usdcReceived /\
    ERC20.balanceOf (ledger w') USDC ROUTER
    = ERC20.balanceOf (ledger world0) USDC ROUTER.
Proof.
  destruct (DEXRouter.swapToUSDCAndDeposit USDC VAULT ROUTER
              (paying USDC 150) router0 world0 WALLET WETH 1000 100 []
              ALICE) as [[usdcReceived w'] |] eqn:E;
    [| vm_compute in E; discriminate E].
  exists usdcReceived, w'. split; [reflexivity |].
  destruct (swapToUSDCAndDeposit_credits_what_arrived USDC VAULT ROUTER
              (paying USDC 150) router0 world0 WALLET WETH 1000 100 []
              ALICE usdcReceived w' E)
    as (l2 & w3 & Hagg & _ & Hmin & _ & _ & _ & Hrouter).
  - discriminate.
  - split; [exact Hmin |]. rewrite Hrouter.
    vm_compute in Hagg. injection Hagg as <- _. reflexivity.
Defined.
End RouterDepositProofs.

(** ** SmartAccount: the orchestrated flows *)

Module AccountFlowProofs.
Import SmartAccountFlows ERC20Proofs MintRedeemProofs.

Lemma transferFrom_needs_balance l token spender from to value l' :
  ERC20.transferFrom l token spender from to value = Ok l' ->
  value <= ERC20.balanceOf l token from.
Proof.
  unfold ERC20.transferFrom. intros H.
  destruct (ERC20.spendAllowance l token from spender value) as [l1 |] eqn:Hs;
    [| discriminate H].
  cbn [mbind result_bind] in H.
  destruct (transfer_balanceOf _ _ _ _ _ _ token from H) as [Hle _].
  by rewrite (spendAllowance_balanceOf _ _ _ _ _ _ _ _ Hs) in Hle.
Qed.

Section Flows.
Variables (usdcToken aaplAddr vaultAddr stockAddr routerAddr self : address).
Variable aggregatorCall :
  address -> list Byte.byte -> DEXRouter.world -> option DEXRouter.world.

Local Abbreviation swapAndMint :=
  (SmartAccountFlows.swapAndMint usdcToken aaplAddr vaultAddr stockAddr
     routerAddr self aggregatorCall).
Local Abbreviation redeemAndSwap :=
  (SmartAccountFlows.redeemAndSwap usdcToken aaplAddr vaultAddr stockAddr
     routerAddr self aggregatorCall).

(** X25: [redeemAndSwap] pays out of the account's own USDC.  The
    redemption deposits the returned collateral in the vault under
    the owner's record; what is then swapped or sent on is taken
    from the USDC the account itself held before the call, so the
    call succeeds only if that balance covers the redeemed amount.
    When the output token is USDC the owner ends with the amount
    both recorded in the vault and transferred from the account. *)
Theorem redeemAndSwap_pays_from_the_account
        acct router s sender now aaplAmount tokenOut minTokenOut swapData
        usdcRedeemed tokenReceived s' :
  usdcToken <> aaplAddr -> self <> stockAddr -> self <> vaultAddr ->
  redeemAndSwap acct router s sender now aaplAmount tokenOut minTokenOut
                swapData = Ok (usdcRedeemed, tokenReceived, s') ->
  let owner := SmartAccount.owner acct in
  0 < usdcRedeemed <= ERC20.balanceOf (SyntheticStock.ledger s) usdcToken
                                      self /\
  (tokenOut = usdcToken ->
   owner <> self -> owner <> vaultAddr -> owner <> stockAddr ->
   tokenReceived = usdcRedeemed /\
   CollateralVault.getUserCollateral (SyntheticStock.collateralVault s')
                                     owner
   = CollateralVault.getUserCollateral (SyntheticStock.collateralVault s)
                                       owner + usdcRedeemed /\
   ERC20.balanceOf (SyntheticStock.ledger s') usdcToken owner
   = ERC20.balanceOf (SyntheticStock.ledger s) usdcToken owner
     + usdcRedeemed /\
   ERC20.balanceOf (SyntheticStock.ledger s') usdcToken self
   = ERC20.balanceOf (SyntheticStock.ledger s) usdcToken self
     - usdcRedeemed).
Proof.
  intros Htok Hstock Hvault H owner.
  unfold SmartAccountFlows.redeemAndSwap in H. fold owner in H.
  destruct (SmartAccount.onlyOwnerOrSession acct sender now);
    [| discriminate H].
  cbn [mbind result_bind] in H.
  destruct (whenNotPaused (SmartAccount.paused acct)); [| discriminate H].
  cbn [mbind result_bind] in H. cbv zeta in H.
  destruct (SyntheticStock.redeem _ _ _ _ _ _ _ _ _)
    as [[[ret ev] s1] |] eqn:Hr; [| discriminate H].
  cbn [mbind result_bind] in H.
  destruct (redeem_inv _ _ _ _ _ _ _ _ _ _ _ _ Hr)
    as (price & updated & gross & fee & _ & _ & _ & _ & _ & _ & _ & Hpos
        & _ & Hv & _ & Hl & _).
  assert (Hself : ERC20.balanceOf (SyntheticStock.ledger s1) usdcToken self
                  = ERC20.balanceOf (SyntheticStock.ledger s) usdcToken
                                    self).
  { rewrite Hl. repeat case_decide; simplify_eq; lia. }
  destruct (Z.eqb_spec tokenOut usdcToken) as [-> | Hne];
    cbn [negb] in H.
  - destruct (ERC20.transfer _ _ _ _ _) as [l2 |] eqn:Ht;
      [| discriminate H].
    cbn [mbind result_bind] in H. injection H as <- <- <-.
    destruct (transfer_balanceOf _ _ _ _ _ _ usdcToken self Ht)
      as [Hle Hs2].
    split; [lia |]. intros _ Ho1 Ho2 Ho3.
    destruct (transfer_balanceOf _ _ _ _ _ _ usdcToken owner Ht)
      as [_ Ho].
    cbn [SyntheticStock.with_ledger SyntheticStock.ledger
         SyntheticStock.collateralVault].
    rewrite Hv, Ho, Hs2, !Hl.
    repeat split; repeat case_decide; simplify_eq; lia.
  - destruct (DEXRouter.swapUSDCToToken _ _ _ _ _ _ _ _ _ _ _)
      as [[received w] |] eqn:Hsw; [| discriminate H].
    cbn [mbind result_bind] in H. injection H as <- <- <-.
    split; [| done].
    unfold DEXRouter.swapUSDCToToken in Hsw.
    replace (tokenOut =? usdcToken) with false in Hsw
      by (symmetry; by apply Z.eqb_neq).
    binds_inv Hsw.
    match goal with E : ERC20.transferFrom _ _ _ _ _ _ = Ok _ |- _ =>
      apply transferFrom_needs_balance in E; cbn in E;
      rewrite balanceOf_approve in E end.
    lia.
Qed.

(** X26: [minAaplOut] is a ceiling.  A successful [swapAndMint]
    deposits at least [minUsdcOut] for the owner and then mints the
    smaller of [minAaplOut] and the maximum the owner's collateral
    allows, so it never mints more than [minAaplOut]; the owner's
    position grows by that amount less the mint fee. *)
Theorem swapAndMint_caps_at_minAaplOut
        acct router s sender now tokenIn amountIn minUsdcOut minAaplOut
        swapData usdcReceived aaplMinted s' :
  swapAndMint acct router s sender now tokenIn amountIn minUsdcOut
              minAaplOut swapData = Ok (usdcReceived, aaplMinted, s') ->
  let owner := SmartAccount.owner acct in
  let net :=
    aaplMinted
    - aaplMinted * SyntheticStock.mintFee (SyntheticStock.stock s) / 10000 in
  minUsdcOut <= usdcReceived /\
  0 < aaplMinted <= minAaplOut /\
  mget (SyntheticStock.userAaplBalance (SyntheticStock.stock s')) owner
  = mget (SyntheticStock.userAaplBalance (SyntheticStock.stock s)) owner
    + net /\
  exists l1 w maxAaplAmount,
    ERC20.transferFrom (SyntheticStock.ledger s) tokenIn self owner self
      amountIn = Ok l1 /\
    DEXRouter.swapToUSDCAndDeposit usdcToken vaultAddr routerAddr
      aggregatorCall router
      (worldOf s (ERC20.approve l1 tokenIn self routerAddr amountIn))
      self tokenIn amountIn minUsdcOut swapData owner
    = Ok (usdcReceived, w) /\
    SmartAccount.calculateMaxMintAmount (withWorld s w) now owner
    = Ok maxAaplAmount /\
    aaplMinted = Z.min minAaplOut maxAaplAmount.
Proof.
  intros H owner net.
  unfold SmartAccountFlows.swapAndMint in H. fold owner in H.
  destruct (SmartAccount.onlyOwnerOrSession acct sender now);
    [| discriminate H].
  cbn [mbind result_bind] in H.
  destruct (whenNotPaused (SmartAccount.paused acct)); [| discriminate H].
  cbn [mbind result_bind] in H. cbv zeta in H.
  destruct (ERC20.transferFrom _ _ _ _ _ _) as [l1 |] eqn:Hpull;
    [| discriminate H].
  cbn [mbind result_bind] in H.
  destruct (DEXRouter.swapToUSDCAndDeposit _ _ _ _ _ _ _ _ _ _ _ _)
    as [[received w] |] eqn:Hsw; [| discriminate H].
  cbn [mbind result_bind] in H.
  destruct (SmartAccount.calculateMaxMintAmount _ _ _) as [maxA |] eqn:Hmax;
    [| discriminate H].
  cbn [mbind result_bind] in H.
  destruct (require _ _) eqn:Hreq; [| discriminate H].
  cbn [mbind result_bind] in H.
  destruct (SyntheticStock.mint _ _ _ _ _ _ _ _ _)
    as [[[used ev] s2] |] eqn:Hm; [| discriminate H].
  cbn [mbind result_bind] in H. injection H as <- <- <-.
  apply require_inv, Z.ltb_lt in Hreq.
  pose proof Hsw as Hmin.
  apply DEXRouterProofs.swapToUSDCAndDeposit_ok_meets_minimum in Hmin.
  destruct (mint_inv _ _ _ _ _ _ _ _ _ _ _ _ Hm)
    as (? & ? & fee & _ & _ & _ & _ & _ & -> & _ & _ & _ & _ & _
        & _ & Hpo & _).
  assert (Hcap : (if minAaplOut <=? maxA then minAaplOut else maxA)
                 = Z.min minAaplOut maxA).
  { destruct (Z.leb_spec minAaplOut maxA); lia. }
  split; [exact Hmin |]. split; [lia |]. split.
  { rewrite (Hpo owner), decide_True by done. reflexivity. }
  exists l1, w, maxA. repeat split; try done.
Qed.
End Flows.
Import FlowScenario.

Lemma swapAndMint_caps_at_minAaplOut_witness :
  exists usdcReceived aaplMinted s',
    swapAndMint1 system1 Deployment.ALICE 1100 WETH 1000 100 (2 * 10 ^ 18) []
    = Ok (usdcReceived, aaplMinted, s') /\
    100 <= usdcReceived /\
    0 < aaplMinted <= 2 * 10 ^ 18.
Proof.
  destruct (swapAndMint1 system1 Deployment.ALICE 1100 WETH 1000 100
              (2 * 10 ^ 18) []) as [[[usdcReceived aaplMinted] s'] |] eqn:E;
    [| vm_compute in E; discriminate E].
  exists usdcReceived, aaplMinted, s'. split; [reflexivity |].
  destruct (swapAndMint_caps_at_minAaplOut Deployment.USDC Deployment.AAPL
              Deployment.VAULT Deployment.STOCK ROUTER Deployment.WALLET
              (RouterScenario.paying Deployment.USDC 300000000)
              account RouterScenario.router0 system1 Deployment.ALICE 1100
              WETH 1000 100 (2 * 10 ^ 18) [] usdcReceived aaplMinted s' E)
    as (Hmin & Hcap & _).
  split; [exact Hmin | exact Hcap].
Defined.


Lemma redeemAndSwap_pays_from_the_account_witness :
  exists usdcRedeemed tokenReceived s',
    redeemAndSwap1 system2 Deployment.ALICE 1200 (5 * 10 ^ 17)
      Deployment.USDC 0 [] = Ok (usdcRedeemed, tokenReceived, s') /\
    0 < usdcRedeemed
    <= ERC20.balanceOf (SyntheticStock.ledger system2) Deployment.USDC
                       Deployment.WALLET /\
    ERC20.balanceOf (SyntheticStock.ledger s') Deployment.USDC
                    Deployment.WALLET
    = ERC20.balanceOf (SyntheticStock.ledger system2) Deployment.USDC
                      Deployment.WALLET - usdcRedeemed.
Proof.
  destruct (redeemAndSwap1 system2 Deployment.ALICE 1200 (5 * 10 ^ 17)
              Deployment.USDC 0 [])
    as [[[usdcRedeemed tokenReceived] s'] |] eqn:E;
    [| vm_compute in E; discriminate E].
  exists usdcRedeemed, tokenReceived, s'. split; [reflexivity |].
  destruct (redeemAndSwap_pays_from_the_account Deployment.USDC
              Deployment.AAPL Deployment.VAULT Deployment.STOCK ROUTER
              Deployment.WALLET (RouterScenario.paying Deployment.USDC 0)
              account RouterScenario.router0 system2 Deployment.ALICE 1200
              (5 * 10 ^ 17) Deployment.USDC 0 [] usdcRedeemed tokenReceived
              s') as (Hpaid & Husdc).
  - discriminate.
  - discriminate.
  - discriminate.
  - exact E.
  - split; [exact Hpaid |].
    destruct (Husdc eq_refl) as (_ & _ & _ & Hself).
    + discriminate.
    + discriminate.
    + discriminate.
    + exact Hself.
Defined.
End AccountFlowProofs.
